(** * A shallow embedding of the reactivity core of mengshis/vue

    Sources embedded here:
    - [src/core/observer/dep.js]      (class [Dep], [pushTarget], [popTarget])
    - [src/core/observer/watcher.js]  (class [Watcher])
    - [src/core/observer/index.js]    ([observe], [Observer], [defineReactive],
                                       the reactive getter and setter, [set],
                                       [del], [dependArray])
    - [src/core/global-api/index.js]  ([Vue.observable])

    JavaScript objects live in an explicit store.  Every mutable object the
    code shares by reference (a [Dep], a [Watcher], an [Observer], a component,
    a plain object or array, the variables captured by an accessor) is a cell of
    the store addressed by a number, so that aliasing is kept.  A function
    of the source becomes a store transformer that either returns or throws. *)

From stdpp Require Import gmap strings list.
From Stdlib Require Import ZArith Sorted.

Open Scope string_scope.
Open Scope list_scope.

(** ** JavaScript values *)

(** Numbers are integers plus the not-a-number value, which is all the code
    under study distinguishes; [VObj l] refers to the heap object at [l]. *)
Inductive jsval :=
| VUndef
| VNull
| VBool (b : bool)
| VNum (z : Z)
| VNaN
| VStr (s : string)
| VObj (l : nat).

(** What can be thrown: a value a function of the program throws, or one
    of the errors the language itself raises. *)
Inductive exn :=
| ExnValue (v : jsval)
| TypeError
| RangeError.

#[global] Instance jsval_eq_dec : EqDecision jsval.
Proof. solve_decision. Defined.

(** [a === b] *)
Definition strict_eq (a b : jsval) : bool :=
  match a, b with
  | VNaN, _ => false
  | _, VNaN => false
  | _, _ => bool_decide (a = b)
  end.

(** [a !== b] *)
Definition strict_neq (a b : jsval) : bool := negb (strict_eq a b).

(** JavaScript truthiness, as used by [e && e.__ob__]. *)
Definition truthy (v : jsval) : bool :=
  match v with
  | VUndef | VNull | VNaN => false
  | VBool b => b
  | VNum z => negb (Z.eqb z 0)
  | VStr s => negb (String.eqb s "")
  | VObj _ => true
  end.

(** Modelled from the spec: [isObject] of [../util/index] is not part of the
    sources; the spec calls its argument "a container type" and the code
    uses it as [value !== null && typeof value === 'object']. *)
Definition isObject (v : jsval) : bool :=
  match v with
  | VObj _ => true
  | _ => false
  end.

(** Modelled from the spec: [isUndef] and [isPrimitive] of [../util/index];
    the warning of [set] names them "undefined, null, or primitive value". *)
Definition isUndef (v : jsval) : bool :=
  match v with
  | VUndef | VNull => true
  | _ => false
  end.

Definition isPrimitive (v : jsval) : bool :=
  match v with
  | VBool _ | VNum _ | VNaN | VStr _ => true
  | _ => false
  end.

(** ** Property keys, properties, objects *)

(** A property key is a name or a canonical array index. *)
Inductive pkey :=
| KName (s : string)
| KIndex (i : nat).

#[global] Instance pkey_eq_dec : EqDecision pkey.
Proof. solve_decision. Defined.

(** The variables an accessor pair closes over.  A user-written pair keeps
    one private variable [st]; its getter (when there is one) computes the
    visible value from it and its setter (when there is one) the next [st].
    [CReactive] holds the variables captured by [reactiveGetter] and
    [reactiveSetter] in [defineReactive]: [val], [dep], [childOb],
    [customSetter] (present or not), [shallow], and the accessors [getter]
    and [setter] of the property that was there before, by reference. *)
Inductive closure :=
| CUser (st : jsval) (uget : option (jsval -> jsval))
        (uset : option (jsval -> jsval -> jsval))
| CReactive (val : jsval) (dep : nat) (childOb : option nat)
            (customSetter : bool) (shallow : bool)
            (getter setter : option nat).

(** A property descriptor. *)
Inductive prop :=
| PData (v : jsval) (writable enumerable configurable : bool)
| PAccessor (c : nat) (enumerable configurable : bool).

Inductive obj_class :=
| CPlain   (* [Object.prototype.toString] gives [object Object] *)
| CArray   (* [Array.isArray] *)
| CVNode   (* [instanceof VNode] *)
| COther.  (* any other object: a Date, a Map, a DOM node, ... *)

#[global] Instance obj_class_eq_dec : EqDecision obj_class.
Proof. solve_decision. Defined.

(** An object of the heap.  [ob] is the own, non-enumerable property
    [__ob__] when it holds an [Observer]; [isVue] is the truthiness of
    [_isVue]; [props] lists the other own properties in creation order;
    [len] is [length] of an array; [augmented] records that the array
    methods have been replaced by the intercepting ones.

    The keys [__ob__] and [_isVue] are these two fields and never entries
    of [props].  A plain object inherits from [Object.prototype] and an
    array from [Array.prototype] before that; what an object of another
    class inherits besides is not represented, and the methods that
    [copyAugment] defines on an array itself are not told apart from the
    inherited ones. *)
Record Obj := mkObj {
  cls : obj_class;
  extensible : bool;
  isVue : bool;
  ob : option nat;
  props : list (pkey * prop);
  len : nat;
  augmented : bool
}.

(** [class Observer]: [value], [dep], [vmCount]. *)
Record Observer := mkObserver {
  ob_value : nat;
  ob_dep : nat;
  vmCount : nat
}.

(** The part of a component the watcher touches. *)
Record Component := mkComponent {
  _watcher : option nat;
  _watchers : list nat;
  _isBeingDestroyed : bool
}.

(** ** Evaluation functions and callbacks *)

(** What a watcher's [getter] does when called: it reads properties of heap
    objects, chooses what to do next from what it read, and finally returns
    or throws. *)
Inductive prog :=
| Ret (v : jsval)
| Throw (e : jsval)
| Read (o : nat) (k : pkey) (cont : jsval -> prog).

(** [cb.call(vm, value, oldValue)]: [None] when the callback returns,
    [Some e] when it throws [e].  What a callback does to the reactive
    state besides is not represented: the properties of a run that reaches
    a callback are stated up to that call, or for dependencies none of
    whose subscribers is run synchronously. *)
Definition callback := jsval -> jsval -> option jsval.

(** [class Watcher].  A watcher is addressed by its [id]. *)
Record Watcher := mkWatcher {
  vm : nat;
  cb : callback;
  deep : bool;
  user : bool;
  lazy : bool;
  sync : bool;
  dirty : bool;
  active : bool;
  deps : list nat;
  newDeps : list nat;
  depIds : gset nat;
  newDepIds : gset nat;
  getter : prog;
  value : jsval;
  expression : string
}.

(** ** The store *)

(** Build-time and global configuration: [process.env.NODE_ENV ===
    'production'], [config.async], [isServerRendering()], [hasProto] and
    the module variable [shouldObserve]. *)
Record Config := mkConfig {
  production : bool;
  async : bool;
  serverRendering : bool;
  hasProto : bool;
  shouldObserve : bool
}.

(** What the code does that an observer of the program can see; kept as a
    ghost trace, oldest event first. *)
Inductive event :=
| EvDepend (d : nat) (t : option nat)    (* [dep.depend()] with [Dep.target = t] *)
| EvNotify (d : nat)                     (* [dep.notify()] *)
| EvUpdate (w : nat)                     (* [watcher.update()] *)
| EvCallback (w : nat) (newv oldv : jsval)
| EvHandleError (e : exn) (v : nat) (info : string)
| EvWarn (msg : string)
| EvCustomSetter (c : nat).

Record store := mkStore {
  cfg : Config;
  subs : gmap nat (list nat);       (* [dep.subs], by [dep.id] *)
  dep_uid : nat;                    (* [uid] of dep.js *)
  watchers : gmap nat Watcher;
  watcher_uid : nat;                (* [uid] of watcher.js *)
  target : option nat;              (* [Dep.target] *)
  targetStack : list (option nat);  (* [targetStack], top first *)
  vms : gmap nat Component;
  objs : gmap nat Obj;
  closures : gmap nat closure;
  observers : gmap nat Observer;
  queue : list nat;                 (* the scheduler's pending watchers *)
  waiting : bool;
  trace : list event
}.

Definition with_cfg (x : Config) (s : store) : store :=
  mkStore x (subs s) (dep_uid s) (watchers s) (watcher_uid s) (target s)
    (targetStack s) (vms s) (objs s) (closures s) (observers s) (queue s)
    (waiting s) (trace s).
Definition with_subs (x : gmap nat (list nat)) (s : store) : store :=
  mkStore (cfg s) x (dep_uid s) (watchers s) (watcher_uid s) (target s)
    (targetStack s) (vms s) (objs s) (closures s) (observers s) (queue s)
    (waiting s) (trace s).
Definition with_dep_uid (x : nat) (s : store) : store :=
  mkStore (cfg s) (subs s) x (watchers s) (watcher_uid s) (target s)
    (targetStack s) (vms s) (objs s) (closures s) (observers s) (queue s)
    (waiting s) (trace s).
Definition with_watchers (x : gmap nat Watcher) (s : store) : store :=
  mkStore (cfg s) (subs s) (dep_uid s) x (watcher_uid s) (target s)
    (targetStack s) (vms s) (objs s) (closures s) (observers s) (queue s)
    (waiting s) (trace s).
Definition with_watcher_uid (x : nat) (s : store) : store :=
  mkStore (cfg s) (subs s) (dep_uid s) (watchers s) x (target s)
    (targetStack s) (vms s) (objs s) (closures s) (observers s) (queue s)
    (waiting s) (trace s).
Definition with_target (x : option nat) (st : list (option nat)) (s : store) : store :=
  mkStore (cfg s) (subs s) (dep_uid s) (watchers s) (watcher_uid s) x
    st (vms s) (objs s) (closures s) (observers s) (queue s)
    (waiting s) (trace s).
Definition with_vms (x : gmap nat Component) (s : store) : store :=
  mkStore (cfg s) (subs s) (dep_uid s) (watchers s) (watcher_uid s) (target s)
    (targetStack s) x (objs s) (closures s) (observers s) (queue s)
    (waiting s) (trace s).
Definition with_objs (x : gmap nat Obj) (s : store) : store :=
  mkStore (cfg s) (subs s) (dep_uid s) (watchers s) (watcher_uid s) (target s)
    (targetStack s) (vms s) x (closures s) (observers s) (queue s)
    (waiting s) (trace s).
Definition with_closures (x : gmap nat closure) (s : store) : store :=
  mkStore (cfg s) (subs s) (dep_uid s) (watchers s) (watcher_uid s) (target s)
    (targetStack s) (vms s) (objs s) x (observers s) (queue s)
    (waiting s) (trace s).
Definition with_observers (x : gmap nat Observer) (s : store) : store :=
  mkStore (cfg s) (subs s) (dep_uid s) (watchers s) (watcher_uid s) (target s)
    (targetStack s) (vms s) (objs s) (closures s) x (queue s)
    (waiting s) (trace s).
Definition with_queue (x : list nat) (b : bool) (s : store) : store :=
  mkStore (cfg s) (subs s) (dep_uid s) (watchers s) (watcher_uid s) (target s)
    (targetStack s) (vms s) (objs s) (closures s) (observers s) x
    b (trace s).
Definition log (e : event) (s : store) : store :=
  mkStore (cfg s) (subs s) (dep_uid s) (watchers s) (watcher_uid s) (target s)
    (targetStack s) (vms s) (objs s) (closures s) (observers s) (queue s)
    (waiting s) (trace s ++ [e]).

(** ** Returning or throwing *)

Inductive result (A : Type) :=
| Ok (a : A) (s : store)
| Thrown (e : exn) (s : store).
Arguments Ok {A} a s.
Arguments Thrown {A} e s.

Definition store_of {A} (r : result A) : store :=
  match r with
  | Ok _ s => s
  | Thrown _ s => s
  end.

Definition is_ok {A} (r : result A) : bool :=
  match r with
  | Ok _ _ => true
  | Thrown _ _ => false
  end.

Definition M (A : Type) : Type := store -> result A.

Definition ret {A} (a : A) : M A := fun s => Ok a s.
Definition throw {A} (e : exn) : M A := fun s => Thrown e s.
Definition bind {A B} (m : M A) (k : A -> M B) : M B :=
  fun s =>
    match m s with
    | Ok a s' => k a s'
    | Thrown e s' => Thrown e s'
    end.
Definition modify (f : store -> store) : M unit := fun s => Ok tt (f s).

Notation "x <- m ;; k" := (bind m (fun x => k))
  (at level 90, m at level 80, right associativity).
Notation "m ;;; k" := (bind m (fun _ => k))
  (at level 90, right associativity).

(** [for (...) body(x)] over a list, stopping at the first throw. *)
Fixpoint for_each {A} (body : A -> M unit) (l : list A) : M unit :=
  match l with
  | [] => ret tt
  | x :: l' => body x ;;; for_each body l'
  end.

(** ** Small helpers of [../util/index] *)

(** Modelled from the spec: [remove(arr, item)] of [../util/index] is not
    part of the sources; the spec has [removeSubscriber] take the subscriber
    out of the list.  It deletes the first occurrence ([indexOf] and
    [splice]) and leaves a list without the item alone. *)
Fixpoint util_remove (arr : list nat) (item : nat) : list nat :=
  match arr with
  | [] => []
  | x :: arr' => if decide (x = item) then arr' else x :: util_remove arr' item
  end.

(** Modelled from the spec: [handleError] and [warn] of [../util/index]
    "report through the error-reporting channel"; they add to the trace
    and return. *)
Definition handleError (e : exn) (v : nat) (info : string) : M unit :=
  modify (log (EvHandleError e v info)).

Definition warn (msg : string) : M unit :=
  modify (log (EvWarn msg)).

(** Modelled from the spec: [queueWatcher] of [./scheduler] "adds to the
    pending queue if its id is not already present" and schedules a flush
    when none is scheduled. *)
Definition queueWatcher (w : nat) : M unit :=
  modify (fun s =>
    if bool_decide (w ∈ queue s) then s
    else with_queue (queue s ++ [w]) true s).

(** [subs.sort((a, b) => a.id - b.id)]: a stable sort by ascending id. *)
Fixpoint insert_by_id (w : nat) (l : list nat) : list nat :=
  match l with
  | [] => [w]
  | x :: l' => if decide (w < x) then w :: x :: l' else x :: insert_by_id w l'
  end.

Fixpoint sort_by_id (l : list nat) : list nat :=
  match l with
  | [] => []
  | x :: l' => insert_by_id x (sort_by_id l')
  end.

(** ** Cells of the store *)

(** [dep.subs]; a [Dep] is created with the empty list. *)
Definition subs_of (s : store) (d : nat) : list nat :=
  default [] (subs s !! d).

(** Dereferencing: calling a method of, or reading a field of, something
    that is not there raises a [TypeError]. *)
Definition the_watcher (w : nat) : M Watcher :=
  fun s => match watchers s !! w with
           | Some W => Ok W s
           | None => Thrown TypeError s
           end.

Definition the_vm (v : nat) : M Component :=
  fun s => match vms s !! v with
           | Some V => Ok V s
           | None => Thrown TypeError s
           end.

Definition the_obj (o : nat) : M Obj :=
  fun s => match objs s !! o with
           | Some x => Ok x s
           | None => Thrown TypeError s
           end.

Definition the_observer (o : nat) : M Observer :=
  fun s => match observers s !! o with
           | Some x => Ok x s
           | None => Thrown TypeError s
           end.

Definition the_closure (c : nat) : M closure :=
  fun s => match closures s !! c with
           | Some C => Ok C s
           | None => Thrown TypeError s
           end.

Definition set_watcher (w : nat) (W : Watcher) : M unit :=
  modify (fun s => with_watchers (<[w := W]> (watchers s)) s).

Definition set_vm (v : nat) (V : Component) : M unit :=
  modify (fun s => with_vms (<[v := V]> (vms s)) s).

Definition set_obj (o : nat) (x : Obj) : M unit :=
  modify (fun s => with_objs (<[o := x]> (objs s)) s).

Definition set_closure (c : nat) (C : closure) : M unit :=
  modify (fun s => with_closures (<[c := C]> (closures s)) s).

Definition set_observer (o : nat) (x : Observer) : M unit :=
  modify (fun s => with_observers (<[o := x]> (observers s)) s).

(** Field updates of a watcher. *)
Definition with_collected (nd : list nat) (ndi : gset nat) (W : Watcher) : Watcher :=
  mkWatcher (vm W) (cb W) (deep W) (user W) (lazy W) (sync W) (dirty W)
    (active W) (deps W) nd (depIds W) ndi (getter W) (value W) (expression W).
Definition with_generations (d nd : list nat) (di ndi : gset nat) (W : Watcher) : Watcher :=
  mkWatcher (vm W) (cb W) (deep W) (user W) (lazy W) (sync W) (dirty W)
    (active W) d nd di ndi (getter W) (value W) (expression W).
Definition with_dirty (b : bool) (W : Watcher) : Watcher :=
  mkWatcher (vm W) (cb W) (deep W) (user W) (lazy W) (sync W) b
    (active W) (deps W) (newDeps W) (depIds W) (newDepIds W) (getter W)
    (value W) (expression W).
Definition with_active (b : bool) (W : Watcher) : Watcher :=
  mkWatcher (vm W) (cb W) (deep W) (user W) (lazy W) (sync W) (dirty W)
    b (deps W) (newDeps W) (depIds W) (newDepIds W) (getter W)
    (value W) (expression W).
Definition with_value (v : jsval) (W : Watcher) : Watcher :=
  mkWatcher (vm W) (cb W) (deep W) (user W) (lazy W) (sync W) (dirty W)
    (active W) (deps W) (newDeps W) (depIds W) (newDepIds W) (getter W)
    v (expression W).

(** ** [class Dep] and the active-target stack (dep.js) *)

(** [new Dep()]: [this.id = uid++; this.subs = []] *)
Definition new_Dep : M nat :=
  fun s =>
    let d := dep_uid s in
    Ok d (with_dep_uid (S d) (with_subs (<[d := []]> (subs s)) s)).

(** [addSub (sub) { this.subs.push(sub) }] *)
Definition Dep_addSub (d sub : nat) : M unit :=
  modify (fun s => with_subs (<[d := subs_of s d ++ [sub]]> (subs s)) s).

(** [removeSub (sub) { remove(this.subs, sub) }] *)
Definition Dep_removeSub (d sub : nat) : M unit :=
  modify (fun s => with_subs (<[d := util_remove (subs_of s d) sub]> (subs s)) s).

(** [pushTarget (target)] *)
Definition pushTarget (t : option nat) : M unit :=
  modify (fun s => with_target t (t :: targetStack s) s).

(** [popTarget ()]: [targetStack.pop()], then [Dep.target] is the new top,
    [undefined] when the stack is empty. *)
Definition popTarget : M unit :=
  modify (fun s =>
    let st := tail (targetStack s) in
    with_target (default None (head st)) st s).

(** [Watcher.prototype.addDep (dep)] *)
Definition Watcher_addDep (w d : nat) : M unit :=
  W <- the_watcher w ;;
  if bool_decide (d ∈ newDepIds W) then ret tt
  else
    set_watcher w (with_collected (newDeps W ++ [d]) ({[d]} ∪ newDepIds W) W) ;;;
    if bool_decide (d ∈ depIds W) then ret tt
    else Dep_addSub d w.

(** [depend () { if (Dep.target) Dep.target.addDep(this) }] *)
Definition Dep_depend (d : nat) : M unit :=
  fun s =>
    let s' := log (EvDepend d (target s)) s in
    match target s with
    | Some w => Watcher_addDep w d s'
    | None => Ok tt s'
    end.

(** [Watcher.prototype.cleanupDeps ()] *)
Definition Watcher_cleanupDeps (w : nat) : M unit :=
  W <- the_watcher w ;;
  for_each (fun d => if bool_decide (d ∈ newDepIds W) then ret tt
                     else Dep_removeSub d w)
           (reverse (deps W)) ;;;
  W' <- the_watcher w ;;
  set_watcher w (with_generations (newDeps W') [] (newDepIds W') ∅ W').

(** ** Reading a property *)

Definition is_array (v : jsval) (s : store) : bool :=
  match v with
  | VObj l => match objs s !! l with
              | Some x => bool_decide (cls x = CArray)
              | None => false
              end
  | _ => false
  end.

Definition lookup_prop (k : pkey) (ps : list (pkey * prop)) : option prop :=
  snd <$> List.find (fun kp => bool_decide (fst kp = k)) ps.

(** [o[k]] where accessors are called through [call]. *)
Definition prop_get_with (call : nat -> M jsval) (o : nat) (k : pkey) : M jsval :=
  x <- the_obj o ;;
  match lookup_prop k (props x) with
  | Some (PData v _ _ _) => ret v
  | Some (PAccessor c _ _) => call c
  | None =>
      if bool_decide (k = KName "length") && bool_decide (cls x = CArray)
      then ret (VNum (Z.of_nat (len x)))
      else ret VUndef
  end.

(** [e.__ob__] for a value [e] *)
Definition ob_of (e : jsval) (s : store) : option nat :=
  match e with
  | VObj l => objs s !! l ≫= ob
  | _ => None
  end.

Section ReadBodies.
(** A getter, and [dependArray], called one stack frame deeper. *)
Variable rec_getter : nat -> M jsval.
Variable rec_dependArray : nat -> M unit.

(** [function reactiveGetter ()] of [defineReactive], over the variables
    it captured. *)
Definition reactiveGetter (val : jsval) (dep : nat) (childOb : option nat)
    (getter : option nat) : M jsval :=
  value <- match getter with
           | Some g => rec_getter g
           | None => ret val
           end ;;
  (fun s =>
     match target s with
     | Some _ =>
         (Dep_depend dep ;;;
          match childOb with
          | Some o =>
              obs <- the_observer o ;;
              Dep_depend (ob_dep obs) ;;;
              fun s' =>
                match value with
                | VObj l => if is_array value s' then rec_dependArray l s'
                            else Ok tt s'
                | _ => Ok tt s'
                end
          | None => ret tt
          end) s
     | None => Ok tt s
     end) ;;;
  ret value.

(** Calling the [get] of an accessor property. *)
Definition call_getter_body (c : nat) : M jsval :=
  C <- the_closure c ;;
  match C with
  | CUser st (Some g) _ => ret (g st)
  | CUser _ None _ => ret VUndef
  | CReactive val dep childOb _ _ getter _ =>
      reactiveGetter val dep childOb getter
  end.

(** [function dependArray (value)] *)
Definition dependArray_body (a : nat) : M unit :=
  A <- the_obj a ;;
  for_each (fun i =>
      e <- prop_get_with rec_getter a (KIndex i) ;;
      (fun s =>
         match (if truthy e then ob_of e s else None) with
         | Some o => (obs <- the_observer o ;; Dep_depend (ob_dep obs)) s
         | None => Ok tt s
         end) ;;;
      fun s =>
        match e with
        | VObj l => if is_array e s then rec_dependArray l s else Ok tt s
        | _ => Ok tt s
        end)
    (seq 0 (len A)).
End ReadBodies.

(** The call depth [n] bounds how deep getters and [dependArray] may nest;
    running past it raises the engine's [RangeError]. *)
Fixpoint call_getter (n : nat) : nat -> M jsval :=
  call_getter_body
    (match n with
     | 0 => fun _ => throw RangeError
     | S n' => call_getter n'
     end)
    (match n with
     | 0 => fun _ => throw RangeError
     | S n' => dependArray n'
     end)
with dependArray (n : nat) : nat -> M unit :=
  dependArray_body
    (match n with
     | 0 => fun _ => throw RangeError
     | S n' => call_getter n'
     end)
    (match n with
     | 0 => fun _ => throw RangeError
     | S n' => dependArray n'
     end).

(** [o[k]] *)
Definition prop_get (n : nat) (o : nat) (k : pkey) : M jsval :=
  prop_get_with (call_getter n) o k.

(** Running an evaluation function. *)
Fixpoint run_prog (n : nat) (p : prog) : M jsval :=
  match p with
  | Ret v => ret v
  | Throw e => throw (ExnValue e)
  | Read o k cont => v <- prop_get n o k ;; run_prog n (cont v)
  end.

(** ** [observe], [class Observer] and [defineReactive] (observer/index.js) *)

Definition prop_configurable (p : prop) : bool :=
  match p with
  | PData _ _ _ c => c
  | PAccessor _ _ c => c
  end.

Definition prop_enumerable (p : prop) : bool :=
  match p with
  | PData _ _ e _ => e
  | PAccessor _ e _ => e
  end.

(** [Object.getOwnPropertyDescriptor(obj, key)] for a key other than
    [__ob__] and [_isVue], which are fields of [Obj]; [length] of an array
    is an own data property that cannot be reconfigured. *)
Definition own_property (x : Obj) (k : pkey) : option prop :=
  match lookup_prop k (props x) with
  | Some p => Some p
  | None =>
      if bool_decide (k = KName "length") && bool_decide (cls x = CArray)
      then Some (PData (VNum (Z.of_nat (len x))) true false false)
      else None
  end.

(** [Object.keys(obj)]: the enumerable own keys, indices first in ascending
    order, then names in creation order. *)
Definition own_keys (x : Obj) : list pkey :=
  let ks := fst <$> List.filter (fun kp => prop_enumerable (snd kp)) (props x) in
  (KIndex <$> sort_by_id (omap (fun k => match k with
                                         | KIndex i => Some i
                                         | KName _ => None
                                         end) ks))
  ++ List.filter (fun k => match k with
                           | KName _ => true
                           | KIndex _ => false
                           end) ks.

(** Replacing the descriptor of [k], at its place in the creation order, or
    adding [k] last. *)
Fixpoint put_prop (k : pkey) (p : prop) (ps : list (pkey * prop)) : list (pkey * prop) :=
  match ps with
  | [] => [(k, p)]
  | (k', p') :: ps' =>
      if bool_decide (k' = k) then (k, p) :: ps'
      else (k', p') :: put_prop k p ps'
  end.

Definition with_props (ps : list (pkey * prop)) (x : Obj) : Obj :=
  mkObj (cls x) (extensible x) (isVue x) (ob x) ps (len x) (augmented x).
Definition with_len (n : nat) (x : Obj) : Obj :=
  mkObj (cls x) (extensible x) (isVue x) (ob x) (props x) n (augmented x).
Definition with_ob (o : option nat) (x : Obj) : Obj :=
  mkObj (cls x) (extensible x) (isVue x) o (props x) (len x) (augmented x).
Definition with_augmented (b : bool) (x : Obj) : Obj :=
  mkObj (cls x) (extensible x) (isVue x) (ob x) (props x) (len x) b.

(** [Object.defineProperty(obj, key, { enumerable: true, configurable: true,
    get, set })] for the accessor pair [c].  The caller has checked that an
    existing property is configurable; a new property needs an extensible
    object. *)
Definition define_accessor (o : nat) (k : pkey) (c : nat) : M unit :=
  x <- the_obj o ;;
  match lookup_prop k (props x) with
  | Some _ => set_obj o (with_props (put_prop k (PAccessor c true true) (props x)) x)
  | None =>
      if extensible x
      then set_obj o (with_props (put_prop k (PAccessor c true true) (props x)) x)
      else throw TypeError
  end.

(** [property && property.get] and [property && property.set]: the
    accessors of a descriptor, by reference to their closure. *)
Definition descriptor_get (p : option prop) (s : store) : option nat :=
  match p with
  | Some (PAccessor c _ _) =>
      match closures s !! c with
      | Some (CUser _ None _) => None
      | _ => Some c
      end
  | _ => None
  end.

Definition descriptor_set (p : option prop) (s : store) : option nat :=
  match p with
  | Some (PAccessor c _ _) =>
      match closures s !! c with
      | Some (CUser _ _ None) => None
      | _ => Some c
      end
  | _ => None
  end.

Section ObserveBodies.
(** The call depth left for getters, and [observe] called one stack
    frame deeper. *)
Variable n : nat.
Variable rec_observe : jsval -> bool -> M (option nat).

(** [defineReactive (obj, key, val, customSetter, shallow)].  [val] is
    [None] when the call has two arguments ([arguments.length === 2]). *)
Definition defineReactive_body (obj : nat) (key : pkey) (val : option jsval)
    (customSetter : bool) (shallow : bool) : M unit :=
  dep <- new_Dep ;;
  x <- the_obj obj ;;
  let property := own_property x key in
  if match property with
     | Some p => negb (prop_configurable p)
     | None => false
     end
  then ret tt
  else
    fun s =>
      let getter := descriptor_get property s in
      let setter := descriptor_set property s in
      (val' <- (if (negb (bool_decide (is_Some getter))
                    || bool_decide (is_Some setter))
                   && negb (bool_decide (is_Some val))
                then prop_get n obj key
                else ret (default VUndef val)) ;;
       childOb <- (if shallow then ret None else rec_observe val' false) ;;
       fun s' =>
         let c := fresh (dom (closures s')) in
         (set_closure c (CReactive val' dep childOb customSetter shallow
                           getter setter) ;;;
          define_accessor obj key c) s') s.

(** [walk (obj)] *)
Definition walk_body (obj : nat) : M unit :=
  x <- the_obj obj ;;
  for_each (fun k => defineReactive_body obj k None false false) (own_keys x).

(** [observeArray (items)] *)
Definition observeArray_body (items : nat) : M unit :=
  x <- the_obj items ;;
  for_each (fun i => e <- prop_get n items (KIndex i) ;;
                     rec_observe e false ;;; ret tt)
           (seq 0 (len x)).

(** [new Observer(value)]; returns the reference to the new observer.
    [protoAugment] and [copyAugment] both leave the array with the
    intercepting methods. *)
Definition new_Observer_body (value : nat) : M nat :=
  dep <- new_Dep ;;
  fun s =>
    let o := fresh (dom (observers s)) in
    (set_observer o (mkObserver value dep 0) ;;;
     x <- the_obj value ;;
     set_obj value (with_ob (Some o) x) ;;;
     (if bool_decide (cls x = CArray)
      then (x' <- the_obj value ;;
            set_obj value (with_augmented true x') ;;;
            observeArray_body value)
      else walk_body value) ;;;
     ret o) s.

(** [observe (value, asRootData)] *)
Definition observe_body (value : jsval) (asRootData : bool) : M (option nat) :=
  match value with
  | VObj l =>
      x <- the_obj l ;;
      if bool_decide (cls x = CVNode) then ret None
      else
        o <- (match ob x with
              | Some o => ret (Some o)
              | None =>
                  fun s =>
                    if shouldObserve (cfg s)
                       && negb (serverRendering (cfg s))
                       && (bool_decide (cls x = CArray)
                           || bool_decide (cls x = CPlain))
                       && extensible x
                       && negb (isVue x)
                    then (o <- new_Observer_body l ;; ret (Some o)) s
                    else Ok None s
              end) ;;
        match o with
        | Some o' =>
            if asRootData
            then (r <- the_observer o' ;;
                  set_observer o' (mkObserver (ob_value r) (ob_dep r)
                                     (S (vmCount r))) ;;;
                  ret o)
            else ret o
        | None => ret None
        end
  | _ => ret None
  end.
End ObserveBodies.

(** The call depth [n] bounds how deep [observe] may nest through
    [walk] and [observeArray]. *)
Fixpoint observe (n : nat) : jsval -> bool -> M (option nat) :=
  observe_body n
    (match n with
     | 0 => fun _ _ => throw RangeError
     | S n' => observe n'
     end).

Definition defineReactive (n : nat) := defineReactive_body n (observe n).
Definition walk (n : nat) := walk_body n (observe n).
Definition observeArray (n : nat) := observeArray_body n (observe n).
Definition new_Observer (n : nat) := new_Observer_body n (observe n).

(** [toggleObserving (value)] *)
Definition toggleObserving (b : bool) : M unit :=
  modify (fun s =>
    with_cfg (mkConfig (production (cfg s)) (async (cfg s))
                (serverRendering (cfg s)) (hasProto (cfg s)) b) s).

(** ** [class Watcher] (watcher.js) and [Dep.prototype.notify] *)

Section Engine.
(** Modelled from the spec: [traverse] of [./traverse] is not part of the
    sources.  The spec has it walk the result "purely to force every
    nested container field to be read, thereby registering dependencies
    on the entire subtree": [traverse v s] lists the dependencies whose
    [depend()] that walk reaches, in order. *)
Variable traverse : jsval -> store -> list nat.

(** Modelled from the spec: [parsePath] of [../util/index] is not part of
    the sources; it turns a dot-delimited path into an evaluation
    function, or fails. *)
Variable parsePath : string -> option prog.

(** The [info] strings passed to [handleError]: the watcher's expression
    between double quotes after a fixed text. *)
Definition quoted (s : string) : string :=
  String (Ascii.ascii_of_nat 34) (s ++ String (Ascii.ascii_of_nat 34) EmptyString)%string.

Definition getter_info (W : Watcher) : string :=
  ("getter for watcher " ++ quoted (expression W))%string.

Definition callback_info (W : Watcher) : string :=
  ("callback for watcher " ++ quoted (expression W))%string.

(** [this.cb.call(this.vm, value, oldValue)] *)
Definition call_cb (w : nat) (W : Watcher) (newv oldv : jsval) : M unit :=
  modify (log (EvCallback w newv oldv)) ;;;
  match cb W newv oldv with
  | None => ret tt
  | Some e => throw (ExnValue e)
  end.

(** [get ()]: the [try], its [catch], its [finally], then [return value]. *)
Definition Watcher_get (n : nat) (w : nat) : M jsval :=
  W <- the_watcher w ;;
  pushTarget (Some w) ;;;
  fun s0 =>
    let attempt : result jsval :=
      match run_prog n (getter W) s0 with
      | Ok v s1 => Ok v s1
      | Thrown e s1 =>
          if user W
          then (handleError e (vm W)
                  (getter_info W) ;;;
                ret VUndef) s1
          else Thrown e s1
      end in
    let value := match attempt with
                 | Ok v _ => v
                 | Thrown _ _ => VUndef
                 end in
    let finally : M unit :=
      (if deep W
       then fun s => for_each Dep_depend (traverse value s) s
       else ret tt) ;;;
      popTarget ;;;
      Watcher_cleanupDeps w in
    match finally (store_of attempt) with
    | Ok _ s2 =>
        match attempt with
        | Ok v _ => Ok v s2
        | Thrown e _ => Thrown e s2
        end
    | Thrown e s2 => Thrown e s2
    end.

(** [run ()] *)
Definition Watcher_run (n : nat) (w : nat) : M unit :=
  W <- the_watcher w ;;
  if active W then
    v <- Watcher_get n w ;;
    W1 <- the_watcher w ;;
    if strict_neq v (value W1) || isObject v || deep W1 then
      let oldValue := value W1 in
      set_watcher w (with_value v W1) ;;;
      if user W1 then
        fun s =>
          match call_cb w W1 v oldValue s with
          | Ok a s' => Ok a s'
          | Thrown e s' =>
              handleError e (vm W1)
                (callback_info W1) s'
          end
      else call_cb w W1 v oldValue
    else ret tt
  else ret tt.

(** [update ()] *)
Definition Watcher_update (n : nat) (w : nat) : M unit :=
  modify (log (EvUpdate w)) ;;;
  W <- the_watcher w ;;
  if lazy W then set_watcher w (with_dirty true W)
  else if sync W then Watcher_run n w
  else queueWatcher w.

(** [evaluate ()] *)
Definition Watcher_evaluate (n : nat) (w : nat) : M unit :=
  v <- Watcher_get n w ;;
  W <- the_watcher w ;;
  set_watcher w (with_dirty false (with_value v W)).

(** [depend ()] of a watcher *)
Definition Watcher_depend (w : nat) : M unit :=
  W <- the_watcher w ;;
  for_each Dep_depend (reverse (deps W)).

(** [teardown ()] *)
Definition Watcher_teardown (w : nat) : M unit :=
  W <- the_watcher w ;;
  if active W then
    V <- the_vm (vm W) ;;
    (if negb (_isBeingDestroyed V)
     then set_vm (vm W)
            (mkComponent (_watcher V) (util_remove (_watchers V) w)
               (_isBeingDestroyed V))
     else ret tt) ;;;
    for_each (fun d => Dep_removeSub d w) (reverse (deps W)) ;;;
    W' <- the_watcher w ;;
    set_watcher w (with_active false W')
  else ret tt.

(** The snapshot [notify] iterates over: [this.subs.slice()], sorted when
    the build is not a production build and [config.async] is off. *)
Definition notify_snapshot (s : store) (d : nat) : list nat :=
  if negb (production (cfg s)) && negb (async (cfg s))
  then sort_by_id (subs_of s d)
  else subs_of s d.

(** [notify ()] *)
Definition Dep_notify (n : nat) (d : nat) : M unit :=
  modify (log (EvNotify d)) ;;;
  fun s => for_each (Watcher_update n) (notify_snapshot s d) s.

(** The [options] argument of the constructor. *)
Record WatcherOptions := mkOptions {
  opt_deep : bool;
  opt_user : bool;
  opt_lazy : bool;
  opt_sync : bool
}.

(** [constructor (vm, expOrFn, cb, options, isRenderWatcher)]; returns
    the new watcher's id. *)
Definition new_Watcher (n : nat) (v : nat) (expOrFn : prog + string)
    (cb : callback) (options : option WatcherOptions)
    (isRenderWatcher : bool) : M nat :=
  V <- the_vm v ;;
  fun s =>
    let w := S (watcher_uid s) in
    let o := default (mkOptions false false false false) options in
    let expression :=
      if production (cfg s) then ""
      else match expOrFn with
           | inl _ => "function"
           | inr path => path
           end in
    let '(getter, unparsed) :=
      match expOrFn with
      | inl f => (f, false)
      | inr path => match parsePath path with
                    | Some f => (f, false)
                    | None => (Ret VUndef, true)
                    end
      end in
    let W := mkWatcher v cb (opt_deep o) (opt_user o) (opt_lazy o)
               (opt_sync o) (opt_lazy o) true [] [] ∅ ∅ getter VUndef
               expression in
    (set_vm v (mkComponent (if isRenderWatcher then Some w else _watcher V)
                 (_watchers V ++ [w]) (_isBeingDestroyed V)) ;;;
     modify (with_watcher_uid w) ;;;
     set_watcher w W ;;;
     (if unparsed && negb (production (cfg s))
      then warn "Failed watching path"
      else ret tt) ;;;
     (if opt_lazy o then ret tt
      else (val <- Watcher_get n w ;;
            W' <- the_watcher w ;;
            set_watcher w (with_value val W'))) ;;;
     ret w) s.

(** ** Writing a property *)

Definition with_val (v : jsval) (C : closure) : closure :=
  match C with
  | CReactive _ dep childOb cs sh g st => CReactive v dep childOb cs sh g st
  | CUser _ g st => CUser v g st
  end.

Definition with_childOb (o : option nat) (C : closure) : closure :=
  match C with
  | CReactive v dep _ cs sh g st => CReactive v dep o cs sh g st
  | CUser v g st => CUser v g st
  end.

Section SetterBody.
Variable n : nat.
(** A setter called one stack frame deeper. *)
Variable rec_setter : nat -> jsval -> M unit.

(** [function reactiveSetter (newVal)] of [defineReactive], for the
    accessor pair [c] with the variables it captured. *)
Definition reactiveSetter (c : nat) (val : jsval) (dep : nat)
    (customSetter shallow : bool) (getter setter : option nat)
    (newVal : jsval) : M unit :=
  value <- match getter with
           | Some g => call_getter n g
           | None => ret val
           end ;;
  if strict_eq newVal value
     || (strict_neq newVal newVal && strict_neq value value)
  then ret tt
  else
    (fun s => if negb (production (cfg s)) && customSetter
              then Ok tt (log (EvCustomSetter c) s)
              else Ok tt s) ;;;
    if bool_decide (is_Some getter) && negb (bool_decide (is_Some setter))
    then ret tt
    else
      match setter with
      | Some st => rec_setter st newVal
      | None => C <- the_closure c ;; set_closure c (with_val newVal C)
      end ;;;
      childOb <- (if shallow then ret None else observe n newVal false) ;;
      C <- the_closure c ;;
      set_closure c (with_childOb childOb C) ;;;
      Dep_notify n dep.

(** Calling the [set] of an accessor property. *)
Definition call_setter_body (c : nat) (newVal : jsval) : M unit :=
  C <- the_closure c ;;
  match C with
  | CUser st g (Some f) => set_closure c (CUser (f st newVal) g (Some f))
  | CUser _ _ None => ret tt
  | CReactive val dep _ customSetter shallow getter setter =>
      reactiveSetter c val dep customSetter shallow getter setter newVal
  end.
End SetterBody.

Fixpoint call_setter (n : nat) : nat -> jsval -> M unit :=
  call_setter_body n
    (match n with
     | 0 => fun _ _ => throw RangeError
     | S n' => call_setter n'
     end).

(** Dropping the elements of an array from index [m] on. *)
Definition truncate (m : nat) (ps : list (pkey * prop)) : list (pkey * prop) :=
  List.filter (fun kp => match fst kp with
                         | KIndex i => bool_decide (i < m)
                         | KName _ => true
                         end) ps.

(** [o[k] = v] in strict-mode code, for a key other than [__ob__],
    [_isVue] and [__proto__]: a key the object does not own becomes an own
    data property, which is what the assignment does for every inherited
    name but the accessor [__proto__] of [Object.prototype]. *)
Definition prop_set (n : nat) (o : nat) (k : pkey) (v : jsval) : M unit :=
  x <- the_obj o ;;
  match lookup_prop k (props x) with
  | Some (PData _ w e c) =>
      if w then set_obj o (with_props (put_prop k (PData v w e c) (props x)) x)
      else throw TypeError
  | Some (PAccessor c _ _) =>
      fun s => match descriptor_set (lookup_prop k (props x)) s with
               | Some _ => call_setter n c v s
               | None => Thrown TypeError s
               end
  | None =>
      if bool_decide (k = KName "length") && bool_decide (cls x = CArray)
      then match v with
           | VNum z =>
               if bool_decide (0 <= z)%Z
               then set_obj o (with_len (Z.to_nat z)
                                 (with_props (truncate (Z.to_nat z) (props x)) x))
               else throw RangeError
           | _ => throw RangeError
           end
      else if extensible x
      then set_obj o
             (match k with
              | KIndex i =>
                  if bool_decide (cls x = CArray)
                  then with_len (max (len x) (S i))
                         (with_props (put_prop k (PData v true true true) (props x)) x)
                  else with_props (put_prop k (PData v true true true) (props x)) x
              | KName _ =>
                  with_props (put_prop k (PData v true true true) (props x)) x
              end)
      else throw TypeError
  end.

(** Modelled from the spec: the intercepting array methods of [./array]
    are not part of the sources.  The spec has each mutating operation
    of an observed sequence notify the identity dependency and wrap the
    inserted container elements.  [splice_one n a i v] is
    [a.splice(i, 1, v)] for [i <= a.length], which stores [v] at [i]. *)
Definition splice_one (n : nat) (a : nat) (i : nat) (v : jsval) : M unit :=
  prop_set n a (KIndex i) v ;;;
  x <- the_obj a ;;
  if augmented x then
    match ob x with
    | Some o =>
        r <- the_observer o ;;
        observe n v false ;;;
        Dep_notify n (ob_dep r)
    | None => throw TypeError
    end
  else ret tt.

(** The names every object inherits from [Object.prototype], and an array
    from [Array.prototype]. *)
Definition object_prototype_keys : list string :=
  ["constructor"; "hasOwnProperty"; "isPrototypeOf"; "propertyIsEnumerable";
   "toLocaleString"; "toString"; "valueOf"; "__proto__";
   "__defineGetter__"; "__defineSetter__"; "__lookupGetter__";
   "__lookupSetter__"].

Definition array_prototype_keys : list string :=
  ["concat"; "copyWithin"; "entries"; "every"; "fill"; "filter"; "find";
   "findIndex"; "forEach"; "includes"; "indexOf"; "join"; "keys";
   "lastIndexOf"; "map"; "pop"; "push"; "reduce"; "reduceRight";
   "reverse"; "shift"; "slice"; "some"; "sort"; "splice"; "unshift";
   "values"].

Definition in_Object_prototype (k : pkey) : bool :=
  match k with
  | KName s => bool_decide (s ∈ object_prototype_keys)
  | KIndex _ => false
  end.

(** [key in target] for a heap object and a key other than [__ob__] and
    [_isVue]: an own property, or one of the built-in prototype. *)
Definition has_property (x : Obj) (k : pkey) : bool :=
  bool_decide (is_Some (own_property x k))
  || in_Object_prototype k
  || (bool_decide (cls x = CArray)
      && match k with
         | KName s => bool_decide (s ∈ array_prototype_keys)
         | KIndex _ => false
         end).

(** [isValidArrayIndex(key)]: the key is a canonical index. *)
Definition isValidArrayIndex (k : pkey) : option nat :=
  match k with
  | KIndex i => Some i
  | KName _ => None
  end.

Definition set_on_primitive_warning : string :=
  "Cannot set reactive property on undefined, null, or primitive value".

(** [set (target, key, val)] *)
Definition set (n : nat) (target : jsval) (key : pkey) (val : jsval) : M jsval :=
  (fun s => if negb (production (cfg s))
               && (isUndef target || isPrimitive target)
            then warn set_on_primitive_warning s
            else Ok tt s) ;;;
  match target with
  | VObj t =>
      x <- the_obj t ;;
      match (if bool_decide (cls x = CArray) then isValidArrayIndex key else None) with
      | Some i =>
          (* target.length = Math.max(target.length, key) *)
          set_obj t (with_len (max (len x) i) x) ;;;
          splice_one n t i val ;;;
          ret val
      | None =>
          if has_property x key && negb (in_Object_prototype key)
          then prop_set n t key val ;;; ret val
          else
            fun s =>
              let vmc := match ob x with
                         | Some o => match observers s !! o with
                                     | Some r => negb (bool_decide (vmCount r = 0))
                                     | None => false
                                     end
                         | None => false
                         end in
              if isVue x || vmc
              then ((if negb (production (cfg s))
                     then warn "Avoid adding reactive properties to a Vue instance or its root $data at runtime - declare it upfront in the data option."
                     else ret tt) ;;;
                    ret val) s
              else
                match ob x with
                | None => (prop_set n t key val ;;; ret val) s
                | Some o =>
                    (r <- the_observer o ;;
                     defineReactive n (ob_value r) key (Some val) false false ;;;
                     Dep_notify n (ob_dep r) ;;;
                     ret val) s
                end
      end
  | _ =>
      (* [key in target] on undefined, null or a primitive *)
      throw TypeError
  end.

(** ** [del] (observer/index.js) and [Vue.observable] (global-api/index.js) *)

(** Modelled from the spec: [hasOwn] of [../util/index] is not part of the
    sources.  The spec has [delete] notify "if it existed": [hasOwn] is the
    test that the key is an own property of the object (for a key other
    than [__ob__] and [_isVue], as [own_property]). *)
Definition hasOwn (x : Obj) (k : pkey) : bool :=
  bool_decide (is_Some (own_property x k)).

(** The own keys of a primitive string: its indices and [length]. *)
Definition string_hasOwn (str : string) (k : pkey) : bool :=
  match k with
  | KIndex i => bool_decide (i < String.length str)
  | KName name => bool_decide (name = "length")
  end.

Definition remove_prop (k : pkey) (ps : list (pkey * prop)) : list (pkey * prop) :=
  List.filter (fun kp => negb (bool_decide (fst kp = k))) ps.

(** [delete o[k]] in strict-mode code: a property that is not configurable
    cannot be deleted. *)
Definition delete_prop (o : nat) (k : pkey) : M unit :=
  x <- the_obj o ;;
  match own_property x k with
  | None => ret tt
  | Some p =>
      if prop_configurable p
      then set_obj o (with_props (remove_prop k (props x)) x)
      else throw TypeError
  end.

(** The elements after index [i] move down by one. *)
Definition shift_down (i : nat) (ps : list (pkey * prop)) : list (pkey * prop) :=
  omap (fun kp => match fst kp with
                  | KIndex j =>
                      if bool_decide (j = i) then None
                      else if bool_decide (i < j) then Some (KIndex (pred j), snd kp)
                      else Some kp
                  | KName _ => Some kp
                  end) ps.

(** Modelled from the spec: the intercepting array methods of [./array]
    are not part of the sources.  [splice_out n a i] is [a.splice(i, 1)]:
    it takes the element at [i] out when there is one, and on an observed
    array notifies the identity dependency. *)
Definition splice_out (n : nat) (a : nat) (i : nat) : M unit :=
  x <- the_obj a ;;
  (if bool_decide (i < len x)
   then set_obj a (with_len (pred (len x)) (with_props (shift_down i (props x)) x))
   else ret tt) ;;;
  if augmented x then
    match ob x with
    | Some o => r <- the_observer o ;; Dep_notify n (ob_dep r)
    | None => throw TypeError
    end
  else ret tt.

Definition del_on_primitive_warning : string :=
  "Cannot delete reactive property on undefined, null, or primitive value".

Definition del_on_root_warning : string :=
  "Avoid deleting properties on a Vue instance or its root $data - just set it to null.".

(** [del (target, key)] *)
Definition del (n : nat) (target : jsval) (key : pkey) : M unit :=
  (fun s => if negb (production (cfg s))
               && (isUndef target || isPrimitive target)
            then warn del_on_primitive_warning s
            else Ok tt s) ;;;
  match target with
  | VObj t =>
      x <- the_obj t ;;
      match (if bool_decide (cls x = CArray) then isValidArrayIndex key else None) with
      | Some i => splice_out n t i
      | None =>
          fun s =>
            let vmc := match ob x with
                       | Some o => match observers s !! o with
                                   | Some r => negb (bool_decide (vmCount r = 0))
                                   | None => false
                                   end
                       | None => false
                       end in
            if isVue x || vmc
            then (if negb (production (cfg s))
                  then warn del_on_root_warning
                  else ret tt) s
            else if negb (hasOwn x key) then Ok tt s
            else
              (delete_prop t key ;;;
               match ob x with
               | None => ret tt
               | Some o => r <- the_observer o ;; Dep_notify n (ob_dep r)
               end) s
      end
  | VUndef | VNull =>
      (* [target.__ob__] on undefined or null *)
      throw TypeError
  | VStr str =>
      (* no [__ob__], no [_isVue]; the own keys of a string cannot be deleted *)
      if string_hasOwn str key then throw TypeError else ret tt
  | VBool _ | VNum _ | VNaN =>
      (* no [__ob__], no [_isVue], no own key *)
      ret tt
  end.

(** [Vue.observable = obj => { observe(obj); return obj }] *)
Definition Vue_observable (n : nat) (obj : jsval) : M jsval :=
  observe n obj false ;;; ret obj.

(** * The vocabulary of the properties *)

(** [remove] applied [k] times. *)
Fixpoint remove_n (k : nat) (l : list nat) (w : nat) : list nat :=
  match k with
  | 0 => l
  | S k' => remove_n k' (util_remove l w) w
  end.

(** How often [d] occurs in [l]. *)
Definition occurrences (d : nat) (l : list nat) : nat :=
  length (List.filter (fun x => bool_decide (x = d)) l).

(** [dep_steps s s']: [s'] is reached from [s] by calls of
    [dep.depend()] alone. *)
Inductive dep_steps : store -> store -> Prop :=
| dep_steps_refl s : dep_steps s s
| dep_steps_cons s d s' :
    dep_steps (store_of (Dep_depend d s)) s' -> dep_steps s s'.

(** A store transformer keeps a preorder [R] when its final store,
    returned or thrown with, is related to its initial one. *)
Definition preserves (R : store -> store -> Prop) {A : Type} (m : M A) : Prop :=
  forall s, R s (store_of (m s)).

(** The dependencies whose [depend()] a stretch of the trace records. *)
Definition touched (evs : list event) : list nat :=
  omap (fun e => match e with
                 | EvDepend d _ => Some d
                 | _ => None
                 end) evs.

(** What [addDep(d)] does to the watcher itself. *)
Definition collect (d : nat) (W : Watcher) : Watcher :=
  if bool_decide (d ∈ newDepIds W) then W
  else with_collected (newDeps W ++ [d]) ({[d]} ∪ newDepIds W) W.

Definition collect_all (ds : list nat) (W : Watcher) : Watcher :=
  foldl (fun W d => collect d W) W ds.

(** The events an evaluation of watcher [w] may log. *)
Definition eval_event (w : nat) (e : event) : Prop :=
  match e with
  | EvDepend _ t => t = Some w
  | EvHandleError _ _ _ => True
  | _ => False
  end.

(** The store [s] of a running evaluation of watcher [w], which started
    in [s0] (with [w] as the target and [W0] as its record) and has
    logged [evs] since. *)
Record collecting (w : nat) (W0 : Watcher) (s0 s : store) (evs : list event) : Prop := {
  col_cfg : cfg s = cfg s0;
  col_dep_uid : dep_uid s = dep_uid s0;
  col_watcher_uid : watcher_uid s = watcher_uid s0;
  col_target : target s = target s0;
  col_stack : targetStack s = targetStack s0;
  col_vms : vms s = vms s0;
  col_objs : objs s = objs s0;
  col_closures : closures s = closures s0;
  col_observers : observers s = observers s0;
  col_queue : queue s = queue s0;
  col_waiting : waiting s = waiting s0;
  col_trace : trace s = trace s0 ++ evs;
  col_events : Forall (eval_event w) evs;
  col_watchers : watchers s = <[w := collect_all (touched evs) W0]> (watchers s0);
  col_subs : forall d,
      subs_of s d
      = subs_of s0 d
        ++ (if decide (d ∈ touched evs /\ (d ∉ newDepIds W0) /\ d ∉ depIds W0)
            then [w] else [])
}.

(** Events that are calls of [depend()] with [w] as the target. *)
Definition depend_event (w : nat) (e : event) : Prop :=
  exists d, e = EvDepend d (Some w).

(** The dependencies of the old generation that [cleanupDeps] visits and
    finds absent from the new generation [ndi]. *)
Definition dropped (ndi : gset nat) (old : list nat) : list nat :=
  List.filter (fun x => negb (bool_decide (x ∈ ndi))) (reverse old).

(** The store [s'] left by an evaluation of watcher [w] (whose record
    was [W]) started in [s], with the events [evs] it logged. *)
Record evaluated (w : nat) (W : Watcher) (s s' : store) (evs : list event) : Prop := {
  evd_cfg : cfg s' = cfg s;
  evd_dep_uid : dep_uid s' = dep_uid s;
  evd_watcher_uid : watcher_uid s' = watcher_uid s;
  evd_vms : vms s' = vms s;
  evd_objs : objs s' = objs s;
  evd_closures : closures s' = closures s;
  evd_observers : observers s' = observers s;
  evd_queue : queue s' = queue s;
  evd_waiting : waiting s' = waiting s;
  evd_stack : targetStack s' = targetStack s;
  evd_target : target s' = default None (head (targetStack s));
  evd_trace : trace s' = trace s ++ evs;
  evd_events : Forall (eval_event w) evs;
  evd_watchers :
    watchers s'
    = <[w := with_generations
               (newDeps (collect_all (touched evs) W)) []
               (newDepIds (collect_all (touched evs) W)) ∅ W]> (watchers s);
  evd_subs : forall d,
      subs_of s' d
      = remove_n
          (occurrences d
             (dropped (newDepIds (collect_all (touched evs) W)) (deps W)))
          (subs_of s d
           ++ (if decide (d ∈ touched evs /\ (d ∉ newDepIds W) /\ d ∉ depIds W)
               then [w] else []))
          w
}.

(** The store in which [get] calls the evaluation function. *)
Definition pushed (w : nat) (s : store) : store :=
  with_target (Some w) (Some w :: targetStack s) s.

(** The watchers whose [update()] a stretch of the trace records, and the
    dependencies whose [notify()] it records, in order. *)
Definition updates (evs : list event) : list nat :=
  omap (fun e => match e with
                 | EvUpdate w => Some w
                 | _ => None
                 end) evs.

Definition notifies (evs : list event) : list nat :=
  omap (fun e => match e with
                 | EvNotify d => Some d
                 | _ => None
                 end) evs.

(** The part of the store that evaluations, callbacks and the scheduler
    queue do not touch, and the events logged meanwhile. *)
Record quiet_frame (s s' : store) (evs : list event) : Prop := {
  qf_cfg : cfg s' = cfg s;
  qf_dep_uid : dep_uid s' = dep_uid s;
  qf_watcher_uid : watcher_uid s' = watcher_uid s;
  qf_vms : vms s' = vms s;
  qf_objs : objs s' = objs s;
  qf_closures : closures s' = closures s;
  qf_observers : observers s' = observers s;
  qf_stack : targetStack s' = targetStack s;
  qf_trace : trace s' = trace s ++ evs
}.

Definition depend_any (e : event) : Prop := exists d t, e = EvDepend d t.

(** The store is the same but for the bookkeeping of [depend()]. *)
Record read_frame (s s' : store) (evs : list event) : Prop := {
  rf_cfg : cfg s' = cfg s;
  rf_dep_uid : dep_uid s' = dep_uid s;
  rf_watcher_uid : watcher_uid s' = watcher_uid s;
  rf_target : target s' = target s;
  rf_stack : targetStack s' = targetStack s;
  rf_vms : vms s' = vms s;
  rf_objs : objs s' = objs s;
  rf_closures : closures s' = closures s;
  rf_observers : observers s' = observers s;
  rf_queue : queue s' = queue s;
  rf_waiting : waiting s' = waiting s;
  rf_trace : trace s' = trace s ++ evs;
  rf_events : Forall depend_any evs;
  rf_idle : target s = None -> watchers s' = watchers s /\ subs s' = subs s
}.

(** The store has grown: nothing that was allocated is gone, an object
    keeps its class and the observer it carries, an observer keeps the
    object and the dependency it was made with. *)
Record obs_mono (s s' : store) : Prop := {
  om_cfg : cfg s' = cfg s;
  om_watcher_uid : watcher_uid s' = watcher_uid s;
  om_target : target s' = target s;
  om_stack : targetStack s' = targetStack s;
  om_vms : vms s' = vms s;
  om_queue : queue s' = queue s;
  om_waiting : waiting s' = waiting s;
  om_closures : forall c C, closures s !! c = Some C -> closures s' !! c = Some C;
  om_observers : forall o r,
      observers s !! o = Some r ->
      exists r', observers s' !! o = Some r'
                 /\ ob_value r' = ob_value r /\ ob_dep r' = ob_dep r;
  om_objs : forall l x,
      objs s !! l = Some x ->
      exists x', objs s' !! l = Some x'
                 /\ cls x' = cls x
                 /\ (forall o, ob x = Some o -> ob x' = Some o);
  om_trace : exists evs, trace s' = trace s ++ evs /\ Forall depend_any evs
}.


(** [Dep.target] is the top of [targetStack], or nothing when the stack
    is empty: what [pushTarget] and [popTarget] maintain. *)
Definition stack_top_is_target (s : store) : Prop :=
  target s = default None (head (targetStack s)).

(** The target and its stack are what they were. *)
Definition target_kept (s s' : store) : Prop :=
  target s' = target s /\ targetStack s' = targetStack s.

(** What the engine does to a store that keeps the discipline of
    [pushTarget] and [popTarget]. *)
Definition keeps_target (s s' : store) : Prop :=
  stack_top_is_target s -> target_kept s s'.

(** The trace has only grown. *)
Definition trace_extends (s s' : store) : Prop :=
  exists evs, trace s' = trace s ++ evs.

(** Every object that carries an observer is exactly what it was, but
    possibly for the object [skip]. *)
Definition kept_except (skip : option nat) (s s' : store) : Prop :=
  forall l x, skip ≠ Some l ->
    objs s !! l = Some x -> is_Some (ob x) -> objs s' !! l = Some x.

(** Every observer is exactly what it was. *)
Definition observers_kept (s s' : store) : Prop :=
  forall o r, observers s !! o = Some r -> observers s' !! o = Some r.

(** The element at index [i] of an array whose indices are plain data:
    the value stored there, [undefined] at a hole. *)
Definition element (A : Obj) (i : nat) : option jsval :=
  match lookup_prop (KIndex i) (props A) with
  | Some (PData v _ _ _) => Some v
  | Some (PAccessor _ _ _) => None
  | None => Some VUndef
  end.

(** The two keys that are fields of [Obj] and not entries of [props]: the
    marker [__ob__], which only the [Observer] constructor writes, and the
    flag [_isVue].  What is said below of [set] and [del] at a key the
    caller chooses is said of the other keys. *)
Definition field_key (k : pkey) : bool :=
  bool_decide (k = KName "__ob__") || bool_decide (k = KName "_isVue").

(** [notify()] of dependency [d] runs no subscriber: each one is lazy, and
    is only marked dirty, or is not synchronous, and is only queued.  No
    evaluation function and no callback is called then. *)
Definition no_sync_subscriber (d : nat) (s : store) : Prop :=
  forall w, w ∈ subs_of s d ->
    exists W, watchers s !! w = Some W /\ (lazy W = true \/ sync W = false).

(** The last statement of [run()], once the new value is cached:
    [this.cb.call(this.vm, value, oldValue)], inside a [try] whose [catch]
    calls [handleError] when the watcher is user-facing. *)
Definition call_back (w : nat) (W : Watcher) (newv oldv : jsval) : M unit :=
  if user W
  then fun s => match call_cb w W newv oldv s with
                | Ok a s' => Ok a s'
                | Thrown err s' => handleError err (vm W) (callback_info W) s'
                end
  else call_cb w W newv oldv.

(** Watcher [w] is between two runs and the subscriber lists agree with
    its [deps]: the collecting generation is empty, [depIds] is the set of
    [deps], no subscriber list repeats a watcher, and [w] is in the list of
    a dependency exactly when it holds that dependency. *)
Definition subscribed (w : nat) (s : store) : Prop :=
  exists W,
    watchers s !! w = Some W
    /\ newDeps W = [] /\ newDepIds W = ∅
    /\ depIds W = list_to_set (deps W)
    /\ NoDup (deps W)
    /\ forall d, NoDup (subs_of s d) /\ (w ∈ subs_of s d <-> d ∈ deps W).

(** * Properties *)

(** ** Lists of subscribers *)

Lemma util_remove_absent (l : list nat) (w : nat) :
  w ∉ l -> util_remove l w = l.
Proof.
  induction l as [|x l IH]; simpl; intros H; [done|].
  destruct (decide (x = w)) as [->|Hne].
  - exfalso. apply H. left.
  - f_equal. apply IH. intros Hin. apply H. by right.
Qed.

Lemma util_remove_subseteq (l : list nat) (w x : nat) :
  x ∈ util_remove l w -> x ∈ l.
Proof.
  induction l as [|y l IH]; simpl; [done|].
  destruct (decide (y = w)); intros H.
  - by right.
  - apply elem_of_cons in H as [->|H]; [left | right; auto].
Qed.

Lemma util_remove_other (l : list nat) (w x : nat) :
  x ≠ w -> x ∈ l -> x ∈ util_remove l w.
Proof.
  intros Hne. induction l as [|y l IH]; simpl; [done|].
  intros H. apply elem_of_cons in H as [->|H].
  - destruct (decide (y = w)); [done | left].
  - destruct (decide (y = w)); [done | right; auto].
Qed.

Lemma util_remove_NoDup (l : list nat) (w : nat) :
  NoDup l -> NoDup (util_remove l w) /\ w ∉ util_remove l w.
Proof.
  induction 1 as [|x l Hx Hl IH]; simpl.
  - split; [constructor | apply not_elem_of_nil].
  - destruct (decide (x = w)) as [->|Hne].
    + done.
    + destruct IH as [IH1 IH2]. split.
      * constructor; [|done]. intros Hin. apply Hx.
        by eapply util_remove_subseteq.
      * intros Hin. apply elem_of_cons in Hin as [->|Hin]; done.
Qed.

Lemma remove_n_absent (k : nat) (l : list nat) (w : nat) :
  w ∉ l -> remove_n k l w = l.
Proof.
  revert l. induction k as [|k IH]; simpl; intros l H; [done|].
  rewrite util_remove_absent by done. by apply IH.
Qed.

Lemma remove_n_NoDup (k : nat) (l : list nat) (w : nat) :
  NoDup l -> 0 < k -> remove_n k l w = util_remove l w.
Proof.
  intros Hl Hk. destruct k as [|k]; [lia|]. simpl.
  apply remove_n_absent. by apply util_remove_NoDup.
Qed.

Lemma remove_n_subseteq (k : nat) (l : list nat) (w x : nat) :
  x ∈ remove_n k l w -> x ∈ l.
Proof.
  revert l. induction k as [|k IH]; simpl; intros l H; [done|].
  eapply util_remove_subseteq. by apply IH.
Qed.

Lemma occurrences_pos (d : nat) (l : list nat) :
  d ∈ l -> 0 < occurrences d l.
Proof.
  unfold occurrences. induction l as [|x l IH]; intros H.
  - by apply elem_of_nil in H.
  - simpl. apply elem_of_cons in H as [->|H].
    + rewrite bool_decide_eq_true_2 by done. simpl. lia.
    + destruct (bool_decide (x = d)); simpl; [lia | auto].
Qed.

Lemma occurrences_zero (d : nat) (l : list nat) :
  d ∉ l -> occurrences d l = 0.
Proof.
  unfold occurrences. induction l as [|x l IH]; intros H; [done|].
  simpl. rewrite bool_decide_eq_false_2.
  - apply IH. intros Hin. apply H. by right.
  - intros ->. apply H. left.
Qed.

(** ** The monad *)

Lemma bind_Ok {A B} (m : M A) (k : A -> M B) s a s' :
  m s = Ok a s' -> (x <- m ;; k x) s = k a s'.
Proof. unfold bind. by intros ->. Qed.

Lemma bind_Thrown {A B} (m : M A) (k : A -> M B) s e s' :
  m s = Thrown e s' -> (x <- m ;; k x) s = Thrown e s'.
Proof. unfold bind. by intros ->. Qed.

Lemma the_watcher_Ok w W s :
  watchers s !! w = Some W -> the_watcher w s = Ok W s.
Proof. unfold the_watcher. by intros ->. Qed.

Lemma for_each_app {A} (body : A -> M unit) (l1 l2 : list A) s :
  for_each body (l1 ++ l2) s = (for_each body l1 ;;; for_each body l2) s.
Proof.
  revert s. induction l1 as [|x l1 IH]; intros s; simpl.
  - reflexivity.
  - unfold bind in *. destruct (body x s) as [[] s1|e s1]; [|done].
    apply IH.
Qed.

(** ** Removing a subscriber from a list of dependencies *)

Lemma subs_of_with_subs m s d :
  subs_of (with_subs m s) d = default [] (m !! d).
Proof. reflexivity. Qed.

Lemma removeSub_pass (keep : nat -> bool) (w : nat) (L : list nat) s :
  exists m,
    for_each (fun d => if keep d then ret tt else Dep_removeSub d w) L s
      = Ok tt (with_subs m s)
    /\ forall d,
        default [] (m !! d)
        = remove_n (occurrences d (List.filter (fun x => negb (keep x)) L))
            (subs_of s d) w.
Proof.
  revert s. induction L as [|x L IH]; intros s.
  - exists (subs s). split; [by destruct s|]. intros d. reflexivity.
  - simpl. destruct (keep x) eqn:Hk; simpl.
    + unfold bind, ret. apply IH.
    + rewrite (bind_Ok _ _ s tt
                 (with_subs (<[x:=util_remove (subs_of s x) w]> (subs s)) s))
        by reflexivity.
      destruct (IH (with_subs (<[x:=util_remove (subs_of s x) w]> (subs s)) s))
        as (m & Hm & Hsubs).
      exists m. split; [rewrite Hm; by destruct s|].
      intros d. rewrite Hsubs. unfold occurrences. simpl.
      rewrite subs_of_with_subs.
      destruct (decide (x = d)) as [->|Hne].
      * rewrite bool_decide_eq_true_2 by done. simpl.
        by rewrite lookup_insert_eq.
      * rewrite bool_decide_eq_false_2 by done.
        by rewrite lookup_insert_ne.
Qed.

(** ** [teardown] *)

Lemma filter_all_true (L : list nat) :
  List.filter (fun x => negb ((fun _ : nat => false) x)) L = L.
Proof. induction L as [|x L IH]; simpl; [done | f_equal; exact IH]. Qed.

(** C8: the first [teardown()] of an active watcher takes it out of the
    subscriber list of every dependency it holds (and of no other list,
    leaving the other subscribers in place) and clears [active]; a second
    [teardown()] returns without throwing and leaves the store as it is. *)
Theorem teardown_idempotent (w : nat) (W : Watcher) (V : Component) (s : store) :
  watchers s !! w = Some W ->
  active W = true ->
  vms s !! vm W = Some V ->
  Forall (fun d => NoDup (subs_of s d)) (deps W) ->
  exists s',
    Watcher_teardown w s = Ok tt s'
    /\ (forall d, d ∈ deps W -> w ∉ subs_of s' d)
    /\ (forall d x, x ≠ w -> x ∈ subs_of s' d <-> x ∈ subs_of s d)
    /\ (forall d, d ∉ deps W -> subs_of s' d = subs_of s d)
    /\ watchers s' !! w = Some (with_active false W)
    /\ Watcher_teardown w s' = Ok tt s'.
Proof.
  intros Hw Hact Hvm Hnd.
  unfold Watcher_teardown.
  rewrite (bind_Ok _ _ s W s) by (by apply the_watcher_Ok).
  rewrite Hact.
  rewrite (bind_Ok _ _ s V s) by (unfold the_vm; by rewrite Hvm).
  set (s1 := if negb (_isBeingDestroyed V)
             then with_vms (<[vm W := mkComponent (_watcher V)
                                        (util_remove (_watchers V) w)
                                        (_isBeingDestroyed V)]> (vms s)) s
             else s).
  assert (Hs1w : watchers s1 = watchers s)
    by (unfold s1; by destruct (negb _)).
  assert (Hs1s : forall d, subs_of s1 d = subs_of s d)
    by (intros d; unfold s1; by destruct (negb _)).
  rewrite (bind_Ok _ _ s tt s1)
    by (unfold s1; destruct (negb _); reflexivity).
  destruct (removeSub_pass (fun _ => false) w (reverse (deps W)) s1)
    as (m & Hm & Hsubs).
  simpl in Hm. rewrite (bind_Ok _ _ s1 tt (with_subs m s1)) by exact Hm.
  rewrite (bind_Ok _ _ _ W (with_subs m s1))
    by (apply the_watcher_Ok; simpl; by rewrite Hs1w).
  eexists. split; [reflexivity|].
  assert (Hsub : forall d,
             subs_of (with_subs m s1) d
             = remove_n (occurrences d (reverse (deps W))) (subs_of s d) w).
  { intros d. rewrite subs_of_with_subs, Hsubs, filter_all_true.
    by rewrite Hs1s. }
  split; [|split; [|split; [|split]]].
  - intros d Hd. change (w ∉ subs_of (with_subs m s1) d). rewrite Hsub.
    rewrite remove_n_NoDup.
    + apply util_remove_NoDup. by eapply Forall_forall in Hnd.
    + by eapply Forall_forall in Hnd.
    + apply occurrences_pos. by apply elem_of_reverse.
  - intros d x Hx. change (x ∈ subs_of (with_subs m s1) d <-> x ∈ subs_of s d).
    rewrite Hsub. split; [apply remove_n_subseteq|].
    generalize (occurrences d (reverse (deps W))). intros k.
    generalize (subs_of s d). induction k as [|k IH]; simpl; intros l Hl; [done|].
    apply IH. by apply util_remove_other.
  - intros d Hd. change (subs_of (with_subs m s1) d = subs_of s d).
    rewrite Hsub, occurrences_zero; [done|].
    intros H. apply Hd. by apply elem_of_reverse.
  - simpl. by rewrite lookup_insert_eq.
  - unfold bind, the_watcher. simpl. by rewrite lookup_insert_eq.
Qed.

(** ** Reading only registers dependencies *)

Lemma dep_steps_trans s1 s2 s3 :
  dep_steps s1 s2 -> dep_steps s2 s3 -> dep_steps s1 s3.
Proof.
  induction 1 as [|s d s' _ IH]; [done|].
  intros H. eapply dep_steps_cons. by apply IH.
Qed.

Section Preserves.
Variable R : store -> store -> Prop.
Hypothesis R_refl : forall s, R s s.
Hypothesis R_trans : forall s1 s2 s3, R s1 s2 -> R s2 s3 -> R s1 s3.

Lemma preserves_ret {A} (a : A) : preserves R (ret a).
Proof. intros s. apply R_refl. Qed.

Lemma preserves_throw {A} (e : exn) : preserves R (@throw A e).
Proof. intros s. apply R_refl. Qed.

Lemma preserves_bind {A B} (m : M A) (k : A -> M B) :
  preserves R m -> (forall a, preserves R (k a)) -> preserves R (x <- m ;; k x).
Proof.
  intros Hm Hk s. unfold bind. specialize (Hm s).
  destruct (m s) as [a s1|e s1]; simpl in *; [|done].
  eapply R_trans; [exact Hm | apply Hk].
Qed.

Lemma preserves_for_each {A} (body : A -> M unit) (l : list A) :
  (forall x, preserves R (body x)) -> preserves R (for_each body l).
Proof.
  intros Hb. induction l as [|x l IH]; simpl.
  - apply preserves_ret.
  - apply preserves_bind; [apply Hb | intros _; apply IH].
Qed.

Lemma preserves_the_obj o : preserves R (the_obj o).
Proof. intros s. unfold the_obj. destruct (objs s !! o); apply R_refl. Qed.

Lemma preserves_the_observer o : preserves R (the_observer o).
Proof.
  intros s. unfold the_observer. destruct (observers s !! o); apply R_refl.
Qed.

Lemma preserves_the_closure c : preserves R (the_closure c).
Proof.
  intros s. unfold the_closure. destruct (closures s !! c); apply R_refl.
Qed.

Lemma preserves_the_watcher w : preserves R (the_watcher w).
Proof.
  intros s. unfold the_watcher. destruct (watchers s !! w); apply R_refl.
Qed.

Lemma preserves_the_vm v : preserves R (the_vm v).
Proof. intros s. unfold the_vm. destruct (vms s !! v); apply R_refl. Qed.

(** A transformer chosen by looking at the store. *)
Lemma preserves_peek {A} (f : store -> M A) :
  (forall s0, preserves R (f s0)) -> preserves R (fun s => f s s).
Proof. intros H s. apply H. Qed.

Lemma preserves_prop_get_with (call : nat -> M jsval) o k :
  (forall c, preserves R (call c)) -> preserves R (prop_get_with call o k).
Proof.
  intros Hc. unfold prop_get_with.
  apply preserves_bind; [apply preserves_the_obj|]. intros x.
  destruct (lookup_prop k (props x)) as [[v ? ? ?|c ? ?]|].
  - apply preserves_ret.
  - apply Hc.
  - destruct (_ && _); apply preserves_ret.
Qed.
End Preserves.

Lemma dep_steps_depend d : preserves dep_steps (Dep_depend d).
Proof. intros s. eapply dep_steps_cons, dep_steps_refl. Qed.

Section ReadsSteps.
Variable rec_getter : nat -> M jsval.
Variable rec_dependArray : nat -> M unit.
Hypothesis rec_getter_steps : forall c, preserves dep_steps (rec_getter c).
Hypothesis rec_dependArray_steps :
  forall a, preserves dep_steps (rec_dependArray a).

Let P {A} (m : M A) := preserves dep_steps m.
Let Pbind {A B} := @preserves_bind dep_steps dep_steps_trans A B.
Let Pret {A} := @preserves_ret dep_steps dep_steps_refl A.

Lemma reactiveGetter_steps val dep childOb getter :
  P (reactiveGetter rec_getter rec_dependArray val dep childOb getter).
Proof.
  unfold reactiveGetter. apply Pbind.
  { destruct getter; [apply rec_getter_steps | apply Pret]. }
  intros value. apply Pbind; [|intros _; apply Pret].
  intros s. destruct (target s); [|apply dep_steps_refl].
  apply (Pbind (Dep_depend dep)); [apply dep_steps_depend|]. intros _.
  destruct childOb as [o|]; [|apply Pret].
  apply Pbind; [apply preserves_the_observer, dep_steps_refl|]. intros obs.
  apply Pbind; [apply dep_steps_depend|]. intros _.
  intros s'. destruct value; try apply dep_steps_refl.
  destruct (is_array _ _); [apply rec_dependArray_steps | apply dep_steps_refl].
Qed.

Lemma call_getter_body_steps c :
  P (call_getter_body rec_getter rec_dependArray c).
Proof.
  unfold call_getter_body.
  apply Pbind; [apply preserves_the_closure, dep_steps_refl|].
  intros [st [g|] u|val dep childOb cs sh getter setter];
    [apply Pret | apply Pret | apply reactiveGetter_steps].
Qed.

Lemma dependArray_body_steps a :
  P (dependArray_body rec_getter rec_dependArray a).
Proof.
  unfold dependArray_body.
  apply Pbind; [apply preserves_the_obj, dep_steps_refl|]. intros x.
  apply preserves_for_each; [apply dep_steps_refl | apply dep_steps_trans|].
  intros i. apply Pbind.
  { apply preserves_prop_get_with;
      [exact dep_steps_refl | exact dep_steps_trans | apply rec_getter_steps]. }
  intros e. apply Pbind.
  - intros s. destruct (if truthy e then ob_of e s else None) as [o|];
      [|apply dep_steps_refl].
    apply (Pbind (the_observer o));
      [apply preserves_the_observer, dep_steps_refl|].
    intros obs. apply dep_steps_depend.
  - intros _ s. destruct e; try apply dep_steps_refl.
    destruct (is_array _ _);
      [apply rec_dependArray_steps | apply dep_steps_refl].
Qed.
End ReadsSteps.

Lemma reads_steps (n : nat) :
  (forall c, preserves dep_steps (call_getter n c))
  /\ (forall a, preserves dep_steps (dependArray n a)).
Proof.
  induction n as [|n [IHg IHd]]; simpl.
  - split; intros x.
    + apply call_getter_body_steps; intros ? ?; apply dep_steps_refl.
    + apply dependArray_body_steps; intros ? ?; apply dep_steps_refl.
  - split; intros x.
    + by apply call_getter_body_steps.
    + by apply dependArray_body_steps.
Qed.

Lemma prop_get_steps n o k : preserves dep_steps (prop_get n o k).
Proof.
  apply preserves_prop_get_with;
    [exact dep_steps_refl | exact dep_steps_trans | apply reads_steps].
Qed.

Lemma run_prog_steps n p : preserves dep_steps (run_prog n p).
Proof.
  induction p as [v|e|o k cont IH]; simpl.
  - intros s. apply dep_steps_refl.
  - intros s. apply dep_steps_refl.
  - apply preserves_bind; [apply dep_steps_trans | apply prop_get_steps | apply IH].
Qed.

(** ** Collecting dependencies during an evaluation *)

Lemma touched_app evs1 evs2 : touched (evs1 ++ evs2) = touched evs1 ++ touched evs2.
Proof. unfold touched. apply omap_app. Qed.

Lemma collect_all_snoc ds d W :
  collect_all (ds ++ [d]) W = collect d (collect_all ds W).
Proof. unfold collect_all. by rewrite foldl_app. Qed.

Lemma collect_depIds d W : depIds (collect d W) = depIds W.
Proof. unfold collect. by destruct (bool_decide _). Qed.

Lemma collect_all_depIds ds W : depIds (collect_all ds W) = depIds W.
Proof.
  induction ds as [|d ds IH] using rev_ind; [done|].
  by rewrite collect_all_snoc, collect_depIds.
Qed.

Lemma collect_all_newDepIds ds W :
  newDepIds (collect_all ds W) = newDepIds W ∪ list_to_set ds.
Proof.
  induction ds as [|d ds IH] using rev_ind.
  - simpl. set_solver.
  - rewrite collect_all_snoc. unfold collect.
    destruct (bool_decide _) eqn:Hd.
    + apply bool_decide_eq_true in Hd. rewrite IH in *.
      rewrite list_to_set_app_L. set_solver.
    + simpl. rewrite IH, list_to_set_app_L. set_solver.
Qed.

Lemma collect_all_newDeps ds W d :
  d ∈ newDeps (collect_all ds W)
  <-> d ∈ newDeps W \/ (d ∈ ds /\ d ∉ newDepIds W).
Proof.
  induction ds as [|x ds IH] using rev_ind.
  - simpl. split; [by left | intros [H|[H _]]; [done | by apply elem_of_nil in H]].
  - rewrite collect_all_snoc. unfold collect.
    destruct (bool_decide _) eqn:Hx.
    + apply bool_decide_eq_true in Hx.
      rewrite collect_all_newDepIds in Hx. rewrite IH.
      split; [set_solver|]. intros [H|[H1 H2]]; [by left|].
      apply elem_of_app in H1 as [H1|H1]; [right; done|].
      apply list_elem_of_singleton in H1 as ->.
      apply elem_of_union in Hx as [Hx|Hx]; [done|].
      apply elem_of_list_to_set in Hx. by right.
    + apply bool_decide_eq_false in Hx.
      rewrite collect_all_newDepIds in Hx. simpl.
      rewrite elem_of_app, IH, list_elem_of_singleton.
      split.
      * intros [[H|[H1 H2]]| ->]; [by left | right; set_solver |].
        right. split; [set_solver|]. set_solver.
      * intros [H|[H1 H2]]; [left; by left|].
        apply elem_of_app in H1 as [H1|H1]; [left; right; done|].
        apply list_elem_of_singleton in H1. by right.
Qed.

Lemma collect_all_NoDup ds W :
  NoDup (newDeps W) ->
  (forall d, d ∈ newDeps W -> d ∈ newDepIds W) ->
  NoDup (newDeps (collect_all ds W)).
Proof.
  intros Hnd Hin. induction ds as [|x ds IH] using rev_ind; [done|].
  rewrite collect_all_snoc. unfold collect.
  destruct (bool_decide _) eqn:Hx; [done|].
  apply bool_decide_eq_false in Hx. rewrite collect_all_newDepIds in Hx.
  simpl. apply NoDup_app. split; [done|]. split; [|apply NoDup_singleton].
  intros d Hd Hd'. apply list_elem_of_singleton in Hd' as ->.
  apply collect_all_newDeps in Hd as [Hd|[Hd _]]; set_solver.
Qed.

Lemma collect_all_frame ds W :
  collect_all ds W
  = with_collected (newDeps (collect_all ds W)) (newDepIds (collect_all ds W)) W.
Proof.
  induction ds as [|x ds IH] using rev_ind.
  - by destruct W.
  - rewrite collect_all_snoc. unfold collect.
    destruct (bool_decide _); [done|]. simpl.
    remember (collect_all ds W) as C eqn:HC. clear HC.
    destruct C, W. unfold with_collected in *. simpl in *.
  injection IH as -> -> -> -> -> -> -> -> -> -> -> -> ->. reflexivity.
Qed.

Lemma collecting_refl w W0 s0 :
  watchers s0 !! w = Some W0 -> collecting w W0 s0 s0 [].
Proof.
  intros Hw. split; try done.
  - by rewrite app_nil_r.
  - simpl. by rewrite insert_id.
  - intros d. rewrite decide_False; [by rewrite app_nil_r|].
    intros [H _]. by apply elem_of_nil in H.
Qed.

Lemma collecting_log w W0 s0 s evs e :
  collecting w W0 s0 s evs ->
  eval_event w e -> touched [e] = [] ->
  collecting w W0 s0 (log e s) (evs ++ [e]).
Proof.
  intros [] He Ht. split; simpl; try done.
  - rewrite col_trace0. by rewrite app_assoc.
  - apply Forall_app. split; [done|]. by constructor.
  - by rewrite touched_app, Ht, app_nil_r.
  - intros d. rewrite touched_app, Ht, app_nil_r. apply col_subs0.
Qed.

Lemma collecting_depend w W0 s0 s evs d :
  target s0 = Some w ->
  collecting w W0 s0 s evs ->
  exists s', Dep_depend d s = Ok tt s'
             /\ collecting w W0 s0 s' (evs ++ [EvDepend d (Some w)]).
Proof.
  intros Ht [].
  assert (Htg : target s = Some w) by congruence.
  set (Wc := collect_all (touched evs) W0).
  assert (Hw : watchers s !! w = Some Wc)
    by (rewrite col_watchers0; apply lookup_insert_eq).
  assert (HN : newDepIds Wc = newDepIds W0 ∪ list_to_set (touched evs))
    by apply collect_all_newDepIds.
  assert (HD : depIds Wc = depIds W0) by apply collect_all_depIds.
  assert (Htouched : touched (evs ++ [EvDepend d (Some w)]) = touched evs ++ [d])
    by (by rewrite touched_app).
  assert (Hev : Forall (eval_event w) (evs ++ [EvDepend d (Some w)])).
  { apply Forall_app. split; [done|]. by constructor. }
  unfold Dep_depend. rewrite Htg. unfold Watcher_addDep.
  rewrite (bind_Ok _ _ _ Wc (log (EvDepend d (Some w)) s))
    by (by apply the_watcher_Ok).
  destruct (bool_decide (d ∈ newDepIds Wc)) eqn:Hd.
  - apply bool_decide_eq_true in Hd.
    eexists. split; [reflexivity|].
    split; simpl; try done.
    + rewrite col_trace0. by rewrite app_assoc.
    + rewrite Htouched, collect_all_snoc. fold Wc. unfold collect.
      by rewrite bool_decide_eq_true_2.
    + intros d'. rewrite Htouched.
      change (subs_of (log (EvDepend d (Some w)) s) d') with (subs_of s d').
      rewrite col_subs0. f_equal.
      rewrite HN in Hd.
      destruct (decide (d' ∈ touched evs /\ (d' ∉ newDepIds W0) /\ d' ∉ depIds W0))
        as [H1|H1].
      * rewrite decide_True; [done|]. set_solver.
      * rewrite decide_False; [done|]. intros (H2 & H3 & H4). apply H1.
        split; [|done]. apply elem_of_app in H2 as [H2|H2]; [done|].
        apply list_elem_of_singleton in H2 as ->. set_solver.
  - apply bool_decide_eq_false in Hd.
    unfold set_watcher.
    rewrite (bind_Ok _ _ _ tt
               (with_watchers (<[w := with_collected (newDeps Wc ++ [d])
                                        ({[d]} ∪ newDepIds Wc) Wc]>
                                 (watchers s))
                  (log (EvDepend d (Some w)) s))) by reflexivity.
    assert (Hws : <[w := with_collected (newDeps Wc ++ [d]) ({[d]} ∪ newDepIds Wc) Wc]>
                    (watchers s)
                  = <[w := collect_all (touched (evs ++ [EvDepend d (Some w)])) W0]>
                      (watchers s0)).
    { rewrite Htouched, collect_all_snoc. fold Wc. unfold collect.
      rewrite bool_decide_eq_false_2 by done.
      by rewrite col_watchers0, insert_insert_eq. }
    rewrite HN in Hd.
    destruct (bool_decide (d ∈ depIds Wc)) eqn:Hdd.
    + apply bool_decide_eq_true in Hdd. rewrite HD in Hdd.
      eexists. split; [reflexivity|].
      split; simpl; try done.
      * rewrite col_trace0. by rewrite app_assoc.
      * intros d'. rewrite Htouched.
        match goal with |- subs_of ?x d' = _ => change (subs_of x d') with (subs_of s d') end.
        rewrite col_subs0. f_equal.
        destruct (decide (d' ∈ touched evs /\ (d' ∉ newDepIds W0) /\ d' ∉ depIds W0))
          as [H1|H1].
        -- rewrite decide_True; [done|]. set_solver.
        -- rewrite decide_False; [done|]. intros (H2 & H3 & H4). apply H1.
           split; [|done]. apply elem_of_app in H2 as [H2|H2]; [done|].
           apply list_elem_of_singleton in H2 as ->. done.
    + apply bool_decide_eq_false in Hdd. rewrite HD in Hdd.
      eexists. split; [reflexivity|].
      split; simpl; try done.
      * rewrite col_trace0. by rewrite app_assoc.
      * intros d'. rewrite Htouched. unfold subs_of at 1. simpl.
        destruct (decide (d = d')) as [<-|Hne].
        -- rewrite lookup_insert_eq. simpl.
           match goal with |- subs_of ?x d ++ _ = _ => change (subs_of x d) with (subs_of s d) end.
           rewrite col_subs0.
           rewrite decide_False by set_solver.
           rewrite decide_True; [by rewrite app_nil_r|].
           set_solver.
        -- rewrite lookup_insert_ne by done.
           change (default [] (subs s !! d')) with (subs_of s d').
           rewrite col_subs0. f_equal.
           destruct (decide (d' ∈ touched evs /\ (d' ∉ newDepIds W0) /\ d' ∉ depIds W0))
             as [H1|H1].
           ++ rewrite decide_True; [done|]. set_solver.
           ++ rewrite decide_False; [done|]. intros (H2 & H3 & H4). apply H1.
              split; [|done]. apply elem_of_app in H2 as [H2|H2]; [done|].
              apply list_elem_of_singleton in H2. congruence.
Qed.

Lemma collecting_steps w W0 s0 s evs s' :
  target s0 = Some w ->
  collecting w W0 s0 s evs ->
  dep_steps s s' ->
  exists evs', collecting w W0 s0 s' (evs ++ evs')
               /\ Forall (depend_event w) evs'.
Proof.
  intros Ht Hc Hsteps. revert evs Hc.
  induction Hsteps as [s|s d s' _ IH]; intros evs Hc.
  - exists []. rewrite app_nil_r. split; [done | constructor].
  - destruct (collecting_depend w W0 s0 s evs d Ht Hc) as (s1 & Hs1 & Hc1).
    rewrite Hs1 in IH. destruct (IH _ Hc1) as (evs' & Hc' & Hev).
    exists (EvDepend d (Some w) :: evs').
    rewrite <- app_assoc in Hc'. split; [done|].
    constructor; [by exists d | done].
Qed.

(** ** [cleanupDeps] and [get] *)

Lemma cleanupDeps_spec w W s :
  watchers s !! w = Some W ->
  exists m,
    Watcher_cleanupDeps w s
    = Ok tt (with_watchers
               (<[w := with_generations (newDeps W) [] (newDepIds W) ∅ W]>
                  (watchers s))
               (with_subs m s))
    /\ forall d,
        default [] (m !! d)
        = remove_n (occurrences d (dropped (newDepIds W) (deps W)))
            (subs_of s d) w.
Proof.
  intros Hw. unfold Watcher_cleanupDeps.
  rewrite (bind_Ok _ _ s W s) by (by apply the_watcher_Ok).
  destruct (removeSub_pass (fun d => bool_decide (d ∈ newDepIds W)) w
              (reverse (deps W)) s) as (m & Hm & Hsubs).
  rewrite (bind_Ok _ _ s tt (with_subs m s)) by exact Hm.
  rewrite (bind_Ok _ _ _ W (with_subs m s)) by (by apply the_watcher_Ok).
  exists m. split; [reflexivity | exact Hsubs].
Qed.

Lemma collecting_depends w W0 s0 s evs ds :
  target s0 = Some w ->
  collecting w W0 s0 s evs ->
  exists s' evs',
    for_each Dep_depend ds s = Ok tt s'
    /\ collecting w W0 s0 s' (evs ++ evs')
    /\ Forall (depend_event w) evs'.
Proof.
  intros Ht. revert s evs. induction ds as [|d ds IH]; intros s evs Hc.
  - exists s, []. split; [done|]. rewrite app_nil_r. split; [done | constructor].
  - destruct (collecting_depend w W0 s0 s evs d Ht Hc) as (s1 & Hs1 & Hc1).
    destruct (IH _ _ Hc1) as (s2 & evs2 & Hs2 & Hc2 & Hev).
    exists s2, (EvDepend d (Some w) :: evs2). split; [|split].
    + simpl. by rewrite (bind_Ok _ _ s tt s1).
    + by rewrite <- app_assoc in Hc2.
    + constructor; [by exists d | done].
Qed.

Lemma collecting_evaluated w W s s2 evs m :
  collecting w W (pushed w s) s2 evs ->
  (forall d,
      default [] (m !! d)
      = remove_n
          (occurrences d
             (dropped (newDepIds (collect_all (touched evs) W))
                (deps (collect_all (touched evs) W))))
          (subs_of s2 d) w) ->
  evaluated w W s
    (with_watchers
       (<[w := with_generations
                 (newDeps (collect_all (touched evs) W)) []
                 (newDepIds (collect_all (touched evs) W)) ∅
                 (collect_all (touched evs) W)]>
          (watchers s2))
       (with_subs m
          (with_target (default None (head (tail (targetStack s2))))
             (tail (targetStack s2)) s2)))
    evs.
Proof.
  intros [] Hm.
  assert (Hdeps : deps (collect_all (touched evs) W) = deps W)
    by (rewrite collect_all_frame; reflexivity).
  split; simpl; try done.
  - by rewrite col_stack0.
  - by rewrite col_stack0.
  - rewrite col_watchers0. simpl. rewrite insert_insert_eq. f_equal.
    pose proof (collect_all_frame (touched evs) W) as HF.
    remember (collect_all (touched evs) W) as C eqn:HC. clear HC.
    rewrite HF. reflexivity.
  - intros d. unfold subs_of at 1. simpl. rewrite Hm, Hdeps.
    by rewrite col_subs0.
Qed.

Lemma Watcher_get_spec n w W s :
  watchers s !! w = Some W ->
  exists evs s',
    evaluated w W s s' evs
    /\ match run_prog n (getter W) (pushed w s) with
       | Ok v _ =>
           Watcher_get n w s = Ok v s' /\ Forall (depend_event w) evs
       | Thrown e _ =>
           if user W
           then Watcher_get n w s = Ok VUndef s'
                /\ EvHandleError e (vm W)
                     (getter_info W)
                   ∈ evs
           else Watcher_get n w s = Thrown e s'
                /\ Forall (depend_event w) evs
       end.
Proof.
  intros Hw. unfold Watcher_get.
  rewrite (bind_Ok _ _ s W s) by (by apply the_watcher_Ok).
  rewrite (bind_Ok _ _ s tt (pushed w s)) by reflexivity.
  assert (Ht : target (pushed w s) = Some w) by reflexivity.
  assert (Hc0 : collecting w W (pushed w s) (pushed w s) [])
    by (by apply collecting_refl).
  pose proof (run_prog_steps n (getter W) (pushed w s)) as Hsteps.
  destruct (collecting_steps _ _ _ _ _ _ Ht Hc0 Hsteps) as (evs1 & Hc1 & Hev1).
  simpl in Hc1.
  (* the store and the value the [finally] block starts from *)
  set (attempt := match run_prog n (getter W) (pushed w s) with
                  | Ok v s1 => Ok v s1
                  | Thrown e s1 =>
                      if user W
                      then (handleError e (vm W)
                              (getter_info W) ;;;
                            ret VUndef) s1
                      else Thrown e s1
                  end).
  set (value := match attempt with Ok v _ => v | Thrown _ _ => VUndef end).
  assert (Hatt : exists evs2, collecting w W (pushed w s) (store_of attempt)
                                (evs1 ++ evs2)
                   /\ match run_prog n (getter W) (pushed w s) with
                      | Thrown e _ =>
                          if user W
                          then evs2 = [EvHandleError e (vm W)
                                         (getter_info W)]
                          else evs2 = []
                      | Ok _ _ => evs2 = []
                      end).
  { unfold attempt. destruct (run_prog n (getter W) (pushed w s)) as [v s1|e s1].
    - exists []. by rewrite app_nil_r.
    - destruct (user W).
      + eexists. split; [|reflexivity]. simpl. by apply collecting_log.
      + exists []. by rewrite app_nil_r. }
  destruct Hatt as (evs2 & Hc2 & Hevs2).
  (* the deep traversal *)
  assert (Hdeep : exists s3 evs3,
             (if deep W
              then fun s => for_each Dep_depend (traverse value s) s
              else ret tt) (store_of attempt) = Ok tt s3
             /\ collecting w W (pushed w s) s3 ((evs1 ++ evs2) ++ evs3)
             /\ Forall (depend_event w) evs3).
  { destruct (deep W).
    - by apply collecting_depends.
    - exists (store_of attempt), []. split; [done|]. rewrite app_nil_r.
      split; [done | constructor]. }
  destruct Hdeep as (s3 & evs3 & Hs3 & Hc3 & Hev3).
  (* [popTarget()] and [cleanupDeps()] *)
  set (s4 := with_target (default None (head (tail (targetStack s3))))
               (tail (targetStack s3)) s3).
  assert (Hw4 : watchers s4 !! w
                = Some (collect_all (touched ((evs1 ++ evs2) ++ evs3)) W)).
  { simpl. rewrite (col_watchers _ _ _ _ _ Hc3). apply lookup_insert_eq. }
  destruct (cleanupDeps_spec w _ s4 Hw4) as (m & Hclean & Hm).
  exists ((evs1 ++ evs2) ++ evs3). eexists. split.
  { apply (collecting_evaluated w W s s3 _ m Hc3). exact Hm. }
  match goal with
  | |- context [bind ?a ?k (store_of attempt)] =>
      assert (Hfin : bind a k (store_of attempt) = Ok tt
                       (with_watchers
                          (<[w:=with_generations
                                  (newDeps (collect_all (touched ((evs1 ++ evs2) ++ evs3)) W))
                                  []
                                  (newDepIds (collect_all (touched ((evs1 ++ evs2) ++ evs3)) W))
                                  ∅ (collect_all (touched ((evs1 ++ evs2) ++ evs3)) W)]>
                             (watchers s4))
                          (with_subs m s4)))
  end.
  { rewrite (bind_Ok _ _ _ tt s3) by exact Hs3.
    rewrite (bind_Ok _ _ s3 tt s4) by reflexivity. exact Hclean. }
  rewrite Hfin. clear Hfin.
  unfold attempt in *.
  destruct (run_prog n (getter W) (pushed w s)) as [v s1|e s1].
  - split; [reflexivity|]. subst evs2. rewrite app_nil_r.
    apply Forall_app. by split.
  - destruct (user W).
    + split; [reflexivity|]. subst evs2.
      apply elem_of_app. left. apply elem_of_app. right. left.
    + split; [reflexivity|]. subst evs2. rewrite app_nil_r.
      apply Forall_app. by split.
Qed.

(** ** What [run], [update] and [notify] leave alone *)

Lemma updates_app evs1 evs2 : updates (evs1 ++ evs2) = updates evs1 ++ updates evs2.
Proof. apply omap_app. Qed.

Lemma notifies_app evs1 evs2 :
  notifies (evs1 ++ evs2) = notifies evs1 ++ notifies evs2.
Proof. apply omap_app. Qed.

Lemma eval_events_quiet w evs :
  Forall (eval_event w) evs -> updates evs = [] /\ notifies evs = [].
Proof.
  induction 1 as [|e evs He _ [IH1 IH2]]; [done|].
  destruct e; simpl in *; try done.
Qed.

Lemma quiet_frame_refl s : quiet_frame s s [].
Proof. split; try done. by rewrite app_nil_r. Qed.

Lemma quiet_frame_trans s1 s2 s3 evs1 evs2 :
  quiet_frame s1 s2 evs1 -> quiet_frame s2 s3 evs2 ->
  quiet_frame s1 s3 (evs1 ++ evs2).
Proof.
  intros [] []. split; try congruence.
  rewrite qf_trace1, qf_trace0. by rewrite app_assoc.
Qed.

Lemma evaluated_quiet w W s s' evs :
  evaluated w W s s' evs -> quiet_frame s s' evs.
Proof. intros []. by split. Qed.

Lemma Watcher_get_evaluated n w W s :
  watchers s !! w = Some W ->
  exists evs s',
    evaluated w W s s' evs
    /\ ((exists v, Watcher_get n w s = Ok v s')
        \/ (exists e, Watcher_get n w s = Thrown e s')).
Proof.
  intros Hw. destruct (Watcher_get_spec n w W s Hw) as (evs & s' & Hev & Hres).
  exists evs, s'. split; [done|].
  destruct (run_prog n (getter W) (pushed w s)) as [v s1|e s1].
  - left. exists v. apply Hres.
  - destruct (user W); [left; exists VUndef | right; exists e]; apply Hres.
Qed.

Lemma Watcher_run_frame n w s :
  exists evs,
    quiet_frame s (store_of (Watcher_run n w s)) evs
    /\ queue (store_of (Watcher_run n w s)) = queue s
    /\ waiting (store_of (Watcher_run n w s)) = waiting s
    /\ updates evs = [] /\ notifies evs = [].
Proof.
  remember (Watcher_run n w s) as r eqn:Hr.
  unfold Watcher_run, bind at 1, the_watcher at 1 in Hr.
  destruct (watchers s !! w) as [W|] eqn:Hw;
    [|subst r; exists []; split; [apply quiet_frame_refl | done]].
  destruct (active W);
    [|subst r; exists []; split; [apply quiet_frame_refl | done]].
  destruct (Watcher_get_evaluated n w W s Hw) as (evs & s1 & Hev & [[v Hg]|[e Hg]]).
  2:{ rewrite (bind_Thrown _ _ _ _ _ Hg) in Hr. subst r. simpl. exists evs.
      split; [by eapply evaluated_quiet|].
      split; [apply Hev|]. split; [apply Hev|].
      eapply eval_events_quiet, Hev. }
  rewrite (bind_Ok _ _ _ _ _ Hg) in Hr.
  pose proof (eval_events_quiet _ _ (evd_events _ _ _ _ _ Hev)) as [Hu Hn].
  pose proof (evaluated_quiet _ _ _ _ _ Hev) as Hq.
  unfold bind at 1, the_watcher at 1 in Hr.
  rewrite (evd_watchers _ _ _ _ _ Hev), lookup_insert_eq in Hr.
  match type of Hr with context [if ?c then _ else _] => destruct c end.
  2:{ subst r. exists evs. simpl. split; [done|]. split; [apply Hev|].
      split; [apply Hev|]. done. }
  match type of Hr with context [set_watcher w ?X] =>
    rewrite (bind_Ok _ _ s1 tt (with_watchers (<[w := X]> (watchers s1)) s1))
      in Hr by reflexivity;
    set (W2 := X) in *
  end.
  set (s2 := with_watchers (<[w := W2]> (watchers s1)) s1) in *.
  assert (Hq2 : forall e, quiet_frame s (log e s2) (evs ++ [e])).
  { intros e. eapply quiet_frame_trans; [exact Hq|].
    split; try done. }
  assert (Hq3 : forall e e', quiet_frame s (log e' (log e s2)) (evs ++ [e; e'])).
  { intros e e'. eapply quiet_frame_trans; [exact Hq|].
    split; try done. simpl. by rewrite <- app_assoc. }
  simpl in Hr. unfold call_cb, bind, modify, handleError in Hr. simpl in Hr.
  destruct (user W); simpl in Hr; destruct (cb W _ _); simpl in Hr; subst r;
    eexists; (split; [first [apply Hq2 | apply Hq3]|]);
    (split; [apply Hev|]); (split; [apply Hev|]);
    rewrite updates_app, notifies_app, Hu, Hn; done.
Qed.

Lemma Watcher_update_frame n w s :
  exists evs,
    quiet_frame s (store_of (Watcher_update n w s)) (EvUpdate w :: evs)
    /\ updates evs = [] /\ notifies evs = []
    /\ (forall x, x ∈ queue (store_of (Watcher_update n w s)) ->
                  x ∈ queue s \/ x = w).
Proof.
  remember (Watcher_update n w s) as r eqn:Hr.
  unfold Watcher_update in Hr.
  rewrite (bind_Ok _ _ s tt (log (EvUpdate w) s)) in Hr by reflexivity.
  assert (Hq0 : quiet_frame s (log (EvUpdate w) s) [EvUpdate w])
    by (split; done).
  unfold bind at 1, the_watcher at 1 in Hr. simpl in Hr.
  destruct (watchers s !! w) as [W|] eqn:Hw;
    [|subst r; exists []; split; [done | split; [done | split; [done | by left]]]].
  destruct (lazy W).
  { subst r. exists []. simpl. split; [by split|]. split; [done|].
    split; [done | by left]. }
  destruct (sync W).
  - destruct (Watcher_run_frame n w (log (EvUpdate w) s))
      as (evs & Hq & Hqu & _ & Hu & Hn).
    subst r. exists evs. split; [|split; [done | split; [done|]]].
    + change (EvUpdate w :: evs) with ([EvUpdate w] ++ evs).
      by eapply quiet_frame_trans.
    + rewrite Hqu. by left.
  - subst r. exists []. unfold queueWatcher, modify. simpl.
    destruct (bool_decide (w ∈ queue s)); simpl.
    + split; [by split|]. split; [done|]. split; [done | by left].
    + split; [by split|]. split; [done|]. split; [done|].
      intros x Hx. apply elem_of_app in Hx as [Hx|Hx]; [by left|].
      apply list_elem_of_singleton in Hx. by right.
Qed.

Lemma updates_frame n L s :
  exists evs k,
    quiet_frame s (store_of (for_each (Watcher_update n) L s)) evs
    /\ updates evs = take k L
    /\ (is_ok (for_each (Watcher_update n) L s) = true -> updates evs = L)
    /\ notifies evs = []
    /\ (forall x, x ∈ queue (store_of (for_each (Watcher_update n) L s)) ->
                  x ∈ queue s \/ x ∈ L).
Proof.
  revert s. induction L as [|w L IH]; intros s.
  - exists [], 0. simpl. split; [apply quiet_frame_refl|].
    repeat split; try done. intros x Hx. by left.
  - simpl. unfold bind.
    destruct (Watcher_update_frame n w s) as (evs1 & Hq1 & Hu1 & Hn1 & Hqu1).
    destruct (Watcher_update n w s) as [[] s1|e s1]; simpl in *.
    + destruct (IH s1) as (evs2 & k & Hq2 & Hu2 & Hok2 & Hn2 & Hqu2).
      exists ((EvUpdate w :: evs1) ++ evs2), (S k).
      split; [by eapply quiet_frame_trans|].
      rewrite updates_app, notifies_app. simpl. rewrite Hu1, Hn1, Hn2. simpl.
      split; [by rewrite Hu2|]. split; [intros Hok; by rewrite Hok2|].
      split; [done|].
      intros x Hx. destruct (Hqu2 x Hx) as [H|H].
      * destruct (Hqu1 x H) as [H'| ->]; [by left | right; left].
      * right. by right.
    + exists (EvUpdate w :: evs1), 1. split; [done|].
      simpl. rewrite Hu1, Hn1. simpl. rewrite take_0.
      repeat split; try done.
      intros x Hx. destruct (Hqu1 x Hx) as [H'| ->]; [by left | right; left].
Qed.

Lemma Dep_notify_frame n d s :
  exists evs k,
    quiet_frame s (store_of (Dep_notify n d s)) (EvNotify d :: evs)
    /\ updates evs = take k (notify_snapshot s d)
    /\ (is_ok (Dep_notify n d s) = true -> updates evs = notify_snapshot s d)
    /\ notifies evs = []
    /\ (forall x, x ∈ queue (store_of (Dep_notify n d s)) ->
                  x ∈ queue s \/ x ∈ notify_snapshot s d).
Proof.
  unfold Dep_notify.
  rewrite (bind_Ok _ _ s tt (log (EvNotify d) s)) by reflexivity.
  change (notify_snapshot (log (EvNotify d) s) d) with (notify_snapshot s d).
  destruct (updates_frame n (notify_snapshot s d) (log (EvNotify d) s))
    as (evs & k & Hq & Hu & Hok & Hn & Hqu).
  exists evs, k. split; [|done].
  change (EvNotify d :: evs) with ([EvNotify d] ++ evs).
  eapply quiet_frame_trans; [|exact Hq]. by split.
Qed.

(** ** The order of dispatch *)

Lemma insert_by_id_perm w l : insert_by_id w l ≡ₚ w :: l.
Proof.
  induction l as [|x l IH]; simpl; [done|].
  destruct (decide (w < x)); [done|].
  rewrite IH. apply Permutation_swap.
Qed.

Lemma sort_by_id_perm l : sort_by_id l ≡ₚ l.
Proof.
  induction l as [|x l IH]; simpl; [done|].
  rewrite insert_by_id_perm. by constructor.
Qed.

Lemma insert_by_id_sorted w l :
  StronglySorted le l -> StronglySorted le (insert_by_id w l).
Proof.
  induction 1 as [|x l Hl IH Hx]; simpl.
  - repeat constructor.
  - destruct (decide (w < x)) as [Hlt|Hge].
    + constructor; [by constructor|].
      constructor; [lia|].
      eapply Forall_impl; [exact Hx|]. simpl. intros; lia.
    + constructor; [done|].
      rewrite insert_by_id_perm. constructor; [lia | done].
Qed.

Lemma sort_by_id_sorted l : StronglySorted le (sort_by_id l).
Proof.
  induction l as [|x l IH]; simpl; [constructor|].
  by apply insert_by_id_sorted.
Qed.

Lemma elem_of_updates w evs : w ∈ updates evs <-> EvUpdate w ∈ evs.
Proof.
  unfold updates. rewrite list_elem_of_omap. split.
  - intros (e & He & Hw). destruct e; simplify_eq. done.
  - intros H. by exists (EvUpdate w).
Qed.

Lemma elem_of_touched d evs : d ∈ touched evs <-> exists t, EvDepend d t ∈ evs.
Proof.
  unfold touched. rewrite list_elem_of_omap. split.
  - intros (e & He & Hw). destruct e; simplify_eq. by eexists.
  - intros [t H]. by exists (EvDepend d t).
Qed.

Lemma notify_snapshot_perm s d : notify_snapshot s d ≡ₚ subs_of s d.
Proof.
  unfold notify_snapshot. destruct (_ && _); [apply sort_by_id_perm | done].
Qed.

(** ** The claims about watchers and dependencies *)

(** C1: after an evaluation by [get()] (started between runs, when the
    collecting generation is empty), [deps] holds exactly the
    dependencies whose [depend()] the evaluation reached, without
    repetition; [depIds] is their set; the new generation is empty again;
    every dependency of the previous generation that the evaluation did
    not reach has lost the watcher from its subscriber list; and a later
    [notify()] of such a dependency neither calls [update()] on the
    watcher nor queues it. *)
Theorem deps_exactly_touched (n : nat) (w : nat) (W : Watcher) (s : store) :
  watchers s !! w = Some W ->
  newDeps W = [] ->
  newDepIds W = ∅ ->
  exists evs W',
    let s' := store_of (Watcher_get n w s) in
    trace s' = trace s ++ evs
    /\ watchers s' !! w = Some W'
    /\ (forall d, d ∈ deps W' <-> d ∈ touched evs)
    /\ NoDup (deps W')
    /\ depIds W' = list_to_set (deps W')
    /\ newDeps W' = [] /\ newDepIds W' = ∅
    /\ (forall d, d ∈ deps W -> d ∉ deps W' -> NoDup (subs_of s d) ->
                  w ∉ subs_of s' d)
    /\ (forall d m, d ∈ deps W -> d ∉ deps W' -> NoDup (subs_of s d) ->
          let s'' := store_of (Dep_notify m d s') in
          (forall evs', trace s'' = trace s' ++ evs' -> EvUpdate w ∉ evs')
          /\ (w ∈ queue s'' -> w ∈ queue s')).
Proof.
  intros Hw Hnd Hndi.
  destruct (Watcher_get_evaluated n w W s Hw) as (evs & s' & Hev & Hres).
  assert (Hs' : store_of (Watcher_get n w s) = s')
    by (destruct Hres as [[v ->]|[e ->]]; reflexivity).
  rewrite Hs'. clear Hres Hs'.
  set (Wc := collect_all (touched evs) W).
  exists evs, (with_generations (newDeps Wc) [] (newDepIds Wc) ∅ W).
  assert (Hin : forall d, d ∈ newDeps Wc <-> d ∈ touched evs).
  { intros d. unfold Wc. rewrite collect_all_newDeps, Hnd, Hndi.
    split; [intros [H|[H _]]; [by apply elem_of_nil in H | done]|].
    intros H. right. split; [done | set_solver]. }
  assert (Hids : newDepIds Wc = list_to_set (newDeps Wc)).
  { unfold Wc at 1. rewrite collect_all_newDepIds, Hndi.
    apply set_eq. intros d. rewrite elem_of_union, !elem_of_list_to_set, Hin.
    set_solver. }
  assert (Hgone : forall d, d ∈ deps W -> d ∉ newDeps Wc ->
                            NoDup (subs_of s d) -> w ∉ subs_of s' d).
  { intros d Hd Hnot Hnodup. rewrite (evd_subs _ _ _ _ _ Hev).
    rewrite decide_False by (intros (H & _); by apply Hnot, Hin).
    rewrite app_nil_r. rewrite remove_n_NoDup; [|done|].
    - by apply util_remove_NoDup.
    - apply occurrences_pos. unfold dropped.
      apply list_elem_of_In, filter_In. split.
      + apply list_elem_of_In. by apply elem_of_reverse.
      + apply negb_true_iff, bool_decide_eq_false.
        fold Wc. rewrite Hids, elem_of_list_to_set. done. }
  cbv zeta. split; [apply Hev|]. split.
  { rewrite (evd_watchers _ _ _ _ _ Hev). apply lookup_insert_eq. }
  split; [exact Hin|]. split.
  { simpl. unfold Wc. apply collect_all_NoDup.
    - rewrite Hnd. constructor.
    - rewrite Hnd. intros d H. by apply elem_of_nil in H. }
  split; [exact Hids|]. split; [done|]. split; [done|].
  split; [exact Hgone|].
  intros d m Hd Hnot Hnodup.
  specialize (Hgone d Hd Hnot Hnodup).
  destruct (Dep_notify_frame m d s') as (evs2 & k & Hq & Hu & _ & _ & Hqu).
  assert (Hsnap : w ∉ notify_snapshot s' d)
    by (by rewrite notify_snapshot_perm).
  split.
  - intros evs' Htr. rewrite (qf_trace _ _ _ Hq) in Htr.
    apply app_inv_head in Htr. subst evs'.
    intros Hin'. apply elem_of_cons in Hin' as [Hin'|Hin']; [done|].
    apply elem_of_updates in Hin'. rewrite Hu in Hin'.
    apply Hsnap. by apply (subseteq_take k (notify_snapshot s' d)).
  - intros Hin'. destruct (Hqu w Hin'); done.
Qed.

(** C4, as the code has it: [get()] runs the evaluation function with the
    watcher pushed as the target; whether that function returns or
    throws, the target stack is back to what it was, the target is its
    top, and [cleanupDeps()] has run; an error of the evaluation function
    is reported through [handleError] and not propagated when the watcher
    is user-facing, and is rethrown for every other watcher. *)
Theorem get_restores_target (n : nat) (w : nat) (W : Watcher) (s : store) :
  watchers s !! w = Some W ->
  exists evs s',
    target (pushed w s) = Some w
    /\ targetStack (pushed w s) = Some w :: targetStack s
    /\ store_of (Watcher_get n w s) = s'
    /\ trace s' = trace s ++ evs
    /\ Forall (fun e => forall d t, e = EvDepend d t -> t = Some w) evs
    /\ targetStack s' = targetStack s
    /\ target s' = default None (head (targetStack s))
    /\ (exists W', watchers s' !! w = Some W'
                   /\ deps W' = newDeps (collect_all (touched evs) W)
                   /\ newDeps W' = [] /\ newDepIds W' = ∅)
    /\ match run_prog n (getter W) (pushed w s) with
       | Ok v _ => Watcher_get n w s = Ok v s'
       | Thrown e _ =>
           if user W
           then Watcher_get n w s = Ok VUndef s'
                /\ EvHandleError e (vm W)
                     (getter_info W)
                   ∈ evs
           else Watcher_get n w s = Thrown e s'
                /\ (forall e' v i, EvHandleError e' v i ∉ evs)
       end.
Proof.
  intros Hw.
  destruct (Watcher_get_spec n w W s Hw) as (evs & s' & Hev & Hres).
  exists evs, s'. split; [done|]. split; [done|].
  split.
  { destruct (run_prog n (getter W) (pushed w s)); [by destruct Hres as [-> _]|].
    destruct (user W); by destruct Hres as [-> _]. }
  split; [apply Hev|]. split.
  { eapply Forall_impl; [apply Hev|]. intros e He d t ->. exact He. }
  split; [apply Hev|]. split; [apply Hev|]. split.
  { eexists. split; [rewrite (evd_watchers _ _ _ _ _ Hev); apply lookup_insert_eq|].
    done. }
  destruct (run_prog n (getter W) (pushed w s)); [apply Hres|].
  destruct (user W); [apply Hres|]. destruct Hres as [Hg Hd]. split; [done|].
  intros e' v i Hin. eapply Forall_forall in Hd; [|exact Hin].
  by destruct Hd.
Qed.

(** C7: [run()] does nothing when the watcher is not active.  When it is
    active and [get()] returns [v], the callback is called, with [v] and
    the cached value and after [v] has been cached, exactly when [v !==]
    the cached value, or [v] is an object, or the watcher is deep; a
    throwing callback is reported and not propagated for a user-facing
    watcher and propagated for any other.  When [get()] throws, so does
    [run()]. *)
Theorem run_calls_back (n : nat) (w : nat) (W : Watcher) (s : store) :
  watchers s !! w = Some W ->
  (active W = false -> Watcher_run n w s = Ok tt s)
  /\ (active W = true ->
      forall e s1, Watcher_get n w s = Thrown e s1 ->
                   Watcher_run n w s = Thrown e s1)
  /\ (active W = true ->
      forall v s1, Watcher_get n w s = Ok v s1 ->
        let fire := strict_neq v (value W) || isObject v || deep W in
        exists evs,
          let r := Watcher_run n w s in
          trace (store_of r) = trace s1 ++ evs
          /\ (forall a b, EvCallback w a b ∈ evs <->
                          fire = true /\ a = v /\ b = value W)
          /\ (fire = true ->
              value <$> watchers (store_of r) !! w = Some v)
          /\ (fire = false -> r = Ok tt s1)
          /\ match (if fire then cb W v (value W) else None) with
             | None => is_ok r = true
             | Some e =>
                 if user W
                 then is_ok r = true
                      /\ EvHandleError (ExnValue e) (vm W)
                           (callback_info W)
                         ∈ evs
                 else exists s2, r = Thrown (ExnValue e) s2
             end).
Proof.
  intros Hw. split; [|split].
  - intros Hact. unfold Watcher_run.
    rewrite (bind_Ok _ _ s W s) by (by apply the_watcher_Ok).
    by rewrite Hact.
  - intros Hact e s1 Hg. unfold Watcher_run.
    rewrite (bind_Ok _ _ s W s) by (by apply the_watcher_Ok).
    rewrite Hact. by rewrite (bind_Thrown _ _ _ _ _ Hg).
  - intros Hact v s1 Hg fire.
    destruct (Watcher_get_evaluated n w W s Hw) as (evs0 & s1' & Hev & Hres).
    assert (s1' = s1) as ->
      by (destruct Hres as [[v' H]|[e' H]]; rewrite H in Hg; congruence).
    clear Hres.
    remember (Watcher_run n w s) as r eqn:Hr.
    unfold Watcher_run in Hr.
    rewrite (bind_Ok _ _ s W s) in Hr by (by apply the_watcher_Ok).
    rewrite Hact in Hr. rewrite (bind_Ok _ _ _ _ _ Hg) in Hr.
    unfold bind at 1, the_watcher at 1 in Hr.
    rewrite (evd_watchers _ _ _ _ _ Hev), lookup_insert_eq in Hr.
    simpl in Hr. fold fire in Hr.
    destruct fire eqn:Hfire.
    2:{ subst r. exists []. simpl. rewrite app_nil_r.
        split; [done|]. split.
        { intros a b. split; [intros H; by apply elem_of_nil in H | by intros [? _]]. }
        done. }
    unfold bind, set_watcher, modify, call_cb, handleError in Hr. simpl in Hr.
    destruct (user W) eqn:Hu; simpl in Hr;
      destruct (cb W v (value W)) as [e|] eqn:Hcb; simpl in Hr; subst r.
    + exists [EvCallback w v (value W);
              EvHandleError (ExnValue e) (vm W)
                (callback_info W)].
      simpl. split; [by rewrite <- app_assoc|].
      split; [intros a b; rewrite !elem_of_cons, elem_of_nil; naive_solver|].
      split; [intros _; by rewrite lookup_insert_eq|].
      split; [done|]. split; [done|]. right. left.
    + exists [EvCallback w v (value W)]. simpl. split; [done|].
      split; [intros a b; rewrite !elem_of_cons, elem_of_nil; naive_solver|].
      split; [intros _; by rewrite lookup_insert_eq|]. done.
    + exists [EvCallback w v (value W)]. simpl. split; [done|].
      split; [intros a b; rewrite !elem_of_cons, elem_of_nil; naive_solver|].
      split; [intros _; by rewrite lookup_insert_eq|].
      split; [done|]. by eexists.
    + exists [EvCallback w v (value W)]. simpl. split; [done|].
      split; [intros a b; rewrite !elem_of_cons, elem_of_nil; naive_solver|].
      split; [intros _; by rewrite lookup_insert_eq|]. done.
Qed.

(** C3, as the code has it: [notify()] calls [update()] on the watchers
    of a snapshot of the subscriber list taken before the first call, in
    the order of the snapshot and whatever happens to the list in the
    meantime (all of them when no [update()] throws, the first ones up to
    the throwing one otherwise).  The snapshot is the list sorted by
    ascending id when the build is not a production build and
    [config.async] is off, and the list as it is in every other case. *)
Theorem notify_dispatches_snapshot (n : nat) (d : nat) (s : store) :
  exists evs k,
    let r := Dep_notify n d s in
    trace (store_of r) = trace s ++ EvNotify d :: evs
    /\ updates evs = take k (notify_snapshot s d)
    /\ (is_ok r = true -> updates evs = notify_snapshot s d)
    /\ notify_snapshot s d ≡ₚ subs_of s d
    /\ (production (cfg s) = false -> async (cfg s) = false ->
        StronglySorted le (notify_snapshot s d))
    /\ (production (cfg s) = true \/ async (cfg s) = true ->
        notify_snapshot s d = subs_of s d).
Proof.
  destruct (Dep_notify_frame n d s) as (evs & k & Hq & Hu & Hok & _ & _).
  exists evs, k. cbv zeta. split; [apply Hq|]. split; [done|]. split; [done|].
  split; [apply notify_snapshot_perm|]. unfold notify_snapshot. split.
  - intros -> ->. simpl. apply sort_by_id_sorted.
  - intros [-> | ->]; simpl; [done|]. by rewrite andb_false_r.
Qed.

(** ** What reading and observing leave alone *)

Lemma depend_any_quiet evs :
  Forall depend_any evs -> updates evs = [] /\ notifies evs = [].
Proof.
  induction 1 as [|e evs (d & t & ->) _ [IH1 IH2]]; [done|]. done.
Qed.

Lemma read_frame_refl s : read_frame s s [].
Proof. split; try done. by rewrite app_nil_r. Qed.

Lemma read_frame_trans s1 s2 s3 evs1 evs2 :
  read_frame s1 s2 evs1 -> read_frame s2 s3 evs2 ->
  read_frame s1 s3 (evs1 ++ evs2).
Proof.
  intros [] []. split; try congruence.
  - rewrite rf_trace1, rf_trace0. by rewrite app_assoc.
  - apply Forall_app. by split.
  - intros Ht. destruct (rf_idle0 Ht) as [? ?].
    destruct rf_idle1 as [? ?]; [congruence|]. split; congruence.
Qed.

Lemma Dep_depend_frame d s :
  read_frame s (store_of (Dep_depend d s)) [EvDepend d (target s)].
Proof.
  unfold Dep_depend. destruct (target s) as [w|] eqn:Ht.
  - unfold Watcher_addDep, bind, the_watcher. simpl.
    destruct (watchers s !! w) as [W|]; simpl.
    + destruct (bool_decide (d ∈ newDepIds W)); simpl;
        [|destruct (bool_decide (d ∈ depIds W)); simpl];
        split; simpl; try done;
        try (by repeat econstructor); by rewrite Ht.
    + split; simpl; try done; try (by repeat econstructor); by rewrite Ht.
  - simpl. split; simpl; try done. by repeat econstructor.
Qed.

Lemma dep_steps_frame s s' :
  dep_steps s s' -> exists evs, read_frame s s' evs.
Proof.
  induction 1 as [s|s d s' _ [evs IH]].
  - exists []. apply read_frame_refl.
  - eexists. eapply read_frame_trans; [apply Dep_depend_frame | exact IH].
Qed.

Lemma obs_mono_refl s : obs_mono s s.
Proof.
  split; try done; eauto.
  exists []. by rewrite app_nil_r.
Qed.

Lemma obs_mono_trans s1 s2 s3 : obs_mono s1 s2 -> obs_mono s2 s3 -> obs_mono s1 s3.
Proof.
  intros [] []. split; try congruence.
  - eauto.
  - intros o r Hr. destruct (om_observers0 o r Hr) as (r1 & H1 & ? & ?).
    destruct (om_observers1 o r1 H1) as (r2 & H2 & ? & ?).
    exists r2. repeat split; congruence.
  - intros l x Hx. destruct (om_objs0 l x Hx) as (x1 & H1 & ? & Hob1).
    destruct (om_objs1 l x1 H1) as (x2 & H2 & ? & Hob2).
    exists x2. split; [done|]. split; [congruence | eauto].
  - destruct om_trace0 as (evs1 & Ht1 & He1).
    destruct om_trace1 as (evs2 & Ht2 & He2).
    exists (evs1 ++ evs2). split.
    + rewrite Ht2, Ht1. by rewrite app_assoc.
    + apply Forall_app. by split.
Qed.

Lemma read_frame_mono s s' evs : read_frame s s' evs -> obs_mono s s'.
Proof.
  intros []. split; try done.
  - intros c C. by rewrite rf_closures0.
  - intros o r. rewrite rf_observers0. eauto.
  - intros l x. rewrite rf_objs0. eauto.
  - eauto.
Qed.

Lemma dep_steps_mono s s' : dep_steps s s' -> obs_mono s s'.
Proof. intros H. apply dep_steps_frame in H as [evs H]. by eapply read_frame_mono. Qed.

Lemma prop_get_mono n o k : preserves obs_mono (prop_get n o k).
Proof. intros s. apply dep_steps_mono, prop_get_steps. Qed.

Lemma new_Dep_mono : preserves obs_mono new_Dep.
Proof.
  intros s. simpl. split; try done; eauto.
  exists []. by rewrite app_nil_r.
Qed.

Lemma set_obj_mono o x x' s :
  objs s !! o = Some x ->
  cls x' = cls x ->
  (forall o', ob x = Some o' -> ob x' = Some o') ->
  obs_mono s (with_objs (<[o := x']> (objs s)) s).
Proof.
  intros Hx Hcls Hob. split; try done; eauto.
  - intros l y Hy. simpl. destruct (decide (l = o)) as [->|Hne].
    + rewrite lookup_insert_eq. eexists. split; [done|].
      rewrite Hx in Hy. injection Hy as <-. done.
    + rewrite lookup_insert_ne by done. eauto.
  - exists []. by rewrite app_nil_r.
Qed.

Lemma define_accessor_mono o k c : preserves obs_mono (define_accessor o k c).
Proof.
  intros s. unfold define_accessor, bind, the_obj.
  destruct (objs s !! o) as [x|] eqn:Hx; [|apply obs_mono_refl].
  assert (Hset : obs_mono s
            (with_objs (<[o := with_props (put_prop k (PAccessor c true true) (props x)) x]>
                          (objs s)) s))
    by (by eapply set_obj_mono).
  destruct (lookup_prop k (props x)); simpl; [done|].
  destruct (extensible x); simpl; [done | apply obs_mono_refl].
Qed.

Lemma alloc_closure_mono C s :
  obs_mono s (with_closures (<[fresh (dom (closures s)) := C]> (closures s)) s).
Proof.
  split; try done; eauto.
  - intros c C' Hc. simpl. rewrite lookup_insert_ne; [done|].
    intros <-. apply (is_fresh (dom (closures s))).
    apply elem_of_dom. by eexists.
  - exists []. by rewrite app_nil_r.
Qed.

Section ObserveMono.
Variable n : nat.
Variable rec_observe : jsval -> bool -> M (option nat).
Hypothesis rec_observe_mono : forall v b, preserves obs_mono (rec_observe v b).

Let Pbind {A B} := @preserves_bind obs_mono obs_mono_trans A B.
Let Pret {A} := @preserves_ret obs_mono obs_mono_refl A.

Lemma defineReactive_body_mono obj key val cs sh :
  preserves obs_mono (defineReactive_body n rec_observe obj key val cs sh).
Proof.
  unfold defineReactive_body.
  apply Pbind; [apply new_Dep_mono|]. intros dep.
  apply Pbind; [apply preserves_the_obj, obs_mono_refl|]. intros x.
  match goal with |- context [if ?c then _ else _] => destruct c end;
    [apply Pret|].
  intros s.
  generalize (descriptor_get (own_property x key) s)
             (descriptor_set (own_property x key) s).
  intros g st. revert s. cbv zeta. apply Pbind.
  { destruct (_ && _); [apply prop_get_mono | apply Pret]. }
  intros val'. apply Pbind.
  { destruct sh; [apply Pret | apply rec_observe_mono]. }
  intros childOb s'. unfold bind, set_closure, modify.
  eapply obs_mono_trans; [apply alloc_closure_mono|].
  apply define_accessor_mono.
Qed.

Lemma walk_body_mono obj : preserves obs_mono (walk_body n rec_observe obj).
Proof.
  unfold walk_body.
  apply Pbind; [apply preserves_the_obj, obs_mono_refl|]. intros x.
  apply preserves_for_each; [apply obs_mono_refl | apply obs_mono_trans|].
  intros k. apply defineReactive_body_mono.
Qed.

Lemma observeArray_body_mono items :
  preserves obs_mono (observeArray_body n rec_observe items).
Proof.
  unfold observeArray_body.
  apply Pbind; [apply preserves_the_obj, obs_mono_refl|]. intros x.
  apply preserves_for_each; [apply obs_mono_refl | apply obs_mono_trans|].
  intros i. apply Pbind; [apply prop_get_mono|]. intros e.
  apply Pbind; [apply rec_observe_mono | intros _; apply Pret].
Qed.

(** [new Observer(value)] on an object that carries no observer yet:
    the store grows, and the object carries the new observer. *)
Lemma new_Observer_body_spec value x s :
  objs s !! value = Some x ->
  ob x = None ->
  let r := new_Observer_body n rec_observe value s in
  obs_mono s (store_of r)
  /\ forall o s', r = Ok o s' ->
       exists x', objs s' !! value = Some x'
                  /\ ob x' = Some o /\ cls x' = cls x.
Proof.
  intros Hx Hob. unfold new_Observer_body.
  rewrite (bind_Ok _ _ s (dep_uid s)
             (with_dep_uid (S (dep_uid s))
                (with_subs (<[dep_uid s := []]> (subs s)) s))) by reflexivity.
  set (s1 := with_dep_uid _ _).
  set (o := fresh (dom (observers s1))).
  rewrite (bind_Ok _ _ s1 tt
             (with_observers (<[o := mkObserver value (dep_uid s) 0]> (observers s1)) s1))
    by reflexivity.
  set (s2 := with_observers _ s1).
  rewrite (bind_Ok _ _ s2 x s2) by (unfold the_obj; simpl; by rewrite Hx).
  rewrite (bind_Ok _ _ s2 tt (with_objs (<[value := with_ob (Some o) x]> (objs s2)) s2))
    by reflexivity.
  set (s3 := with_objs _ s2).
  assert (Hm3 : obs_mono s s3).
  { eapply obs_mono_trans; [|eapply (set_obj_mono value x); try done].
    - split; try done; eauto.
      + intros o' r Hr. simpl. rewrite lookup_insert_ne; [eauto|].
        intros <-. apply (is_fresh (dom (observers s1))).
        apply elem_of_dom. by eexists.
      + exists []. by rewrite app_nil_r.
    - intros o'. by rewrite Hob. }
  assert (Hx3 : objs s3 !! value = Some (with_ob (Some o) x))
    by (simpl; apply lookup_insert_eq).
  set (rest := if bool_decide (cls x = CArray)
               then (x' <- the_obj value ;;
                     set_obj value (with_augmented true x') ;;;
                     observeArray_body n rec_observe value)
               else walk_body n rec_observe value).
  assert (Hrest : preserves obs_mono rest).
  { unfold rest. destruct (bool_decide _); [|apply walk_body_mono].
    intros s0. unfold bind at 1. unfold the_obj.
    destruct (objs s0 !! value) as [x'|] eqn:Hx'; [|apply obs_mono_refl].
    rewrite (bind_Ok _ _ s0 tt
               (with_objs (<[value := with_augmented true x']> (objs s0)) s0))
      by reflexivity.
    eapply obs_mono_trans; [|apply observeArray_body_mono].
    by eapply set_obj_mono. }
  cbv zeta. fold rest. unfold bind at 1 2.
  specialize (Hrest s3).
  destruct (rest s3) as [[] s4|e s4]; simpl in *.
  - split; [by eapply obs_mono_trans|].
    intros o' s' [= <- <-].
    destruct (om_objs _ _ Hrest value _ Hx3) as (x' & Hx' & Hcls & Hob').
    exists x'. split; [done|]. split; [by apply Hob' | done].
  - split; [by eapply obs_mono_trans | done].
Qed.

(** [if (asRootData && ob) ob.vmCount++; return ob] *)
Lemma count_root_spec (asRootData : bool) (oo : option nat) s :
  let r := match oo with
           | Some o' =>
               if asRootData
               then (r <- the_observer o' ;;
                     set_observer o' (mkObserver (ob_value r) (ob_dep r)
                                        (S (vmCount r))) ;;;
                     ret oo)
               else ret oo
           | None => ret None
           end s in
  obs_mono s (store_of r)
  /\ objs (store_of r) = objs s
  /\ forall o s', r = Ok (Some o) s' -> oo = Some o.
Proof.
  destruct oo as [o'|]; simpl; [|by split; [apply obs_mono_refl|]].
  destruct asRootData; simpl;
    [|split; [apply obs_mono_refl | split; [done | by intros ? ? [= -> _]]]].
  unfold bind, the_observer.
  destruct (observers s !! o') as [r|] eqn:Hr; simpl;
    [|by split; [apply obs_mono_refl|]].
  split; [|split; [done | by intros ? ? [= -> _]]].
  split; try done; eauto.
  - intros o r' Hr'. simpl. destruct (decide (o = o')) as [->|Hne].
    + rewrite lookup_insert_eq. eexists. split; [done|].
      rewrite Hr in Hr'. by injection Hr' as <-.
    + rewrite lookup_insert_ne by done. eauto.
  - exists []. by rewrite app_nil_r.
Qed.

(** [observe] lets the store grow, and the object it returns an
    observer for carries that observer afterwards. *)
Lemma observe_body_spec value asRootData s :
  let r := observe_body n rec_observe value asRootData s in
  obs_mono s (store_of r)
  /\ forall o s', r = Ok (Some o) s' ->
       exists l x', value = VObj l /\ objs s' !! l = Some x'
                    /\ ob x' = Some o /\ cls x' ≠ CVNode.
Proof.
  cbv zeta. remember (observe_body n rec_observe value asRootData s) as r eqn:Hr.
  unfold observe_body in Hr.
  destruct value as [| | | | | |l];
    try (subst r; by split; [apply obs_mono_refl|]).
  unfold bind at 1 in Hr. unfold the_obj in Hr.
  destruct (objs s !! l) as [x|] eqn:Hx;
    [|subst r; by split; [apply obs_mono_refl|]].
  destruct (bool_decide (cls x = CVNode)) eqn:Hv;
    [subst r; by split; [apply obs_mono_refl|]|].
  apply bool_decide_eq_false in Hv.
  unfold bind at 1 in Hr.
  destruct (ob x) as [o0|] eqn:Hob.
  - simpl in Hr.
    destruct (count_root_spec asRootData (Some o0) s) as (Hm & Hobjs & Hres).
    simpl in *. rewrite <- Hr in *. split; [done|]. intros o s' ->.
    pose proof (Hres _ _ eq_refl) as [= <-].
    exists l, x. simpl in Hobjs. by rewrite Hobjs.
  - match type of Hr with context [if ?c then _ else _] => destruct c end;
      [|subst r; by split; [apply obs_mono_refl|]].
    destruct (new_Observer_body_spec l x s Hx Hob) as (Hm1 & Hmark).
    unfold bind at 1 in Hr.
    destruct (new_Observer_body n rec_observe l s) as [o1 s1|e s1]; simpl in *;
      [|subst r; by split].
    destruct (Hmark _ _ eq_refl) as (x1 & Hx1 & Hob1 & Hcls1).
    destruct (count_root_spec asRootData (Some o1) s1) as (Hm & Hobjs & Hres).
    simpl in *. rewrite <- Hr in *.
    split; [by eapply obs_mono_trans|]. intros o s' ->.
    pose proof (Hres _ _ eq_refl) as [= <-].
    exists l, x1. simpl in Hobjs. rewrite Hobjs.
    repeat split; try done. congruence.
Qed.
End ObserveMono.

Lemma observe_mono n : forall v b, preserves obs_mono (observe n v b).
Proof.
  induction n as [|n IH]; intros v b s; simpl.
  - apply (observe_body_spec 0 (fun _ _ => throw RangeError)).
    intros ? ? ?. apply obs_mono_refl.
  - by apply (observe_body_spec (S n) (observe n)).
Qed.

Lemma observe_marks n v b s o s' :
  observe n v b s = Ok (Some o) s' ->
  exists l x', v = VObj l /\ objs s' !! l = Some x'
               /\ ob x' = Some o /\ cls x' ≠ CVNode.
Proof.
  destruct n as [|n]; simpl; intros H.
  - eapply (observe_body_spec 0 (fun _ _ => throw RangeError)); [|exact H].
    intros ? ? ?. apply obs_mono_refl.
  - eapply (observe_body_spec (S n) (observe n)); [|exact H].
    apply observe_mono.
Qed.

Lemma observe_unfold n v b s :
  observe n v b s
  = observe_body n (match n with
                    | 0 => fun _ _ => throw RangeError
                    | S n' => observe n'
                    end) v b s.
Proof. by destruct n. Qed.

(** [observe] of a value that is not an object returns at once. *)
Lemma observe_not_object n v b s :
  isObject v = false -> observe n v b s = Ok None s.
Proof. intros Hobj. rewrite observe_unfold. by destruct v. Qed.

(** [observe] of an object that carries an observer returns it. *)
Lemma observe_observed n l x o s :
  objs s !! l = Some x -> cls x ≠ CVNode -> ob x = Some o ->
  observe n (VObj l) false s = Ok (Some o) s.
Proof.
  intros Hx Hv Hob. rewrite observe_unfold. unfold observe_body.
  rewrite (bind_Ok _ _ s x s) by (unfold the_obj; by rewrite Hx).
  rewrite bool_decide_eq_false_2 by done. by rewrite Hob.
Qed.

(** ** The claims about [observe] and [defineReactive] *)

(** C5, as the code has it: [observe] returns nothing for a value that is
    not an object and for a VNode.  For any other object that already
    carries an observer it returns that observer and wraps nothing, also
    when observing is switched off (the store is unchanged, but for the
    count of roots when [asRootData] is set).  For an object without an
    observer it returns nothing when observing is switched off, on the
    server, when the object is neither an array nor a plain object, is
    not extensible or is a Vue instance.  And once [observe] has returned
    an observer for a value, every later [observe] of the value returns
    that same observer and leaves the store alone. *)
Theorem observe_idempotent (n : nat) (value : jsval) (asRootData : bool) (s : store) :
  (isObject value = false -> observe n value asRootData s = Ok None s)
  /\ (forall l x, value = VObj l -> objs s !! l = Some x ->
        (cls x = CVNode -> observe n value asRootData s = Ok None s)
        /\ (cls x ≠ CVNode -> forall o, ob x = Some o ->
              observe n value false s = Ok (Some o) s
              /\ forall r, observers s !! o = Some r ->
                   observe n value true s
                   = Ok (Some o)
                       (with_observers
                          (<[o := mkObserver (ob_value r) (ob_dep r) (S (vmCount r))]>
                             (observers s)) s))
        /\ (cls x ≠ CVNode -> ob x = None ->
            shouldObserve (cfg s) = false
            \/ serverRendering (cfg s) = true
            \/ (cls x ≠ CArray /\ cls x ≠ CPlain)
            \/ extensible x = false
            \/ isVue x = true ->
            observe n value asRootData s = Ok None s))
  /\ (forall o s', observe n value asRootData s = Ok (Some o) s' ->
        forall m, observe m value false s' = Ok (Some o) s').
Proof.
  assert (Hmarked : forall m l x o s0,
             objs s0 !! l = Some x -> cls x ≠ CVNode -> ob x = Some o ->
             observe m (VObj l) false s0 = Ok (Some o) s0).
  { intros m l x o s0 Hx Hv Hob. rewrite observe_unfold. unfold observe_body.
    rewrite (bind_Ok _ _ s0 x s0) by (unfold the_obj; by rewrite Hx).
    rewrite bool_decide_eq_false_2 by done. by rewrite Hob. }
  split; [|split].
  - intros Hobj. rewrite observe_unfold. by destruct value.
  - intros l x -> Hx. split; [|split].
    + intros Hv. rewrite observe_unfold. unfold observe_body.
      rewrite (bind_Ok _ _ s x s) by (unfold the_obj; by rewrite Hx).
      by rewrite bool_decide_eq_true_2.
    + intros Hv o Hob. split; [by eapply Hmarked|].
      intros r Hr. rewrite observe_unfold. unfold observe_body.
      rewrite (bind_Ok _ _ s x s) by (unfold the_obj; by rewrite Hx).
      rewrite bool_decide_eq_false_2 by done. rewrite Hob.
      unfold bind, ret, the_observer. by rewrite Hr.
    + intros Hv Hob Hcond. rewrite observe_unfold. unfold observe_body.
      rewrite (bind_Ok _ _ s x s) by (unfold the_obj; by rewrite Hx).
      rewrite bool_decide_eq_false_2 by done. rewrite Hob.
      unfold bind.
      assert (Hc : shouldObserve (cfg s) && negb (serverRendering (cfg s))
                   && (bool_decide (cls x = CArray) || bool_decide (cls x = CPlain))
                   && extensible x && negb (isVue x) = false).
      { destruct Hcond as [-> | [-> | [[H1 H2] | [-> | ->]]]].
        - done.
        - by rewrite andb_false_r.
        - rewrite !bool_decide_eq_false_2 by done. simpl.
          by rewrite andb_false_r.
        - by rewrite andb_false_r.
        - by rewrite !andb_false_r. }
      by rewrite Hc.
  - intros o s' Hobs m.
    destruct (observe_marks _ _ _ _ _ _ Hobs) as (l & x' & -> & Hx' & Hob' & Hv').
    by eapply Hmarked.
Qed.

Lemma call_getter_unfold n c s :
  call_getter n c s
  = call_getter_body
      (match n with 0 => fun _ => throw RangeError | S n' => call_getter n' end)
      (match n with 0 => fun _ => throw RangeError | S n' => dependArray n' end)
      c s.
Proof. by destruct n. Qed.

Lemma call_setter_unfold n c v s :
  call_setter n c v s
  = call_setter_body n
      (match n with 0 => fun _ _ => throw RangeError | S n' => call_setter n' end)
      c v s.
Proof. by destruct n. Qed.


(** C10: for an interceptor over a property that had a getter and no
    setter, a write returns without storing, observing or notifying:
    the store is what it was, but for the record of the call of the
    custom setter when the value differs, the build is not a production
    build and there is one. *)
Theorem getter_only_write_ignored (n : nat) (c g : nat) (val : jsval) (dep : nat)
    (childOb : option nat) (customSetter shallow : bool) (st : jsval)
    (f : jsval -> jsval) (newVal : jsval) (s : store) :
  closures s !! c
    = Some (CReactive val dep childOb customSetter shallow (Some g) None) ->
  closures s !! g = Some (CUser st (Some f) None) ->
  let same := strict_eq newVal (f st)
              || (strict_neq newVal newVal && strict_neq (f st) (f st)) in
  let s' := if negb same && negb (production (cfg s)) && customSetter
            then log (EvCustomSetter c) s else s in
  call_setter n c newVal s = Ok tt s'
  /\ closures s' = closures s /\ objs s' = objs s /\ observers s' = observers s
  /\ subs s' = subs s /\ watchers s' = watchers s
  /\ queue s' = queue s /\ waiting s' = waiting s
  /\ notifies (drop (length (trace s)) (trace s')) = []
  /\ (forall o k x e cf,
        objs s !! o = Some x ->
        lookup_prop k (props x) = Some (PAccessor c e cf) ->
        prop_set n o k newVal s = Ok tt s').
Proof.
  intros Hc Hg same s'.
  assert (Hset : call_setter n c newVal s = Ok tt s').
  { rewrite call_setter_unfold. unfold call_setter_body.
    rewrite (bind_Ok _ _ s
               (CReactive val dep childOb customSetter shallow (Some g) None) s)
      by (unfold the_closure; by rewrite Hc).
    unfold reactiveSetter.
    assert (Hget : call_getter n g s = Ok (f st) s).
    { rewrite call_getter_unfold. unfold call_getter_body.
      by rewrite (bind_Ok _ _ s (CUser st (Some f) None) s)
        by (unfold the_closure; by rewrite Hg). }
    rewrite (bind_Ok _ _ s _ s Hget). fold same. unfold s'.
    destruct same; [done|]. simpl. unfold bind.
    by destruct (negb (production (cfg s)) && customSetter). }
  split; [done|].
  assert (Hs' : s' = s \/ s' = log (EvCustomSetter c) s)
    by (unfold s';
        destruct (negb same && negb (production (cfg s)) && customSetter); auto).
  repeat split; try (by destruct Hs' as [-> | ->]).
  - destruct Hs' as [-> | ->]; simpl.
    + by rewrite drop_all.
    + by rewrite drop_app_length.
  - intros o k x e cf Hx Hk. unfold prop_set.
    rewrite (bind_Ok _ _ s x s) by (unfold the_obj; by rewrite Hx).
    rewrite Hk. unfold descriptor_set. by rewrite Hc.
Qed.

(** ** The claims about writing a reactive property *)

Lemma call_getter_frame n g s :
  exists evs, read_frame s (store_of (call_getter n g s)) evs.
Proof. apply dep_steps_frame. apply reads_steps. Qed.

(** C2, as the code has it.  Let [value] be the current value of a
    reactive property (what its original getter returns, or the captured
    [val]).  Writing [newVal] with [newVal === value], or with both of
    them NaN, returns at once: nothing is stored, observed or notified.
    Any other write to a property that had a getter and no setter is
    ignored in the same way, but for the call of the custom setter.
    Any other write to a property without accessors of its own stores
    [newVal] in the captured variable, replaces [childOb] by
    [observe(newVal)] unless the property is shallow, and calls
    [notify()] on the property's dependency; with an original setter,
    [newVal] is handed to that setter instead of being stored. *)
Theorem reactive_write (n : nat) (c : nat) (val : jsval) (dep : nat)
    (childOb : option nat) (customSetter shallow : bool)
    (getter setter : option nat) (newVal value : jsval) (s s0 : store) :
  closures s !! c
    = Some (CReactive val dep childOb customSetter shallow getter setter) ->
  match getter with
  | Some g => call_getter n g
  | None => ret val
  end s = Ok value s0 ->
  let same := strict_eq newVal value
              || (strict_neq newVal newVal && strict_neq value value) in
  let r := call_setter n c newVal s in
  (same = true ->
     r = Ok tt s0
     /\ (getter = None -> s0 = s)
     /\ closures s0 = closures s /\ objs s0 = objs s
     /\ observers s0 = observers s /\ queue s0 = queue s
     /\ exists evs, trace s0 = trace s ++ evs
                    /\ notifies evs = [] /\ updates evs = [])
  /\ (same = false ->
      let s1 := if negb (production (cfg s0)) && customSetter
                then log (EvCustomSetter c) s0 else s0 in
      (is_Some getter -> setter = None -> r = Ok tt s1)
      /\ (getter = None -> setter = None ->
          let stored := CReactive newVal dep childOb customSetter shallow None None in
          let s2 := with_closures (<[c := stored]> (closures s1)) s1 in
          (forall o s3,
              (if shallow then ret None else observe n newVal false) s2 = Ok o s3 ->
              let s4 := with_closures
                          (<[c := with_childOb o stored]> (closures s3)) s3 in
              r = Dep_notify n dep s4
              /\ closures (store_of r) !! c = Some (with_childOb o stored)
              /\ exists evs, trace (store_of r) = trace s3 ++ EvNotify dep :: evs)
          /\ (isObject newVal = false ->
              r = Dep_notify n dep
                    (with_closures (<[c := with_childOb None stored]> (closures s2)) s2)))
      /\ (forall st, setter = Some st ->
          forall s2,
            match n with
            | 0 => fun _ _ => throw RangeError
            | S n' => call_setter n'
            end st newVal s1 = Ok tt s2 ->
          forall o s3,
            (if shallow then ret None else observe n newVal false) s2 = Ok o s3 ->
          forall C, closures s3 !! c = Some C ->
            r = Dep_notify n dep
                  (with_closures (<[c := with_childOb o C]> (closures s3)) s3)
            /\ exists evs, trace (store_of r) = trace s3 ++ EvNotify dep :: evs)).
Proof.
  intros Hc Hget same r.
  assert (Hr : r = reactiveSetter n
                     (match n with
                      | 0 => fun _ _ => throw RangeError
                      | S n' => call_setter n'
                      end)
                     c val dep customSetter shallow getter setter newVal s).
  { unfold r. rewrite call_setter_unfold. unfold call_setter_body.
    by rewrite (bind_Ok _ _ s
                  (CReactive val dep childOb customSetter shallow getter setter) s)
      by (unfold the_closure; by rewrite Hc). }
  unfold reactiveSetter in Hr. rewrite (bind_Ok _ _ s value s0 Hget) in Hr.
  fold same in Hr.
  assert (Hf : exists evs, read_frame s s0 evs).
  { destruct getter as [g|].
    - destruct (call_getter_frame n g s) as [evs Hevs]. rewrite Hget in Hevs.
      by exists evs.
    - injection Hget as _ <-. exists []. apply read_frame_refl. }
  destruct Hf as [evs0 Hf].
  assert (Hnotify : forall s4,
             exists evs, trace (store_of (Dep_notify n dep s4))
                         = trace s4 ++ EvNotify dep :: evs).
  { intros s4. destruct (Dep_notify_frame n dep s4) as (evs & k & Hq & _).
    exists evs. apply Hq. }
  split.
  - intros Hsame. rewrite Hsame in Hr. split; [done|].
    split; [intros ->; by injection Hget|].
    split; [apply Hf|]. split; [apply Hf|]. split; [apply Hf|].
    split; [apply Hf|].
    exists evs0. split; [apply Hf|]. apply and_comm.
    apply depend_any_quiet, Hf.
  - intros Hsame s1. rewrite Hsame in Hr.
    rewrite (bind_Ok _ _ s0 tt s1) in Hr
      by (unfold s1; by destruct (negb (production (cfg s0)) && customSetter)).
    assert (Hc1 : closures s1 !! c
                  = Some (CReactive val dep childOb customSetter shallow getter setter)).
    { unfold s1. destruct (negb (production (cfg s0)) && customSetter); simpl;
        by rewrite (rf_closures _ _ _ Hf). }
    split; [|split].
    + intros [g ->] ->. done.
    + intros -> -> stored s2. simpl in Hr.
      rewrite (bind_Ok _ _ s1 tt s2) in Hr
        by (unfold bind, the_closure; by rewrite Hc1).
      assert (Hgen : forall o s3,
                 (if shallow then ret None else observe n newVal false) s2 = Ok o s3 ->
                 r = Dep_notify n dep
                       (with_closures (<[c := with_childOb o stored]> (closures s3)) s3)
                 /\ closures (store_of r) !! c = Some (with_childOb o stored)).
      { intros o s3 Hobs.
        assert (Hc3 : closures s3 !! c = Some stored).
        { assert (Hm : obs_mono s2 s3).
          { destruct shallow.
            - injection Hobs as _ <-. apply obs_mono_refl.
            - pose proof (observe_mono n newVal false s2) as Hm.
              by rewrite Hobs in Hm. }
          apply (om_closures _ _ Hm). simpl. apply lookup_insert_eq. }
        rewrite (bind_Ok _ _ s2 o s3 Hobs) in Hr.
        rewrite (bind_Ok _ _ s3 stored s3) in Hr
          by (unfold the_closure; by rewrite Hc3).
        rewrite (bind_Ok _ _ s3 tt
                   (with_closures (<[c := with_childOb o stored]> (closures s3)) s3))
          in Hr by reflexivity.
        split; [done|]. rewrite Hr.
        destruct (Dep_notify_frame n dep
                    (with_closures (<[c := with_childOb o stored]> (closures s3)) s3))
          as (evs & k & Hq & _).
        rewrite (qf_closures _ _ _ Hq). simpl. apply lookup_insert_eq. }
      split.
      * intros o s3 Hobs s4. destruct (Hgen o s3 Hobs) as [H1 H2].
        split; [done|]. split; [done|]. rewrite H1. apply (Hnotify s4).
      * intros Hprim. apply (Hgen None s2).
        destruct shallow; [done|].
        by apply observe_not_object.
    + intros st -> s2 Hst o s3 Hobs C HC.
      assert (Hb : bool_decide (is_Some getter)
                   && negb (bool_decide (is_Some (Some st))) = false).
      { rewrite (bool_decide_eq_true_2 (is_Some (Some st))) by eauto.
        apply andb_false_r. }
      rewrite Hb in Hr.
      rewrite (bind_Ok _ _ s1 tt s2 Hst) in Hr.
      rewrite (bind_Ok _ _ s2 o s3 Hobs) in Hr.
      rewrite (bind_Ok _ _ s3 C s3) in Hr
        by (unfold the_closure; by rewrite HC).
      rewrite (bind_Ok _ _ s3 tt
                 (with_closures (<[c := with_childOb o C]> (closures s3)) s3))
        in Hr by reflexivity.
      split; [done|]. rewrite Hr.
      apply (Hnotify (with_closures (<[c := with_childOb o C]> (closures s3)) s3)).
Qed.

(** ** The claim about [set] *)

Lemma lookup_put_prop k p ps : lookup_prop k (put_prop k p ps) = Some p.
Proof.
  unfold lookup_prop. induction ps as [|[k' p'] ps IH]; simpl.
  - by rewrite bool_decide_eq_true_2.
  - destruct (bool_decide (k' = k)) eqn:Hk; simpl.
    + by rewrite bool_decide_eq_true_2.
    + by rewrite Hk.
Qed.



(** * Further properties of the code *)

(** ** The target stack *)

(** X1: [pushTarget] makes its argument the target; a following [popTarget]
    gives back the stack as it was and makes its top the target, so that
    the store is exactly what it was when the target was the top of the
    stack before; popping an empty stack leaves it empty with no target. *)
Theorem target_stack_round_trip (t : option nat) (s : store) :
  let s1 := store_of (pushTarget t s) in
  let s2 := store_of (popTarget s1) in
  target s1 = t
  /\ targetStack s1 = t :: targetStack s
  /\ stack_top_is_target s1
  /\ targetStack s2 = targetStack s
  /\ target s2 = default None (head (targetStack s))
  /\ (stack_top_is_target s -> s2 = s)
  /\ (targetStack s = [] ->
      target (store_of (popTarget s)) = None
      /\ targetStack (store_of (popTarget s)) = []).
Proof.
  cbv zeta. simpl. repeat split.
  - unfold stack_top_is_target. intros H. rewrite <- H. by destruct s.
  - by rewrite H.
  - by rewrite H.
Qed.

(** ** The target across the engine *)

Lemma keeps_target_refl s : keeps_target s s.
Proof. by intros _. Qed.

Lemma keeps_target_trans s1 s2 s3 :
  keeps_target s1 s2 -> keeps_target s2 s3 -> keeps_target s1 s3.
Proof.
  intros H1 H2 Hs. destruct (H1 Hs) as [Ht Hst].
  destruct H2 as [Ht' Hst'].
  { unfold stack_top_is_target. by rewrite Ht, Hst. }
  split; congruence.
Qed.

Lemma keeps_target_same s s' :
  target s' = target s -> targetStack s' = targetStack s -> keeps_target s s'.
Proof. intros ? ? _. by split. Qed.

Lemma Watcher_get_keeps n w : preserves keeps_target (Watcher_get n w).
Proof.
  intros s Hs. destruct (watchers s !! w) as [W|] eqn:Hw.
  - destruct (Watcher_get_evaluated n w W s Hw) as (evs & s' & Hev & Hres).
    assert (Hs' : store_of (Watcher_get n w s) = s')
      by (destruct Hres as [[v ->]|[e ->]]; reflexivity).
    rewrite Hs'. split.
    + rewrite (evd_target _ _ _ _ _ Hev). by rewrite Hs.
    + apply Hev.
  - unfold Watcher_get.
    rewrite (bind_Thrown _ _ s TypeError s) by (unfold the_watcher; by rewrite Hw).
    by split.
Qed.

Section KeepsTarget.
Let Pb {A B} := @preserves_bind keeps_target keeps_target_trans A B.
Let Pr {A} := @preserves_ret keeps_target keeps_target_refl A.

Lemma Watcher_run_keeps n w : preserves keeps_target (Watcher_run n w).
Proof.
  unfold Watcher_run.
  apply Pb; [apply preserves_the_watcher, keeps_target_refl|]. intros W.
  destruct (active W); [|apply Pr].
  apply Pb; [apply Watcher_get_keeps|]. intros v.
  apply Pb; [apply preserves_the_watcher, keeps_target_refl|]. intros W1.
  destruct (strict_neq v (value W1) || isObject v || deep W1); [|apply Pr].
  apply Pb; [intros s; by apply keeps_target_same|]. intros _.
  assert (Hcb : forall a b, preserves keeps_target (call_cb w W1 a b)).
  { intros a b s. unfold call_cb, bind, modify. simpl.
    destruct (cb W1 a b); simpl; by apply keeps_target_same. }
  destruct (user W1); [|apply Hcb].
  intros s. specialize (Hcb v (value W1) s).
  destruct (call_cb w W1 v (value W1) s) as [a s'|e s']; simpl in *; [done|].
  eapply keeps_target_trans; [exact Hcb|]. by apply keeps_target_same.
Qed.

Lemma Watcher_update_keeps n w : preserves keeps_target (Watcher_update n w).
Proof.
  unfold Watcher_update.
  apply Pb; [intros s; by apply keeps_target_same|]. intros _.
  apply Pb; [apply preserves_the_watcher, keeps_target_refl|]. intros W.
  destruct (lazy W); [intros s; by apply keeps_target_same|].
  destruct (sync W); [apply Watcher_run_keeps|].
  intros s. unfold queueWatcher, modify. simpl.
  destruct (bool_decide (w ∈ queue s)); by apply keeps_target_same.
Qed.

Lemma Dep_notify_keeps n d : preserves keeps_target (Dep_notify n d).
Proof.
  unfold Dep_notify.
  apply Pb; [intros s; by apply keeps_target_same|]. intros _.
  intros s.
  apply (preserves_for_each keeps_target keeps_target_refl keeps_target_trans
           (Watcher_update n) (notify_snapshot s d)).
  intros w. apply Watcher_update_keeps.
Qed.

Lemma Watcher_evaluate_keeps n w : preserves keeps_target (Watcher_evaluate n w).
Proof.
  unfold Watcher_evaluate.
  apply Pb; [apply Watcher_get_keeps|]. intros v.
  apply Pb; [apply preserves_the_watcher, keeps_target_refl|]. intros W.
  intros s. by apply keeps_target_same.
Qed.

Lemma call_getter_keeps n g : preserves keeps_target (call_getter n g).
Proof.
  intros s. destruct (call_getter_frame n g s) as [evs Hf].
  apply keeps_target_same; apply Hf.
Qed.

Lemma observe_keeps n v b : preserves keeps_target (observe n v b).
Proof.
  intros s. pose proof (observe_mono n v b s) as Hm.
  apply keeps_target_same; apply Hm.
Qed.

Lemma reactiveSetter_keeps n rec_setter c val dep cs sh getter setter newVal :
  (forall st v, preserves keeps_target (rec_setter st v)) ->
  preserves keeps_target
    (reactiveSetter n rec_setter c val dep cs sh getter setter newVal).
Proof.
  intros Hrec. unfold reactiveSetter.
  apply Pb; [destruct getter; [apply call_getter_keeps | apply Pr]|]. intros value.
  destruct (_ || _); [apply Pr|].
  apply Pb.
  { intros s. destruct (negb (production (cfg s)) && cs);
      by apply keeps_target_same. }
  intros _. destruct (_ && _); [apply Pr|].
  apply Pb.
  { destruct setter; [apply Hrec|].
    apply Pb; [apply preserves_the_closure, keeps_target_refl|]. intros C s.
    by apply keeps_target_same. }
  intros _. apply Pb; [destruct sh; [apply Pr | apply observe_keeps]|].
  intros childOb.
  apply Pb; [apply preserves_the_closure, keeps_target_refl|]. intros C.
  apply Pb; [intros s; by apply keeps_target_same|]. intros _.
  apply Dep_notify_keeps.
Qed.

Lemma call_setter_keeps n : forall c v, preserves keeps_target (call_setter n c v).
Proof.
  assert (Hbody : forall m rec_setter,
             (forall st v, preserves keeps_target (rec_setter st v)) ->
             forall c v, preserves keeps_target (call_setter_body m rec_setter c v)).
  { intros m rec_setter Hrec c v. unfold call_setter_body.
    apply Pb; [apply preserves_the_closure, keeps_target_refl|].
    intros [st g [f|]|val dep childOb cs sh getter setter].
    - intros s. by apply keeps_target_same.
    - apply Pr.
    - by apply reactiveSetter_keeps. }
  induction n as [|n IH]; intros c v; simpl.
  - apply Hbody. intros ? ? ?. apply keeps_target_refl.
  - by apply Hbody.
Qed.

Lemma prop_set_keeps n o k v : preserves keeps_target (prop_set n o k v).
Proof.
  unfold prop_set.
  apply Pb; [apply preserves_the_obj, keeps_target_refl|]. intros x.
  destruct (lookup_prop k (props x)) as [[v0 w e c|c e cf]|].
  - destruct w; [intros s; by apply keeps_target_same|].
    intros s. apply keeps_target_refl.
  - intros s. destruct (descriptor_set _ s);
      [apply call_setter_keeps | apply keeps_target_refl].
  - intros s.
    destruct (bool_decide (k = KName "length") && bool_decide (cls x = CArray)).
    + destruct v; try apply keeps_target_refl.
      destruct (bool_decide _);
        [by apply keeps_target_same | apply keeps_target_refl].
    + destruct (extensible x); [|apply keeps_target_refl].
      by apply keeps_target_same.
Qed.
End KeepsTarget.

(** X2: when [Dep.target] is the top of the target stack, it still is, and
    both are what they were, after [get()], [run()], [update()],
    [evaluate()], [notify()] and a write to a property, whatever these
    trigger and whether they return or throw. *)
Theorem engine_keeps_target (n : nat) (s : store) :
  stack_top_is_target s ->
  (forall w, target_kept s (store_of (Watcher_get n w s)))
  /\ (forall w, target_kept s (store_of (Watcher_run n w s)))
  /\ (forall w, target_kept s (store_of (Watcher_update n w s)))
  /\ (forall w, target_kept s (store_of (Watcher_evaluate n w s)))
  /\ (forall d, target_kept s (store_of (Dep_notify n d s)))
  /\ (forall o k v, target_kept s (store_of (prop_set n o k v s))).
Proof.
  intros Hs. repeat split.
  all: try (by apply Watcher_get_keeps).
  all: try (by apply Watcher_run_keeps).
  all: try (by apply Watcher_update_keeps).
  all: try (by apply Watcher_evaluate_keeps).
  all: try (by apply Dep_notify_keeps).
  all: by apply prop_set_keeps.
Qed.

(** ** [addDep] *)

(** X3: [addDep(dep)] records the dependency in the collecting generation, and
    subscribes the watcher unless the previous generation already holds
    the dependency; the subscriber list of no other dependency changes; and
    a second [addDep] of the same dependency changes nothing. *)
Theorem addDep_idempotent (w d : nat) (W : Watcher) (s : store) :
  watchers s !! w = Some W ->
  exists s1 W1,
    Watcher_addDep w d s = Ok tt s1
    /\ watchers s1 !! w = Some W1
    /\ d ∈ newDepIds W1
    /\ (d ∈ newDepIds W \/ d ∈ depIds W -> subs s1 = subs s)
    /\ (d ∉ newDepIds W -> d ∉ depIds W -> subs_of s1 d = subs_of s d ++ [w])
    /\ (forall d', d' ≠ d -> subs_of s1 d' = subs_of s d')
    /\ Watcher_addDep w d s1 = Ok tt s1.
Proof.
  intros Hw. unfold Watcher_addDep.
  rewrite (bind_Ok _ _ s W s) by (by apply the_watcher_Ok).
  destruct (bool_decide (d ∈ newDepIds W)) eqn:Hn.
  - apply bool_decide_eq_true in Hn. exists s, W.
    split; [done|]. split; [done|]. split; [done|]. split; [done|].
    split; [done|]. split; [done|].
    rewrite (bind_Ok _ _ s W s) by (by apply the_watcher_Ok).
    by rewrite bool_decide_eq_true_2.
  - apply bool_decide_eq_false in Hn.
    set (W1 := with_collected (newDeps W ++ [d]) ({[d]} ∪ newDepIds W) W).
    set (s0 := with_watchers (<[w := W1]> (watchers s)) s).
    rewrite (bind_Ok _ _ s tt s0) by reflexivity.
    assert (Hin : d ∈ newDepIds W1) by (simpl; set_solver).
    destruct (bool_decide (d ∈ depIds W)) eqn:Hd.
    + exists s0, W1. split; [done|].
      split; [simpl; apply lookup_insert_eq|]. split; [done|].
      split; [done|]. apply bool_decide_eq_true in Hd. split; [done|].
      split; [done|].
      rewrite (bind_Ok _ _ s0 W1 s0)
        by (apply the_watcher_Ok; simpl; apply lookup_insert_eq).
      by rewrite bool_decide_eq_true_2.
    + apply bool_decide_eq_false in Hd.
      exists (with_subs (<[d := subs_of s0 d ++ [w]]> (subs s0)) s0), W1.
      split; [done|]. split; [simpl; apply lookup_insert_eq|]. split; [done|].
      split; [intros [?|?]; done|].
      split; [intros _ _; unfold subs_of at 1; simpl; by rewrite lookup_insert_eq|].
      split; [intros d' Hne; unfold subs_of at 1; simpl;
              by rewrite lookup_insert_ne|].
      rewrite (bind_Ok _ _ _ W1 _)
        by (apply the_watcher_Ok; simpl; apply lookup_insert_eq).
      by rewrite bool_decide_eq_true_2.
Qed.

(** ** The agreement of subscriber lists and [deps] *)

Lemma remove_n_other k l w x : x ≠ w -> x ∈ remove_n k l w <-> x ∈ l.
Proof.
  intros Hne. split; [apply remove_n_subseteq|].
  revert l. induction k as [|k IH]; simpl; intros l Hl; [done|].
  apply IH. by apply util_remove_other.
Qed.

Lemma remove_n_NoDup_keeps k l w : NoDup l -> NoDup (remove_n k l w).
Proof.
  revert l. induction k as [|k IH]; simpl; intros l Hl; [done|].
  apply IH. by apply util_remove_NoDup.
Qed.

Lemma elem_of_dropped d ndi old : d ∈ dropped ndi old <-> d ∈ old /\ d ∉ ndi.
Proof.
  unfold dropped. rewrite list_elem_of_In, filter_In, <- list_elem_of_In.
  rewrite elem_of_reverse, negb_true_iff, bool_decide_eq_false. done.
Qed.

(** What an evaluation does to the subscriber list of each dependency,
    for a watcher that was [subscribed]. *)
Lemma evaluated_subs w W s s' evs d :
  evaluated w W s s' evs ->
  newDeps W = [] -> newDepIds W = ∅ ->
  depIds W = list_to_set (deps W) ->
  NoDup (subs_of s d) ->
  (w ∈ subs_of s d <-> d ∈ deps W) ->
  NoDup (subs_of s' d)
  /\ (w ∈ subs_of s' d <-> d ∈ touched evs)
  /\ forall x, x ≠ w -> x ∈ subs_of s' d <-> x ∈ subs_of s d.
Proof.
  intros Hev Hnd Hndi Hids Hnodup Hiff.
  rewrite (evd_subs _ _ _ _ _ Hev).
  assert (HN : forall x, x ∈ newDepIds (collect_all (touched evs) W) <-> x ∈ touched evs).
  { intros x. rewrite collect_all_newDepIds, Hndi. set_solver. }
  assert (HD : d ∈ depIds W <-> d ∈ deps W)
    by (rewrite Hids; apply elem_of_list_to_set).
  destruct (decide (d ∈ touched evs)) as [Ht|Ht].
  - rewrite occurrences_zero; [|rewrite elem_of_dropped, HN; tauto]. simpl.
    destruct (decide (d ∈ touched evs /\ (d ∉ newDepIds W) /\ d ∉ depIds W))
      as [(_ & _ & H3)|H].
    + assert (Hw : w ∉ subs_of s d) by (rewrite Hiff, <- HD; done).
      split; [|split].
      * apply NoDup_app. split; [done|]. split; [|apply NoDup_singleton].
        intros x Hx Hx'. apply list_elem_of_singleton in Hx' as ->. done.
      * split; [done|]. intros _. apply elem_of_app. right. left.
      * intros x Hx. rewrite elem_of_app, list_elem_of_singleton. tauto.
    + rewrite app_nil_r. split; [done|]. split; [|done].
      split; [done|]. intros _. apply Hiff, HD.
      destruct (decide (d ∈ depIds W)) as [?|Hno]; [done|].
      exfalso. apply H. rewrite Hndi. set_solver.
  - rewrite decide_False by tauto. rewrite app_nil_r.
    split; [by apply remove_n_NoDup_keeps|]. split.
    + split; [|done]. intros Hin. exfalso.
      destruct (decide (d ∈ deps W)) as [Hd|Hd].
      * rewrite remove_n_NoDup in Hin; [|done|].
        -- by apply (util_remove_NoDup (subs_of s d) w).
        -- apply occurrences_pos, elem_of_dropped. rewrite HN. done.
      * apply remove_n_subseteq in Hin. by apply Hd, Hiff.
    + intros x Hx. by apply remove_n_other.
Qed.

(** What an evaluation does to a watcher that was [subscribed]. *)
Lemma evaluated_subscribed w W s s' evs :
  evaluated w W s s' evs ->
  watchers s !! w = Some W ->
  subscribed w s ->
  subscribed w s'
  /\ forall x d, x ≠ w -> x ∈ subs_of s' d <-> x ∈ subs_of s d.
Proof.
  intros Hev Hw (W0 & Hw0 & Hnd & Hndi & Hids & Hnodup & Hsubs).
  rewrite Hw in Hw0. injection Hw0 as <-.
  set (Wc := collect_all (touched evs) W).
  assert (Hin : forall d, d ∈ newDeps Wc <-> d ∈ touched evs).
  { intros d. unfold Wc. rewrite collect_all_newDeps, Hnd, Hndi.
    split; [intros [H|[H _]]; [by apply elem_of_nil in H | done]|].
    intros H. right. split; [done | set_solver]. }
  split.
  - exists (with_generations (newDeps Wc) [] (newDepIds Wc) ∅ W).
    split; [rewrite (evd_watchers _ _ _ _ _ Hev); apply lookup_insert_eq|].
    split; [done|]. split; [done|]. split.
    { simpl. unfold Wc at 1. rewrite collect_all_newDepIds, Hndi.
      apply set_eq. intros d. rewrite elem_of_union, !elem_of_list_to_set, Hin.
      set_solver. }
    split.
    { simpl. unfold Wc. apply collect_all_NoDup.
      - rewrite Hnd. constructor.
      - rewrite Hnd. intros d H. by apply elem_of_nil in H. }
    intros d. destruct (Hsubs d) as [H1 H2].
    destruct (evaluated_subs w W s s' evs d Hev Hnd Hndi Hids H1 H2) as (H3 & H4 & _).
    split; [done|]. simpl. by rewrite H4, Hin.
  - intros x d Hx. destruct (Hsubs d) as [H1 H2].
    by apply (evaluated_subs w W s s' evs d Hev Hnd Hndi Hids H1 H2).
Qed.

Lemma Watcher_get_subscribed n w s :
  subscribed w s -> subscribed w (store_of (Watcher_get n w s)).
Proof.
  intros Hsub. pose proof Hsub as (W & Hw & _).
  destruct (Watcher_get_evaluated n w W s Hw) as (evs & s' & Hev & Hres).
  assert (Hs' : store_of (Watcher_get n w s) = s')
    by (destruct Hres as [[v ->]|[e ->]]; reflexivity).
  rewrite Hs'. by apply (evaluated_subscribed w W s s' evs).
Qed.

(** A decidable criterion for [subscribed], for stores given in full. *)
Lemma subscribed_check w W s :
  watchers s !! w = Some W ->
  newDeps W = [] -> newDepIds W = ∅ ->
  depIds W = list_to_set (deps W) ->
  NoDup (deps W) ->
  map_Forall (fun d l => NoDup l /\ (w ∈ l <-> d ∈ deps W)) (subs s) ->
  Forall (fun d => is_Some (subs s !! d)) (deps W) ->
  subscribed w s.
Proof.
  clear traverse parsePath.
  intros Hw H1 H2 H3 H4 H5 H6. exists W. repeat (split; [done|]).
  intros d. unfold subs_of. destruct (subs s !! d) as [l|] eqn:Hd; simpl.
  - by apply (H5 d l).
  - split; [constructor|]. split; [intros H; by apply elem_of_nil in H|].
    intros Hin. rewrite Forall_forall in H6. destruct (H6 d Hin) as [l Hl]. congruence.
Qed.



(** ** What [notify] does to its subscribers *)

Lemma Watcher_run_effect n x s :
  let s' := store_of (Watcher_run n x s) in
  (forall w, w ≠ x -> watchers s' !! w = watchers s !! w)
  /\ (forall W, watchers s !! x = Some W ->
        exists W', watchers s' !! x = Some W'
                   /\ lazy W' = lazy W /\ sync W' = sync W)
  /\ queue s' = queue s.
Proof.
  cbv zeta. remember (Watcher_run n x s) as r eqn:Hr.
  unfold Watcher_run, bind at 1, the_watcher at 1 in Hr.
  destruct (watchers s !! x) as [W|] eqn:Hw; [|subst r; simpl; by repeat split].
  destruct (active W);
    [|subst r; simpl; split; [done|split; [|done]]; intros W0 [= <-]; by exists W].
  destruct (Watcher_get_evaluated n x W s Hw) as (evs & s1 & Hev & [[v Hg]|[e Hg]]).
  2:{ rewrite (bind_Thrown _ _ _ _ _ Hg) in Hr. subst r. simpl.
      rewrite (evd_watchers _ _ _ _ _ Hev).
      split; [intros w Hne; by rewrite lookup_insert_ne|].
      split; [|apply Hev]. intros W0 [= <-]. rewrite lookup_insert_eq. by eexists. }
  rewrite (bind_Ok _ _ _ _ _ Hg) in Hr.
  unfold bind at 1, the_watcher at 1 in Hr.
  rewrite (evd_watchers _ _ _ _ _ Hev), lookup_insert_eq in Hr.
  match type of Hr with context [if ?c then _ else _] => destruct c end.
  2:{ subst r. simpl. rewrite (evd_watchers _ _ _ _ _ Hev).
      split; [intros w Hne; by rewrite lookup_insert_ne|].
      split; [|apply Hev]. intros W0 [= <-]. rewrite lookup_insert_eq. by eexists. }
  match type of Hr with context [set_watcher x ?X] =>
    rewrite (bind_Ok _ _ s1 tt (with_watchers (<[x := X]> (watchers s1)) s1))
      in Hr by reflexivity
  end.
  simpl in Hr. unfold call_cb, bind, modify, handleError in Hr. simpl in Hr.
  destruct (user W); simpl in Hr; destruct (cb W _ _); simpl in Hr; subst r; simpl;
    rewrite (evd_watchers _ _ _ _ _ Hev);
    (split; [intros w Hne; by rewrite !lookup_insert_ne by done|]);
    (split; [|apply Hev]); intros W0 [= <-]; rewrite lookup_insert_eq; by eexists.
Qed.

Lemma Watcher_update_effect n x s :
  let r := Watcher_update n x s in
  (forall w, w ≠ x -> watchers (store_of r) !! w = watchers s !! w)
  /\ (forall W, watchers s !! x = Some W ->
        exists W', watchers (store_of r) !! x = Some W'
                   /\ lazy W' = lazy W /\ sync W' = sync W
                   /\ (lazy W = true -> W' = with_dirty true W)
                   /\ (lazy W = false -> sync W = false -> x ∈ queue (store_of r)))
  /\ (is_ok r = true -> is_Some (watchers s !! x))
  /\ (forall q, q ∈ queue s -> q ∈ queue (store_of r))
  /\ (forall q, q ∈ queue (store_of r) ->
        q ∈ queue s
        \/ (q = x /\ exists W, watchers s !! x = Some W
                               /\ lazy W = false /\ sync W = false))
  /\ (NoDup (queue s) -> NoDup (queue (store_of r))).
Proof.
  cbv zeta. remember (Watcher_update n x s) as r eqn:Hr.
  unfold Watcher_update in Hr.
  rewrite (bind_Ok _ _ s tt (log (EvUpdate x) s)) in Hr by reflexivity.
  unfold bind at 1, the_watcher at 1 in Hr. simpl in Hr.
  destruct (watchers s !! x) as [W|] eqn:Hw;
    [|subst r; simpl; repeat split; try done; by left].
  destruct (lazy W) eqn:Hl.
  { subst r. simpl. split; [intros w Hne; by rewrite lookup_insert_ne|].
    split.
    { intros W0 [= <-]. rewrite lookup_insert_eq.
      exists (with_dirty true W). split; [done|]. split; [done|]. split; [done|].
      split; [done|]. intros; congruence. }
    split; [by eauto|]. split; [done|]. split; [by left | done]. }
  destruct (sync W) eqn:Hsy.
  - destruct (Watcher_run_effect n x (log (EvUpdate x) s)) as (H1 & H2 & H3).
    rewrite <- Hr in *. simpl in *.
    split; [done|]. split.
    { intros W0 [= <-]. destruct (H2 W Hw) as (W' & HW' & ? & ?).
      exists W'. repeat split; try done; congruence. }
    split; [by eauto|]. rewrite H3. split; [done|]. split; [by left | done].
  - subst r. unfold queueWatcher, modify. simpl.
    destruct (bool_decide (x ∈ queue s)) eqn:Hq; simpl.
    + apply bool_decide_eq_true in Hq. split; [done|]. split.
      { intros W0 [= <-]. exists W. split; [done|]. split; [done|]. split; [done|].
        split; [intros; congruence | done]. }
      split; [by eauto|]. split; [done|]. split; [by left | done].
    + apply bool_decide_eq_false in Hq. split; [done|]. split.
      { intros W0 [= <-]. exists W. split; [done|]. split; [done|]. split; [done|].
        split; [intros; congruence|].
        intros _ _. apply elem_of_app. right. left. }
      split; [by eauto|]. split; [|split].
      * intros q Hin. apply elem_of_app. by left.
      * intros q Hin. apply elem_of_app in Hin as [Hin|Hin]; [by left|].
        apply list_elem_of_singleton in Hin as ->. right. split; [done|].
        by exists W.
      * intros Hnd. apply NoDup_app. split; [done|].
        split; [|apply NoDup_singleton].
        intros q Hin Hin'. apply list_elem_of_singleton in Hin' as ->. done.
Qed.

Lemma updates_effect n L : forall s,
  let r := for_each (Watcher_update n) L s in
  (forall w, w ∉ L -> watchers (store_of r) !! w = watchers s !! w)
  /\ (forall w W, watchers s !! w = Some W ->
        exists W', watchers (store_of r) !! w = Some W'
                   /\ lazy W' = lazy W /\ sync W' = sync W
                   /\ (lazy W = true -> W' = W \/ W' = with_dirty true W)
                   /\ (is_ok r = true -> w ∈ L ->
                       (lazy W = true -> W' = with_dirty true W)
                       /\ (lazy W = false -> sync W = false ->
                           w ∈ queue (store_of r))))
  /\ (forall q, q ∈ queue s -> q ∈ queue (store_of r))
  /\ (forall q, q ∈ queue (store_of r) ->
        q ∈ queue s
        \/ (q ∈ L /\ exists W, watchers s !! q = Some W
                               /\ lazy W = false /\ sync W = false))
  /\ (NoDup (queue s) -> NoDup (queue (store_of r))).
Proof.
  induction L as [|x L IH]; intros s; cbv zeta.
  - simpl. split; [done|]. split; [|split; [done | split; [by left | done]]].
    intros w W Hw. exists W. split; [done|]. split; [done|]. split; [done|].
    split; [by left|]. intros _ Hin. by apply elem_of_nil in Hin.
  - simpl. unfold bind.
    destruct (Watcher_update_effect n x s) as (H1 & H2 & Hex & H3 & Hq & H4).
    destruct (Watcher_update n x s) as [[] s1|e s1]; simpl in *.
    + destruct (IH s1) as (I1 & I2 & I3 & Iq & I4). cbv zeta in *.
      split; [|split; [|split; [|split]]].
      * intros w Hw. apply not_elem_of_cons in Hw as [Hne Hw].
        rewrite I1 by done. by apply H1.
      * intros w W Hw.
        destruct (decide (w = x)) as [->|Hne].
        -- destruct (H2 W Hw) as (W1 & HW1 & Hl1 & Hs1 & Hd1 & Hq1).
           destruct (I2 x W1 HW1) as (W2 & HW2 & Hl2 & Hs2 & Hd2 & Hin2).
           exists W2. split; [done|]. split; [congruence|]. split; [congruence|].
           assert (Hdirty : lazy W = true -> W2 = with_dirty true W).
           { intros Hl. specialize (Hd1 Hl). subst W1.
             destruct Hd2 as [-> | ->]; done. }
           split; [intros Hl; right; by apply Hdirty|].
           intros Hok _. split; [done|].
           intros Hl Hsy. apply I3. by apply Hq1.
        -- rewrite <- (H1 w Hne) in Hw.
           destruct (I2 w W Hw) as (W2 & HW2 & Hl2 & Hs2 & Hd2 & Hin2).
           exists W2. split; [done|]. split; [done|]. split; [done|].
           split; [done|]. intros Hok Hin. apply Hin2; [done|].
           apply elem_of_cons in Hin as [?|?]; done.
      * intros q Hin. by apply I3, H3.
      * intros q Hin. destruct (Iq q Hin) as [Hin1|(HinL & W1 & HW1 & Hl1 & Hs1)].
        -- destruct (Hq q Hin1) as [?|(-> & W & HW & ? & ?)]; [by left|].
           right. split; [left | by exists W].
        -- right. split; [by right|].
           destruct (decide (q = x)) as [->|Hne].
           ++ destruct (Hex eq_refl) as [W HW].
              destruct (H2 W HW) as (W' & HW' & Hl' & Hs' & _).
              rewrite HW1 in HW'. injection HW' as <-.
              exists W. split; [done|]. split; congruence.
           ++ exists W1. by rewrite <- (H1 q Hne).
      * intros Hnd. by apply I4, H4.
    + split; [|split; [|split; [done|split; [|done]]]].
      * intros w Hw. apply not_elem_of_cons in Hw as [Hne Hw]. by apply H1.
      * intros w W Hw. destruct (decide (w = x)) as [->|Hne].
        -- destruct (H2 W Hw) as (W1 & HW1 & Hl1 & Hs1 & Hd1 & Hq1).
           exists W1. split; [done|]. split; [done|]. split; [done|].
           split; [intros Hl; right; by apply Hd1|]. intros Hok. done.
        -- exists W. rewrite (H1 w Hne). split; [done|]. split; [done|].
           split; [done|]. split; [by left|]. intros Hok. done.
      * intros q Hin. destruct (Hq q Hin) as [?|(-> & W & HW & ? & ?)]; [by left|].
        right. split; [left | by exists W].
Qed.

Lemma Dep_notify_effect n d s :
  let r := Dep_notify n d s in
  (forall w W, w ∈ subs_of s d -> watchers s !! w = Some W -> is_ok r = true ->
     (lazy W = true -> watchers (store_of r) !! w = Some (with_dirty true W))
     /\ (lazy W = false -> sync W = false -> w ∈ queue (store_of r)))
  /\ (forall w, w ∉ subs_of s d -> watchers (store_of r) !! w = watchers s !! w)
  /\ (forall q, q ∈ queue (store_of r) -> q ∈ queue s \/ q ∈ subs_of s d).
Proof.
  cbv zeta. unfold Dep_notify.
  rewrite (bind_Ok _ _ s tt (log (EvNotify d) s)) by reflexivity.
  change (notify_snapshot (log (EvNotify d) s) d) with (notify_snapshot s d).
  destruct (updates_effect n (notify_snapshot s d) (log (EvNotify d) s))
    as (H1 & H2 & _ & Hq & _).
  cbv zeta in *. simpl in H1, H2, Hq.
  split; [|split].
  - intros w W Hin Hw Hok.
    destruct (H2 w W Hw) as (W' & HW' & _ & _ & _ & Hfin).
    destruct Hfin as [Hd Hqueue]; [done | by rewrite notify_snapshot_perm|].
    split; [|done]. intros Hl. rewrite HW'. f_equal. by apply Hd.
  - intros w Hw. apply H1. by rewrite notify_snapshot_perm.
  - intros q Hin. destruct (Hq q Hin) as [?|[HinL _]]; [by left | right].
    by rewrite <- (notify_snapshot_perm s d).
Qed.

(** [update()] of a watcher that is lazy or not synchronous: it is marked
    dirty, or queued, and nothing is run. *)
Lemma Watcher_update_quiet n w W s :
  watchers s !! w = Some W ->
  lazy W = true \/ sync W = false ->
  exists s',
    Watcher_update n w s = Ok tt s'
    /\ watchers s' = (if lazy W then <[w := with_dirty true W]> (watchers s)
                      else watchers s)
    /\ queue s' = (if lazy W || bool_decide (w ∈ queue s) then queue s
                   else queue s ++ [w])
    /\ subs s' = subs s /\ objs s' = objs s /\ closures s' = closures s
    /\ observers s' = observers s /\ target s' = target s
    /\ trace s' = trace s ++ [EvUpdate w].
Proof.
  intros Hw Hq. unfold Watcher_update.
  rewrite (bind_Ok _ _ s tt (log (EvUpdate w) s)) by reflexivity.
  rewrite (bind_Ok _ _ _ W (log (EvUpdate w) s)) by (by apply the_watcher_Ok).
  destruct (lazy W) eqn:Hl.
  - eexists. split; [reflexivity|]. simpl. by repeat split.
  - destruct Hq as [?|Hs]; [done|]. rewrite Hs.
    unfold queueWatcher, modify. simpl.
    destruct (bool_decide (w ∈ queue s)); eexists; (split; [reflexivity|]);
      simpl; by repeat split.
Qed.

Lemma updates_quiet n L : forall s,
  (forall w, w ∈ L ->
     exists W, watchers s !! w = Some W /\ (lazy W = true \/ sync W = false)) ->
  exists s',
    for_each (Watcher_update n) L s = Ok tt s'
    /\ (forall w, watchers s' !! w
                  = (fun W => if bool_decide (w ∈ L) && lazy W
                              then with_dirty true W else W)
                      <$> watchers s !! w)
    /\ (forall q, q ∈ queue s' <->
                  q ∈ queue s
                  \/ (q ∈ L /\ exists W, watchers s !! q = Some W /\ lazy W = false))
    /\ (NoDup (queue s) -> NoDup (queue s'))
    /\ subs s' = subs s /\ objs s' = objs s /\ closures s' = closures s
    /\ observers s' = observers s /\ target s' = target s
    /\ trace s' = trace s ++ (EvUpdate <$> L).
Proof.
  induction L as [|a L IH]; intros s Hall.
  - exists s. split; [done|]. split.
    { intros w. by destruct (watchers s !! w). }
    split.
    { intros q. split; [by left|]. intros [?|[Hin _]]; [done|].
      by apply elem_of_nil in Hin. }
    split; [done|]. simpl. by rewrite app_nil_r.
  - destruct (Hall a) as (Wa & Ha & Hqa); [left|].
    destruct (Watcher_update_quiet n a Wa s Ha Hqa)
      as (s1 & Hs1 & Hw1 & Hq1 & Hsu1 & Ho1 & Hc1 & Hob1 & Ht1 & Htr1).
    assert (Hlook : forall w,
               watchers s1 !! w
               = (fun W => if bool_decide (w = a) && lazy W
                           then with_dirty true W else W) <$> watchers s !! w).
    { intros w. rewrite Hw1. destruct (decide (w = a)) as [->|Hne].
      - rewrite Ha. simpl. rewrite bool_decide_eq_true_2 by done. simpl.
        destruct (lazy Wa); [by rewrite lookup_insert_eq | done].
      - rewrite (bool_decide_eq_false_2 _ Hne).
        destruct (lazy Wa); [rewrite lookup_insert_ne by done|];
          by destruct (watchers s !! w). }
    assert (Hlazy : forall q,
               (exists W, watchers s1 !! q = Some W /\ lazy W = false)
               <-> (exists W, watchers s !! q = Some W /\ lazy W = false)).
    { intros q. rewrite Hlook. destruct (watchers s !! q) as [W|]; simpl.
      - split.
        + intros (W1 & [= <-] & Hl). exists W. split; [done|].
          by destruct (bool_decide (q = a) && lazy W).
        + intros (W1 & [= <-] & Hl). eexists. split; [done|].
          rewrite Hl, andb_false_r. done.
      - split; intros (W1 & ? & _); done. }
    destruct (IH s1) as (s' & Hs' & Hw' & Hq' & Hnd' & Hsu' & Ho' & Hc' & Hob' & Ht' & Htr').
    { intros w Hin. destruct (Hall w) as (W & HW & Hq); [by right|].
      rewrite Hlook, HW. simpl. eexists. split; [done|].
      by destruct (bool_decide (w = a) && lazy W). }
    exists s'. split.
    { simpl. by rewrite (bind_Ok _ _ s tt s1). }
    split.
    { intros w. rewrite Hw', Hlook.
      destruct (watchers s !! w) as [W|]; [|done]. simpl. f_equal.
      destruct (decide (w = a)) as [->|Hne].
      - rewrite (bool_decide_eq_true_2 (a = a)) by done.
        rewrite (bool_decide_eq_true_2 (a ∈ a :: L)) by left. simpl.
        destruct (lazy W) eqn:Hl; simpl.
        + rewrite Hl. by destruct (bool_decide (a ∈ L)).
        + rewrite Hl. by rewrite andb_false_r.
      - rewrite (bool_decide_eq_false_2 (w = a)) by done. simpl.
        destruct (decide (w ∈ L)) as [Hin|Hnin].
        + rewrite !bool_decide_eq_true_2; [done | by right | done].
        + rewrite !bool_decide_eq_false_2; [done | | done].
          intros Hin. apply elem_of_cons in Hin as [?|?]; done. }
    split.
    { intros q. rewrite Hq', Hlazy, Hq1. split.
      - intros [Hin|[Hin HW]]; [|right; split; [by right | done]].
        destruct (lazy Wa || bool_decide (a ∈ queue s)) eqn:Hb; [by left|].
        apply elem_of_app in Hin as [?|Hin]; [by left|].
        apply list_elem_of_singleton in Hin as ->.
        right. split; [left|]. exists Wa. split; [done|].
        by apply orb_false_elim in Hb as [? _].
      - intros [Hin|[Hin HW]].
        + left. destruct (lazy Wa || bool_decide (a ∈ queue s)); [done|].
          apply elem_of_app. by left.
        + apply elem_of_cons in Hin as [->|Hin]; [|right; by split].
          left. destruct HW as (W & HW & Hl). rewrite Ha in HW. injection HW as <-.
          rewrite Hl. simpl.
          destruct (bool_decide (a ∈ queue s)) eqn:Hb.
          * by apply bool_decide_eq_true in Hb.
          * apply elem_of_app. right. left. }
    split.
    { intros Hnd. apply Hnd'. rewrite Hq1.
      destruct (lazy Wa || bool_decide (a ∈ queue s)) eqn:Hb; [done|].
      apply orb_false_elim in Hb as [_ Hb]. apply bool_decide_eq_false in Hb.
      apply NoDup_app. split; [done|]. split; [|apply NoDup_singleton].
      intros q Hin Hin'. by apply list_elem_of_singleton in Hin' as ->. }
    split; [congruence|]. split; [congruence|]. split; [congruence|].
    split; [congruence|]. split; [congruence|].
    rewrite Htr', Htr1. simpl. by rewrite <- app_assoc.
Qed.

(** A criterion that can be computed. *)
Lemma no_sync_subscriber_check d s :
  forallb (fun w => match watchers s !! w with
                    | Some W => lazy W || negb (sync W)
                    | None => false
                    end) (subs_of s d) = true ->
  no_sync_subscriber d s.
Proof.
  clear traverse parsePath.
  intros H w Hin. rewrite forallb_forall in H.
  specialize (H w (proj1 (list_elem_of_In _ _) Hin)).
  destruct (watchers s !! w) as [W|]; [|done].
  exists W. split; [done|].
  destruct (lazy W); [by left | right]. by destruct (sync W).
Qed.

(** X5: [notify()] of a dependency none of whose subscribers is run
    synchronously (each is lazy or not synchronous) returns, having called
    [update()] on each subscriber of the snapshot in order and nothing
    else: every lazy subscriber has been marked dirty and is otherwise
    untouched (it is not evaluated), every other subscriber is unchanged
    and in the scheduler's queue, and every other watcher is unchanged;
    the queue holds what it held and the subscribers that are not lazy,
    none twice if it held none twice; no subscriber list, object,
    accessor, observer or target changes. *)
Theorem notify_marks_and_queues (n : nat) (d : nat) (s : store) :
  no_sync_subscriber d s ->
  exists s',
    Dep_notify n d s = Ok tt s'
    /\ (forall w W, w ∈ subs_of s d -> watchers s !! w = Some W ->
          if lazy W then watchers s' !! w = Some (with_dirty true W)
          else watchers s' !! w = Some W /\ w ∈ queue s')
    /\ (forall w, w ∉ subs_of s d -> watchers s' !! w = watchers s !! w)
    /\ (forall q, q ∈ queue s' <->
                  q ∈ queue s
                  \/ (q ∈ subs_of s d
                      /\ exists W, watchers s !! q = Some W /\ lazy W = false))
    /\ (NoDup (queue s) -> NoDup (queue s'))
    /\ subs s' = subs s /\ objs s' = objs s /\ closures s' = closures s
    /\ observers s' = observers s /\ target s' = target s
    /\ trace s' = trace s ++ EvNotify d :: (EvUpdate <$> notify_snapshot s d).
Proof.
  intros Hquiet. unfold Dep_notify.
  rewrite (bind_Ok _ _ s tt (log (EvNotify d) s)) by reflexivity.
  change (notify_snapshot (log (EvNotify d) s) d) with (notify_snapshot s d).
  destruct (updates_quiet n (notify_snapshot s d) (log (EvNotify d) s))
    as (s' & Hs' & Hw' & Hq' & Hnd' & Hsu' & Ho' & Hc' & Hob' & Ht' & Htr').
  { intros w Hin. apply Hquiet. by rewrite <- (notify_snapshot_perm s d). }
  simpl in Hw', Hq', Hnd', Hsu', Ho', Hc', Hob', Ht', Htr'.
  exists s'. split; [done|]. split.
  { intros w W Hin HW. rewrite <- (notify_snapshot_perm s d) in Hin.
    specialize (Hw' w). rewrite HW in Hw'. simpl in Hw'.
    rewrite (bool_decide_eq_true_2 _ Hin) in Hw'. simpl in Hw'.
    destruct (lazy W) eqn:Hl; [done|]. split; [done|].
    apply Hq'. right. split; [done|]. by exists W. }
  split.
  { intros w Hnin. rewrite Hw'.
    destruct (watchers s !! w) as [W|]; [|done]. simpl.
    rewrite bool_decide_eq_false_2; [done|]. by rewrite notify_snapshot_perm. }
  split.
  { intros q. rewrite Hq'. by rewrite notify_snapshot_perm. }
  split; [done|]. split; [done|]. split; [done|]. split; [done|].
  split; [done|]. split; [done|].
  rewrite Htr'. by rewrite <- app_assoc.
Qed.

(** ** The constructor *)


Lemma subscribed_log w e s : subscribed w s -> subscribed w (log e s).
Proof. intros (W & H). by exists W. Qed.


(** ** Lazy watchers: [evaluate], invalidation and [depend] *)

Lemma subscribed_update w W W' s :
  watchers s !! w = Some W ->
  deps W' = deps W -> newDeps W' = newDeps W ->
  depIds W' = depIds W -> newDepIds W' = newDepIds W ->
  subscribed w s ->
  subscribed w (with_watchers (<[w := W']> (watchers s)) s).
Proof.
  intros Hw H1 H2 H3 H4 (W0 & Hw0 & H). rewrite Hw in Hw0. injection Hw0 as <-.
  exists W'. split; [simpl; apply lookup_insert_eq|].
  rewrite H1, H2, H3, H4. exact H.
Qed.

(** X7: [evaluate()] of a lazy watcher whose subscriptions are in order.  When
    [get()] throws, so does [evaluate()], and the watcher keeps its cached
    value and stays as dirty as it was.  When [get()] returns [v], the
    watcher caches [v] and is clean; it stays subscribed to what it read,
    and the next [notify()] of any dependency it holds that returns marks
    it dirty again while the cached value stays. *)
Theorem evaluate_caches_until_notified (n m : nat) (w : nat) (W : Watcher) (s : store) :
  subscribed w s ->
  watchers s !! w = Some W ->
  lazy W = true ->
  (forall e s0, Watcher_get n w s = Thrown e s0 ->
     Watcher_evaluate n w s = Thrown e s0
     /\ (dirty <$> watchers s0 !! w) = Some (dirty W)
     /\ (value <$> watchers s0 !! w) = Some (value W))
  /\ (forall v s0, Watcher_get n w s = Ok v s0 ->
      exists s1 W1,
        Watcher_evaluate n w s = Ok tt s1
        /\ watchers s1 !! w = Some W1
        /\ value W1 = v /\ dirty W1 = false
        /\ subscribed w s1
        /\ forall d, d ∈ deps W1 ->
             let r := Dep_notify m d s1 in
             is_ok r = true ->
             watchers (store_of r) !! w = Some (with_dirty true W1)
             /\ value (with_dirty true W1) = v).
Proof.
  intros Hsub Hw Hlazy.
  destruct (Watcher_get_evaluated n w W s Hw) as (evs & s0' & Hev & Hres).
  pose proof (Watcher_get_subscribed n w s Hsub) as Hsub0.
  set (Wg := with_generations (newDeps (collect_all (touched evs) W)) []
               (newDepIds (collect_all (touched evs) W)) ∅ W) in *.
  assert (Hwg : watchers s0' !! w = Some Wg)
    by (rewrite (evd_watchers _ _ _ _ _ Hev); apply lookup_insert_eq).
  split.
  - intros e s0 Hg. assert (s0' = s0) as ->
      by (destruct Hres as [[? H]|[? H]]; rewrite H in Hg; congruence).
    split; [unfold Watcher_evaluate; by rewrite (bind_Thrown _ _ _ _ _ Hg)|].
    by rewrite Hwg.
  - intros v s0 Hg. assert (s0' = s0) as ->
      by (destruct Hres as [[? H]|[? H]]; rewrite H in Hg; congruence).
    rewrite Hg in Hsub0. simpl in Hsub0.
    set (W1 := with_dirty false (with_value v Wg)).
    set (s1 := with_watchers (<[w := W1]> (watchers s0)) s0).
    exists s1, W1.
    assert (Hw1 : watchers s1 !! w = Some W1) by (simpl; apply lookup_insert_eq).
    assert (Hsub1 : subscribed w s1) by (by apply (subscribed_update w Wg W1)).
    split.
    { unfold Watcher_evaluate. rewrite (bind_Ok _ _ _ _ _ Hg).
      by rewrite (bind_Ok _ _ s0 Wg s0) by (by apply the_watcher_Ok). }
    split; [done|]. split; [done|]. split; [done|]. split; [done|].
    intros d Hd r Hok. split; [|done].
    destruct Hsub1 as (W1' & Hw1' & _ & _ & _ & _ & Hin).
    rewrite Hw1 in Hw1'. injection Hw1' as <-.
    destruct (Dep_notify_effect m d s1) as (Hmark & _).
    destruct (Hmark w W1) as [Hdirty _]; try done.
    + by apply (Hin d).
    + by apply Hdirty.
Qed.

Lemma depends_idle ds : forall s,
  target s = None ->
  exists s', for_each Dep_depend ds s = Ok tt s'
             /\ watchers s' = watchers s /\ subs s' = subs s
             /\ target s' = None
             /\ trace s' = trace s ++ ((fun d => EvDepend d None) <$> ds).
Proof.
  induction ds as [|d ds IH]; intros s Ht.
  - exists s. simpl. by rewrite app_nil_r.
  - destruct (IH (log (EvDepend d None) s) Ht) as (s' & H1 & H2 & H3 & H4 & H5).
    exists s'. split; [|split; [done|split; [done|split; [done|]]]].
    + simpl. rewrite (bind_Ok _ _ s tt (log (EvDepend d None) s)); [done|].
      unfold Dep_depend. by rewrite Ht.
    + rewrite H5. simpl. by rewrite <- app_assoc.
Qed.

Lemma collecting_depends_exact w W0 s0 ds : forall s evs,
  target s0 = Some w ->
  collecting w W0 s0 s evs ->
  exists s',
    for_each Dep_depend ds s = Ok tt s'
    /\ collecting w W0 s0 s' (evs ++ ((fun d => EvDepend d (Some w)) <$> ds)).
Proof.
  induction ds as [|d ds IH]; intros s evs Ht Hc.
  - exists s. simpl. by rewrite app_nil_r.
  - destruct (collecting_depend w W0 s0 s evs d Ht Hc) as (s1 & Hs1 & Hc1).
    destruct (IH _ _ Ht Hc1) as (s2 & Hs2 & Hc2).
    exists s2. split.
    + simpl. by rewrite (bind_Ok _ _ s tt s1).
    + simpl. by rewrite <- app_assoc in Hc2.
Qed.

Lemma touched_depends (t : option nat) ds :
  touched ((fun d => EvDepend d t) <$> ds) = ds.
Proof. induction ds as [|d ds IH]; simpl; [done | by f_equal]. Qed.

(** X8: [depend()] of a watcher hands every dependency the watcher holds to
    the active target: the target has them all in its collecting
    generation afterwards and has become a subscriber of those it did not
    hold, and no other watcher changes.  With no active target, no watcher
    and no subscriber list changes. *)
Theorem depend_propagates (w : nat) (W : Watcher) (s : store) :
  watchers s !! w = Some W ->
  (target s = None ->
   exists s', Watcher_depend w s = Ok tt s'
              /\ watchers s' = watchers s /\ subs s' = subs s)
  /\ (forall t T, target s = Some t -> watchers s !! t = Some T ->
      exists s' T',
        Watcher_depend w s = Ok tt s'
        /\ watchers s' = <[t := T']> (watchers s)
        /\ newDepIds T' = newDepIds T ∪ list_to_set (deps W)
        /\ deps T' = deps T /\ depIds T' = depIds T
        /\ (forall d, d ∈ newDeps T'
                      <-> d ∈ newDeps T \/ (d ∈ deps W /\ d ∉ newDepIds T))
        /\ (forall d,
              subs_of s' d
              = subs_of s d
                ++ (if decide (d ∈ deps W /\ (d ∉ newDepIds T) /\ d ∉ depIds T)
                    then [t] else []))
        /\ objs s' = objs s /\ closures s' = closures s
        /\ target s' = Some t /\ targetStack s' = targetStack s).
Proof.
  intros Hw. split.
  - intros Ht. destruct (depends_idle (reverse (deps W)) s Ht)
      as (s' & H1 & H2 & H3 & _).
    exists s'. split; [|done]. unfold Watcher_depend.
    by rewrite (bind_Ok _ _ s W s) by (by apply the_watcher_Ok).
  - intros t T Ht HT.
    destruct (collecting_depends_exact t T s (reverse (deps W)) s [] Ht
                (collecting_refl t T s HT)) as (s' & Hs' & Hc).
    assert (Hc' : collecting t T s s'
                    ((fun d => EvDepend d (Some t)) <$> reverse (deps W)))
      by exact Hc.
    clear Hc. destruct Hc' as [? ? ? ? ? ? ? ? ? ? ? ? ? Hcw Hcs].
    rewrite touched_depends in Hcw.
    exists s', (collect_all (reverse (deps W)) T).
    split.
    { unfold Watcher_depend.
      by rewrite (bind_Ok _ _ s W s) by (by apply the_watcher_Ok). }
    split; [exact Hcw|].
    split.
    { rewrite collect_all_newDepIds. f_equal. apply set_eq. intros d.
      by rewrite !elem_of_list_to_set, elem_of_reverse. }
    pose proof (collect_all_frame (reverse (deps W)) T) as HF.
    split; [by rewrite HF|]. split; [by rewrite HF|].
    split.
    { intros d. rewrite collect_all_newDeps, elem_of_reverse. tauto. }
    split.
    { intros d. rewrite (Hcs d), touched_depends.
      f_equal. destruct (decide _) as [H|H]; destruct (decide _) as [H'|H'];
        try done; exfalso; apply H' || apply H; rewrite elem_of_reverse in *; tauto. }
    split; [done|]. split; [done|]. split; [congruence | done].
Qed.

(** ** Reading *)




Lemma reactive_read n o k x c e cf val dep childOb cs sh st w W s :
  objs s !! o = Some x ->
  lookup_prop k (props x) = Some (PAccessor c e cf) ->
  closures s !! c = Some (CReactive val dep childOb cs sh None st) ->
  target s = Some w ->
  watchers s !! w = Some W ->
  (forall ob, childOb = Some ob ->
     is_Some (observers s !! ob) /\ is_array val s = false) ->
  exists s' evs,
    prop_get n o k s = Ok val s'
    /\ collecting w W s s' (EvDepend dep (Some w) :: evs)
    /\ touched evs
       = match childOb with
         | Some ob => match observers s !! ob with
                      | Some r => [ob_dep r]
                      | None => []
                      end
         | None => []
         end.
Proof.
  intros Hx Hk Hc Ht Hw Hchild.
  unfold prop_get, prop_get_with.
  rewrite (bind_Ok _ _ s x s) by (unfold the_obj; by rewrite Hx).
  rewrite Hk, call_getter_unfold. unfold call_getter_body.
  rewrite (bind_Ok _ _ s (CReactive val dep childOb cs sh None st) s)
    by (unfold the_closure; by rewrite Hc).
  unfold reactiveGetter. rewrite (bind_Ok _ _ s val s) by reflexivity.
  destruct (collecting_depend w W s s [] dep Ht (collecting_refl w W s Hw))
    as (s1 & Hs1 & Hc1).
  simpl in Hc1.
  destruct childOb as [ob|].
  - destruct (Hchild ob eq_refl) as [[r Hr] Harr].
    destruct (collecting_depend w W s s1 _ (ob_dep r) Ht Hc1) as (s2 & Hs2 & Hc2).
    simpl in Hc2.
    exists s2, [EvDepend (ob_dep r) (Some w)].
    split; [|split; [done | by rewrite Hr]].
    unfold bind at 1. rewrite Ht. unfold bind at 1. rewrite Hs1.
    assert (Hr1 : observers s1 !! ob = Some r)
      by (by rewrite (col_observers _ _ _ _ _ Hc1)).
    unfold bind at 1, the_observer at 1. rewrite Hr1.
    unfold bind at 1. rewrite Hs2.
    assert (Harr2 : is_array val s2 = false).
    { unfold is_array in *. by rewrite (col_objs _ _ _ _ _ Hc2). }
    destruct val; try done. by rewrite Harr2.
  - exists s1, []. split; [|done].
    unfold bind at 1. rewrite Ht. unfold bind at 1. by rewrite Hs1.
Qed.

(** X10: reading a reactive property (one without a getter of its own) while
    watcher [w] is being evaluated returns the captured value and
    registers the property's dependency with [w]: it is in the collecting
    generation of [w] afterwards, and [w] has joined its subscribers
    unless it held the dependency already; when the value is wrapped (and
    is not an array), the same holds for the dependency of the value's
    observer.  Objects, accessors and the queue are untouched. *)
Theorem read_registers (n : nat) (o : nat) (k : pkey) (x : Obj) (c : nat)
    (e cf : bool) (val : jsval) (dep : nat) (childOb : option nat)
    (cs sh : bool) (st : option nat) (w : nat) (W : Watcher) (s : store) :
  objs s !! o = Some x ->
  lookup_prop k (props x) = Some (PAccessor c e cf) ->
  closures s !! c = Some (CReactive val dep childOb cs sh None st) ->
  target s = Some w ->
  watchers s !! w = Some W ->
  (forall ob, childOb = Some ob ->
     is_Some (observers s !! ob) /\ is_array val s = false) ->
  exists s' W',
    prop_get n o k s = Ok val s'
    /\ watchers s' !! w = Some W'
    /\ dep ∈ newDepIds W'
    /\ (forall ob r, childOb = Some ob -> observers s !! ob = Some r ->
          ob_dep r ∈ newDepIds W')
    /\ deps W' = deps W /\ depIds W' = depIds W
    /\ subs_of s' dep
       = subs_of s dep
         ++ (if decide ((dep ∉ newDepIds W) /\ dep ∉ depIds W) then [w] else [])
    /\ (forall x', x' ≠ w -> watchers s' !! x' = watchers s !! x')
    /\ objs s' = objs s /\ closures s' = closures s /\ queue s' = queue s
    /\ target s' = Some w.
Proof.
  clear traverse parsePath. intros Hx Hk Hc Ht Hw Hchild.
  destruct (reactive_read n o k x c e cf val dep childOb cs sh st w W s
              Hx Hk Hc Ht Hw Hchild) as (s' & evs & Hget & Hcol & Hev).
  destruct Hcol as [? ? ? ? ? ? ? ? ? ? ? ? ? Hcw Hcs].
  set (ds := touched (EvDepend dep (Some w) :: evs)) in *.
  assert (Hds : dep ∈ ds) by (unfold ds; simpl; left).
  exists s', (collect_all ds W).
  split; [done|]. split; [rewrite Hcw; apply lookup_insert_eq|].
  split; [rewrite collect_all_newDepIds; set_solver|].
  split.
  { intros ob r -> Hr. rewrite collect_all_newDepIds.
    unfold ds. simpl. rewrite Hev, Hr. set_solver. }
  pose proof (collect_all_frame ds W) as HF.
  split; [by rewrite HF|]. split; [by rewrite HF|].
  split.
  { rewrite (Hcs dep). f_equal.
    destruct (decide _) as [H|H]; destruct (decide _) as [H'|H'];
      try done; exfalso; tauto. }
  split; [intros x' Hne; rewrite Hcw; by rewrite lookup_insert_ne|].
  split; [done|]. split; [done|]. split; [done | congruence].
Qed.

(** ** From a read to the update: the reactive round trip *)

Lemma trace_extends_refl s : trace_extends s s.
Proof. exists []. by rewrite app_nil_r. Qed.

Lemma trace_extends_trans s1 s2 s3 :
  trace_extends s1 s2 -> trace_extends s2 s3 -> trace_extends s1 s3.
Proof.
  intros [e1 H1] [e2 H2]. exists (e1 ++ e2). by rewrite H2, H1, app_assoc.
Qed.

Lemma dep_steps_extends s s' : dep_steps s s' -> trace_extends s s'.
Proof.
  intros H. apply dep_steps_frame in H as [evs H]. exists evs. apply H.
Qed.

Lemma cleanupDeps_extends w : preserves trace_extends (Watcher_cleanupDeps w).
Proof.
  intros s. destruct (watchers s !! w) as [W|] eqn:Hw.
  - destruct (cleanupDeps_spec w W s Hw) as (m & -> & _).
    exists []. simpl. by rewrite app_nil_r.
  - unfold Watcher_cleanupDeps.
    rewrite (bind_Thrown _ _ s TypeError s) by (unfold the_watcher; by rewrite Hw).
    apply trace_extends_refl.
Qed.

Lemma finally_extends (dp : bool) (value : jsval) (w : nat) :
  preserves trace_extends
    ((if dp then fun s => for_each Dep_depend (traverse value s) s else ret tt) ;;;
     popTarget ;;; Watcher_cleanupDeps w).
Proof.
  apply (preserves_bind trace_extends trace_extends_trans).
  { destruct dp; [|intros s; apply trace_extends_refl].
    intros s. apply dep_steps_extends.
    apply (preserves_for_each dep_steps dep_steps_refl dep_steps_trans).
    intros d. apply dep_steps_depend. }
  intros _. apply (preserves_bind trace_extends trace_extends_trans).
  { intros s. exists []. simpl. by rewrite app_nil_r. }
  intros _. apply cleanupDeps_extends.
Qed.

(** What [get()] logs starts with what the evaluation function logged. *)
Lemma Watcher_get_extends n w W s :
  watchers s !! w = Some W ->
  trace_extends (store_of (run_prog n (getter W) (pushed w s)))
    (store_of (Watcher_get n w s)).
Proof.
  intros Hw. unfold Watcher_get.
  rewrite (bind_Ok _ _ s W s) by (by apply the_watcher_Ok).
  rewrite (bind_Ok _ _ s tt (pushed w s)) by reflexivity.
  destruct (run_prog n (getter W) (pushed w s)) as [v sA|e sA]; simpl.
  - pose proof (finally_extends (deep W) v w sA) as Hf.
    destruct ((_ ;;; _) sA); exact Hf.
  - destruct (user W); simpl.
    + pose proof (finally_extends (deep W) VUndef w
                    (log (EvHandleError e (vm W) (getter_info W)) sA)) as Hf.
      apply (trace_extends_trans _ (log (EvHandleError e (vm W) (getter_info W)) sA));
        [by exists [EvHandleError e (vm W) (getter_info W)]|].
      destruct ((_ ;;; _) _); exact Hf.
    + pose proof (finally_extends (deep W) VUndef w sA) as Hf.
      destruct ((_ ;;; _) sA); exact Hf.
Qed.

(** An evaluation function that starts by reading a reactive property
    logs the [depend()] of the property's dependency first. *)
Lemma first_read_logged n o k cont x c e cf val dep childOb cs sh st w W s :
  objs s !! o = Some x ->
  lookup_prop k (props x) = Some (PAccessor c e cf) ->
  closures s !! c = Some (CReactive val dep childOb cs sh None st) ->
  target s = Some w ->
  watchers s !! w = Some W ->
  exists evs,
    trace (store_of (run_prog n (Read o k cont) s))
    = trace s ++ EvDepend dep (Some w) :: evs.
Proof.
  intros Hx Hk Hc Ht Hw.
  destruct (collecting_depend w W s s [] dep Ht (collecting_refl w W s Hw))
    as (s1 & Hs1 & Hc1).
  assert (Ht1 : trace s1 = trace s ++ [EvDepend dep (Some w)]) by apply Hc1.
  set (rest := match childOb with
               | Some ob =>
                   obs <- the_observer ob ;;
                   Dep_depend (ob_dep obs) ;;;
                   fun s' =>
                     match val with
                     | VObj l =>
                         if is_array val s'
                         then match n with
                              | 0 => fun _ => throw RangeError
                              | S n' => dependArray n'
                              end l s'
                         else Ok tt s'
                     | _ => Ok tt s'
                     end
               | None => ret tt
               end).
  assert (Hrest : preserves dep_steps rest).
  { unfold rest. destruct childOb as [ob|]; [|intros s0; apply dep_steps_refl].
    apply (preserves_bind dep_steps dep_steps_trans);
      [apply preserves_the_observer, dep_steps_refl|]. intros obs.
    apply (preserves_bind dep_steps dep_steps_trans); [apply dep_steps_depend|].
    intros _ s'. destruct val; try apply dep_steps_refl.
    destruct (is_array _ _); [|apply dep_steps_refl].
    destruct n as [|n']; [apply dep_steps_refl | apply reads_steps]. }
  assert (Hget : prop_get n o k s
                 = match rest s1 with
                   | Ok _ s2 => Ok val s2
                   | Thrown e' s2 => Thrown e' s2
                   end).
  { unfold prop_get, prop_get_with.
    rewrite (bind_Ok _ _ s x s) by (unfold the_obj; by rewrite Hx).
    rewrite Hk, call_getter_unfold. unfold call_getter_body.
    rewrite (bind_Ok _ _ s (CReactive val dep childOb cs sh None st) s)
      by (unfold the_closure; by rewrite Hc).
    unfold reactiveGetter. rewrite (bind_Ok _ _ s val s) by reflexivity.
    unfold bind at 1. rewrite Ht. unfold bind at 1. rewrite Hs1.
    unfold rest. destruct n; reflexivity. }
  simpl. unfold bind at 1. rewrite Hget.
  pose proof (dep_steps_extends _ _ (Hrest s1)) as [evs1 He1].
  destruct (rest s1) as [[] s2|e' s2]; simpl in *.
  - pose proof (dep_steps_extends _ _ (run_prog_steps n (cont val) s2)) as [evs2 He2].
    exists (evs1 ++ evs2). rewrite He2, He1, Ht1. by rewrite <- !app_assoc.
  - exists evs1. rewrite He1, Ht1. by rewrite <- app_assoc.
Qed.

(** A write of a value that needs no wrapping to a reactive property
    without accessors of its own, when the value differs: the value is
    stored, then [notify()] is called. *)
Lemma plain_write n c val dep childOb cs sh newVal s :
  closures s !! c = Some (CReactive val dep childOb cs sh None None) ->
  strict_eq newVal val || (strict_neq newVal newVal && strict_neq val val) = false ->
  isObject newVal = false \/ sh = true ->
  call_setter n c newVal s
  = Dep_notify n dep
      (with_closures (<[c := CReactive newVal dep None cs sh None None]> (closures s))
         (if negb (production (cfg s)) && cs then log (EvCustomSetter c) s else s)).
Proof.
  intros Hc Hsame Hprim.
  rewrite call_setter_unfold. unfold call_setter_body.
  rewrite (bind_Ok _ _ s (CReactive val dep childOb cs sh None None) s)
    by (unfold the_closure; by rewrite Hc).
  unfold reactiveSetter. rewrite (bind_Ok _ _ s val s) by reflexivity.
  rewrite Hsame.
  set (s1 := if negb (production (cfg s)) && cs then log (EvCustomSetter c) s else s).
  rewrite (bind_Ok _ _ s tt s1)
    by (unfold s1; by destruct (negb (production (cfg s)) && cs)).
  assert (Hcl : closures s1 = closures s)
    by (unfold s1; by destruct (negb (production (cfg s)) && cs)).
  simpl.
  set (s2 := with_closures
               (<[c := CReactive newVal dep childOb cs sh None None]> (closures s1)) s1).
  rewrite (bind_Ok _ _ s1 tt s2).
  2:{ rewrite (bind_Ok _ _ s1 (CReactive val dep childOb cs sh None None) s1)
        by (unfold the_closure; by rewrite Hcl, Hc).
      reflexivity. }
  rewrite (bind_Ok _ _ s2 None s2).
  2:{ destruct Hprim as [Hprim | ->]; [|done].
      destruct sh; [done|]. by apply observe_not_object. }
  rewrite (bind_Ok _ _ s2 (CReactive newVal dep childOb cs sh None None) s2)
    by (unfold the_closure; simpl; by rewrite lookup_insert_eq).
  rewrite (bind_Ok _ _ s2 tt
             (with_closures
                (<[c := CReactive newVal dep None cs sh None None]> (closures s2)) s2))
    by reflexivity.
  f_equal. unfold s2. simpl. rewrite insert_insert_eq, Hcl. reflexivity.
Qed.

Lemma strict_neq_self v : strict_neq v v = true -> v = VNaN.
Proof.
  unfold strict_neq, strict_eq.
  destruct v; try done; by rewrite bool_decide_eq_true_2.
Qed.

Lemma prop_set_reactive n o k x c e cf val dep childOb cs sh g st newVal s :
  objs s !! o = Some x ->
  lookup_prop k (props x) = Some (PAccessor c e cf) ->
  closures s !! c = Some (CReactive val dep childOb cs sh g st) ->
  prop_set n o k newVal s = call_setter n c newVal s.
Proof.
  intros Hx Hk Hc. unfold prop_set.
  rewrite (bind_Ok _ _ s x s) by (unfold the_obj; by rewrite Hx).
  rewrite Hk. unfold descriptor_set. by rewrite Hc.
Qed.

(** X11: the round trip of the reactivity system.  A watcher whose
    subscriptions are in order and whose evaluation function starts by
    reading a reactive property is, after [get()], a subscriber of the
    property's dependency, whatever else the evaluation did and whether it
    returned or threw.  A later write of a different value that needs no
    wrapping then stores the value and calls [notify()] on that
    dependency; when the write returns, [update()] has been called on the
    watcher: a lazy watcher is dirty, and a watcher that is neither lazy
    nor synchronous is in the queue. *)
Theorem write_reaches_reader (n m : nat) (w : nat) (W : Watcher) (o : nat)
    (k : pkey) (cont : jsval -> prog) (x : Obj) (c : nat) (e cf : bool)
    (val : jsval) (dep : nat) (childOb : option nat) (cs sh : bool)
    (newVal : jsval) (s : store) :
  subscribed w s ->
  watchers s !! w = Some W ->
  getter W = Read o k cont ->
  objs s !! o = Some x ->
  lookup_prop k (props x) = Some (PAccessor c e cf) ->
  closures s !! c = Some (CReactive val dep childOb cs sh None None) ->
  isObject newVal = false ->
  strict_eq newVal val || (strict_neq newVal newVal && strict_neq val val) = false ->
  let s1 := store_of (Watcher_get n w s) in
  let r := prop_set m o k newVal s1 in
  w ∈ subs_of s1 dep
  /\ closures (store_of r) !! c = Some (CReactive newVal dep None cs sh None None)
  /\ exists evs,
       trace (store_of r) = trace s1 ++ evs
       /\ EvNotify dep ∈ evs
       /\ (is_ok r = true ->
           EvUpdate w ∈ evs
           /\ (lazy W = true -> (dirty <$> watchers (store_of r) !! w) = Some true)
           /\ (lazy W = false -> sync W = false -> w ∈ queue (store_of r))).
Proof.
  intros Hsub Hw Hgetter Hx Hk Hc Hprim Hsame s1 r.
  destruct (Watcher_get_evaluated n w W s Hw) as (evs0 & s1' & Hev & Hres).
  assert (s1' = s1) as ->
    by (unfold s1; destruct Hres as [[? ->]|[? ->]]; reflexivity).
  clear Hres.
  pose proof (Watcher_get_subscribed n w s Hsub) as Hsub1. fold s1 in Hsub1.
  (* the dependency of the property was reached *)
  assert (Hreach : dep ∈ touched evs0).
  { destruct (first_read_logged n o k cont x c e cf val dep childOb cs sh None
                w W (pushed w s)) as [evs1 He1]; try done.
    destruct (Watcher_get_extends n w W s Hw) as [evs2 He2]. fold s1 in He2.
    rewrite Hgetter, He1 in He2. simpl in He2.
    rewrite (evd_trace _ _ _ _ _ Hev), <- app_assoc in He2.
    apply app_inv_head in He2. subst evs0. simpl. left. }
  set (Wg := with_generations (newDeps (collect_all (touched evs0) W)) []
               (newDepIds (collect_all (touched evs0) W)) ∅ W).
  assert (Hwg : watchers s1 !! w = Some Wg)
    by (rewrite (evd_watchers _ _ _ _ _ Hev); apply lookup_insert_eq).
  destruct Hsub as (W' & Hw' & Hnd & Hndi & _).
  rewrite Hw in Hw'. injection Hw' as <-.
  assert (Hin : w ∈ subs_of s1 dep).
  { destruct Hsub1 as (W1 & Hw1 & _ & _ & _ & _ & Hiff).
    rewrite Hwg in Hw1. injection Hw1 as <-.
    apply Hiff. simpl. apply collect_all_newDeps. right.
    split; [done|]. rewrite Hndi. set_solver. }
  split; [done|].
  assert (Hc1 : closures s1 !! c = Some (CReactive val dep childOb cs sh None None))
    by (by rewrite (evd_closures _ _ _ _ _ Hev)).
  assert (Hx1 : objs s1 !! o = Some x) by (by rewrite (evd_objs _ _ _ _ _ Hev)).
  set (sc := if negb (production (cfg s1)) && cs
             then log (EvCustomSetter c) s1 else s1).
  set (s4 := with_closures
               (<[c := CReactive newVal dep None cs sh None None]> (closures s1)) sc).
  assert (Hr : r = Dep_notify m dep s4).
  { unfold r. rewrite (prop_set_reactive m o k x c e cf val dep childOb cs sh
                         None None newVal s1 Hx1 Hk Hc1).
    apply (plain_write m c val dep childOb cs sh newVal s1 Hc1 Hsame). by left. }
  destruct (Dep_notify_frame m dep s4) as (evs & j & Hq & Hu & Hok & _ & _).
  destruct (Dep_notify_effect m dep s4) as (Hmark & _).
  rewrite <- Hr in *.
  assert (Hsubs4 : subs_of s4 dep = subs_of s1 dep)
    by (unfold s4, sc; by destruct (negb (production (cfg s1)) && cs)).
  assert (Hw4 : watchers s4 !! w = Some Wg)
    by (unfold s4, sc; by destruct (negb (production (cfg s1)) && cs)).
  split.
  { rewrite (qf_closures _ _ _ Hq). simpl. apply lookup_insert_eq. }
  assert (Htr4 : exists pre, trace s4 = trace s1 ++ pre).
  { unfold s4, sc. destruct (negb (production (cfg s1)) && cs); simpl.
    - by exists [EvCustomSetter c].
    - exists []. by rewrite app_nil_r. }
  destruct Htr4 as [pre Hpre].
  exists (pre ++ EvNotify dep :: evs).
  split; [rewrite (qf_trace _ _ _ Hq), Hpre; by rewrite <- app_assoc|].
  split; [apply elem_of_app; right; left|].
  intros Hrok. split.
  { apply elem_of_app. right. right. apply elem_of_updates.
    rewrite (Hok Hrok), notify_snapshot_perm, Hsubs4. done. }
  destruct (Hmark w Wg) as [Hdirty Hqueue]; try done.
  { by rewrite Hsubs4. }
  split.
  - intros Hl. rewrite Hdirty by done. done.
  - intros Hl Hsy. by apply Hqueue.
Qed.

(** X12: a write to a reactive property without accessors of its own, of a
    value that needs no wrapping, followed by a read: outside every
    evaluation, the read returns the value written and leaves the store
    alone, also when the write was skipped because the value was the same
    and when a subscriber's [update()] threw. *)
Theorem write_then_read (n m : nat) (o : nat) (k : pkey) (x : Obj) (c : nat)
    (e cf : bool) (val : jsval) (dep : nat) (childOb : option nat)
    (cs sh : bool) (newVal : jsval) (s : store) :
  objs s !! o = Some x ->
  lookup_prop k (props x) = Some (PAccessor c e cf) ->
  closures s !! c = Some (CReactive val dep childOb cs sh None None) ->
  isObject newVal = false ->
  target s = None -> targetStack s = [] ->
  let s' := store_of (prop_set n o k newVal s) in
  target s' = None /\ prop_get m o k s' = Ok newVal s'.
Proof.
  intros Hx Hk Hc Hprim Ht Hst s'.
  assert (Htop : stack_top_is_target s)
    by (unfold stack_top_is_target; by rewrite Ht, Hst).
  assert (Ht' : target s' = None).
  { destruct (prop_set_keeps n o k newVal s Htop) as [H _]. fold s' in H. congruence. }
  split; [done|].
  assert (Hread : forall v' childOb' s0,
             objs s0 !! o = Some x ->
             closures s0 !! c = Some (CReactive v' dep childOb' cs sh None None) ->
             target s0 = None ->
             prop_get m o k s0 = Ok v' s0).
  { intros v' childOb' s0 Hx0 Hc0 Ht0. unfold prop_get, prop_get_with.
    rewrite (bind_Ok _ _ s0 x s0) by (unfold the_obj; by rewrite Hx0).
    rewrite Hk, call_getter_unfold. unfold call_getter_body.
    rewrite (bind_Ok _ _ s0 (CReactive v' dep childOb' cs sh None None) s0)
      by (unfold the_closure; by rewrite Hc0).
    unfold reactiveGetter, bind. simpl. by rewrite Ht0. }
  unfold s' in *.
  rewrite (prop_set_reactive n o k x c e cf val dep childOb cs sh None None
             newVal s Hx Hk Hc) in *.
  destruct (strict_eq newVal val || (strict_neq newVal newVal && strict_neq val val))
    eqn:Hsame.
  - assert (Hsame' : call_setter n c newVal s = Ok tt s).
    { rewrite call_setter_unfold. unfold call_setter_body.
      rewrite (bind_Ok _ _ s (CReactive val dep childOb cs sh None None) s)
        by (unfold the_closure; by rewrite Hc).
      unfold reactiveSetter. rewrite (bind_Ok _ _ s val s) by reflexivity.
      by rewrite Hsame. }
    rewrite Hsame'. simpl.
    destruct (strict_neq newVal newVal && strict_neq val val) eqn:Hnan.
    + apply andb_true_iff in Hnan as [H1 H2].
      apply strict_neq_self in H1, H2. subst. by eapply Hread.
    + rewrite orb_false_r in Hsame.
      assert (newVal = val) as ->.
      { unfold strict_eq in Hsame.
        destruct newVal, val; try done; by apply bool_decide_eq_true in Hsame. }
      by eapply Hread.
  - rewrite (plain_write n c val dep childOb cs sh newVal s Hc Hsame) in *
      by (by left).
    match goal with |- context [Dep_notify n dep ?s4] =>
      destruct (Dep_notify_frame n dep s4) as (evs & j & Hq & _)
    end.
    eapply Hread; [| |done].
    + rewrite (qf_objs _ _ _ Hq). by destruct (negb (production (cfg s)) && cs).
    + rewrite (qf_closures _ _ _ Hq). simpl. apply lookup_insert_eq.
Qed.

(** ** [observe] leaves observed objects alone *)

Lemma kept_except_refl skip s : kept_except skip s s.
Proof. by intros l x _ Hx _. Qed.

Lemma kept_except_trans skip s1 s2 s3 :
  kept_except skip s1 s2 -> kept_except skip s2 s3 -> kept_except skip s1 s3.
Proof. intros H1 H2 l x Hne Hx Hob. apply H2; [done | by apply H1 | done]. Qed.

Lemma kept_except_weaken skip s s' : kept_except None s s' -> kept_except skip s s'.
Proof. intros H l x _ Hx Hob. by apply H. Qed.

Lemma kept_except_objs skip s s' : objs s' = objs s -> kept_except skip s s'.
Proof. intros H l x _ Hx _. by rewrite H. Qed.

Lemma kept_except_set_obj o x s :
  kept_except (Some o) s (with_objs (<[o := x]> (objs s)) s).
Proof.
  intros l y Hne Hy _. simpl. rewrite lookup_insert_ne; [done|]. congruence.
Qed.

Lemma prop_get_objs n o k s : objs (store_of (prop_get n o k s)) = objs s.
Proof.
  destruct (dep_steps_frame _ _ (prop_get_steps n o k s)) as [evs Hf]. apply Hf.
Qed.

Section ObserveKept.
Variable n : nat.
Variable rec_observe : jsval -> bool -> M (option nat).
Hypothesis rec_observe_kept :
  forall v b, preserves (kept_except None) (rec_observe v b).

Lemma defineReactive_body_kept obj key val cs sh :
  preserves (kept_except (Some obj))
    (defineReactive_body n rec_observe obj key val cs sh).
Proof.
  pose proof (@preserves_bind (kept_except (Some obj))
                (kept_except_trans (Some obj))) as Pb.
  unfold defineReactive_body.
  apply Pb; [intros s; by apply kept_except_objs|]. intros dep.
  apply Pb; [apply preserves_the_obj, kept_except_refl|]. intros x.
  match goal with |- context [if ?c then _ else _] => destruct c end;
    [intros s; apply kept_except_refl|].
  intros s.
  generalize (descriptor_get (own_property x key) s)
             (descriptor_set (own_property x key) s).
  intros g st. revert s. cbv zeta. apply Pb.
  { destruct (_ && _); [|intros s; apply kept_except_refl].
    intros s. apply kept_except_objs, prop_get_objs. }
  intros val'. apply Pb.
  { destruct sh; [intros s; apply kept_except_refl|].
    intros s. apply kept_except_weaken, rec_observe_kept. }
  intros childOb s'. unfold bind, set_closure, modify.
  unfold define_accessor, bind, the_obj. simpl.
  destruct (objs s' !! obj) as [x'|]; simpl; [|by apply kept_except_objs].
  destruct (lookup_prop key (props x')); simpl.
  - intros l y Hne Hy _. simpl. rewrite lookup_insert_ne; [done | congruence].
  - destruct (extensible x'); simpl; [|by apply kept_except_objs].
    intros l y Hne Hy _. simpl. rewrite lookup_insert_ne; [done | congruence].
Qed.

Lemma walk_body_kept obj :
  preserves (kept_except (Some obj)) (walk_body n rec_observe obj).
Proof.
  unfold walk_body.
  apply (preserves_bind _ (kept_except_trans (Some obj)));
    [apply preserves_the_obj, kept_except_refl|]. intros x.
  apply preserves_for_each; [apply kept_except_refl | apply kept_except_trans|].
  intros k. apply defineReactive_body_kept.
Qed.

Lemma observeArray_body_kept items :
  preserves (kept_except None) (observeArray_body n rec_observe items).
Proof.
  pose proof (@preserves_bind (kept_except None) (kept_except_trans None)) as Pb.
  unfold observeArray_body.
  apply Pb; [apply preserves_the_obj, kept_except_refl|]. intros x.
  apply preserves_for_each; [apply kept_except_refl | apply kept_except_trans|].
  intros i. apply Pb; [intros s; apply kept_except_objs, prop_get_objs|].
  intros e. apply Pb; [apply rec_observe_kept|].
  intros _ s. apply kept_except_refl.
Qed.

Lemma new_Observer_body_kept value x s :
  objs s !! value = Some x -> ob x = None ->
  kept_except None s (store_of (new_Observer_body n rec_observe value s)).
Proof.
  intros Hx Hob.
  assert (H : kept_except (Some value) s
                (store_of (new_Observer_body n rec_observe value s))).
  { unfold new_Observer_body.
    rewrite (bind_Ok _ _ s (dep_uid s)
               (with_dep_uid (S (dep_uid s))
                  (with_subs (<[dep_uid s := []]> (subs s)) s))) by reflexivity.
    set (s1 := with_dep_uid _ _).
    set (o := fresh (dom (observers s1))).
    rewrite (bind_Ok _ _ s1 tt
               (with_observers (<[o := mkObserver value (dep_uid s) 0]> (observers s1)) s1))
      by reflexivity.
    set (s2 := with_observers _ s1).
    rewrite (bind_Ok _ _ s2 x s2) by (unfold the_obj; simpl; by rewrite Hx).
    rewrite (bind_Ok _ _ s2 tt (with_objs (<[value := with_ob (Some o) x]> (objs s2)) s2))
      by reflexivity.
    set (s3 := with_objs _ s2).
    assert (H3 : kept_except (Some value) s s3).
    { intros l y Hne Hy _. simpl. rewrite lookup_insert_ne; [done | congruence]. }
    set (rest := if bool_decide (cls x = CArray)
                 then (x' <- the_obj value ;;
                       set_obj value (with_augmented true x') ;;;
                       observeArray_body n rec_observe value)
                 else walk_body n rec_observe value).
    assert (Hrest : preserves (kept_except (Some value)) rest).
    { unfold rest. destruct (bool_decide _); [|apply walk_body_kept].
      apply (preserves_bind _ (kept_except_trans (Some value)));
        [apply preserves_the_obj, kept_except_refl|]. intros x'.
      apply (preserves_bind _ (kept_except_trans (Some value)));
        [intros s0; apply kept_except_set_obj|]. intros _.
      intros s0. apply kept_except_weaken, observeArray_body_kept. }
    fold rest. unfold bind at 1. specialize (Hrest s3).
    destruct (rest s3) as [[] s4|e s4]; simpl in *;
      by eapply kept_except_trans. }
  intros l y _ Hy Hoby. apply H; [|done|done].
  intros [= <-]. rewrite Hx in Hy. injection Hy as <-.
  rewrite Hob in Hoby. by destruct Hoby.
Qed.

Lemma observe_body_kept value asRootData :
  preserves (kept_except None) (observe_body n rec_observe value asRootData).
Proof.
  intros s. remember (observe_body n rec_observe value asRootData s) as r eqn:Hr.
  unfold observe_body in Hr.
  destruct value as [| | | | | |l]; try (subst r; apply kept_except_refl).
  unfold bind at 1 in Hr. unfold the_obj in Hr.
  destruct (objs s !! l) as [x|] eqn:Hx; [|subst r; apply kept_except_refl].
  destruct (bool_decide (cls x = CVNode)); [subst r; apply kept_except_refl|].
  unfold bind at 1 in Hr.
  destruct (ob x) as [o0|] eqn:Hob.
  - simpl in Hr.
    destruct (count_root_spec asRootData (Some o0) s) as (_ & Hobjs & _).
    simpl in Hobjs. rewrite <- Hr in Hobjs. by apply kept_except_objs.
  - match type of Hr with context [if ?c then _ else _] => destruct c end;
      [|subst r; apply kept_except_refl].
    pose proof (new_Observer_body_kept l x s Hx Hob) as Hk.
    unfold bind at 1 in Hr.
    destruct (new_Observer_body n rec_observe l s) as [o1 s1|e s1]; simpl in *;
      [|by subst r].
    destruct (count_root_spec asRootData (Some o1) s1) as (_ & Hobjs & _).
    simpl in Hobjs. rewrite <- Hr in Hobjs.
    eapply kept_except_trans; [exact Hk | by apply kept_except_objs].
Qed.
End ObserveKept.

Lemma observe_kept n : forall v b, preserves (kept_except None) (observe n v b).
Proof.
  induction n as [|n IH]; intros v b s; simpl.
  - apply observe_body_kept. intros ? ? ?. apply kept_except_refl.
  - by apply observe_body_kept.
Qed.

(** ** [observe] makes the properties of an object reactive *)

Lemma lookup_put_prop_ne k k' p ps :
  k' ≠ k -> lookup_prop k' (put_prop k p ps) = lookup_prop k' ps.
Proof.
  intros Hne. unfold lookup_prop. induction ps as [|[k0 p0] ps IH]; simpl.
  - by rewrite bool_decide_eq_false_2 by done.
  - destruct (bool_decide (k0 = k)) eqn:Hk; simpl.
    + apply bool_decide_eq_true in Hk. subst k0.
      by rewrite !bool_decide_eq_false_2 by done.
    + destruct (bool_decide (k0 = k')); [done | exact IH].
Qed.

Lemma lookup_prop_elem k p ps : lookup_prop k ps = Some p -> (k, p) ∈ ps.
Proof.
  unfold lookup_prop. induction ps as [|[k0 p0] ps IH]; simpl; [done|].
  destruct (bool_decide (k0 = k)) eqn:Hk; simpl.
  - apply bool_decide_eq_true in Hk. intros [= <-]. subst. left.
  - intros H. right. by apply IH.
Qed.

Lemma lookup_prop_NoDup k p ps :
  NoDup (fst <$> ps) -> (k, p) ∈ ps -> lookup_prop k ps = Some p.
Proof.
  unfold lookup_prop. induction ps as [|[k0 p0] ps IH]; simpl; intros Hnd Hin.
  - by apply elem_of_nil in Hin.
  - apply NoDup_cons in Hnd as [Hnot Hnd].
    apply elem_of_cons in Hin as [[= <- <-]|Hin].
    + by rewrite bool_decide_eq_true_2.
    + rewrite bool_decide_eq_false_2; [by apply IH|].
      intros ->. apply Hnot. apply list_elem_of_fmap. by exists (k, p).
Qed.

Lemma elem_of_own_keys k x :
  k ∈ own_keys x
  <-> k ∈ fst <$> List.filter (fun kp => prop_enumerable (snd kp)) (props x).
Proof.
  unfold own_keys.
  set (ks := fst <$> List.filter (fun kp => prop_enumerable (snd kp)) (props x)).
  rewrite elem_of_app. split.
  - intros [H|H].
    + apply list_elem_of_fmap in H as (i & -> & Hi).
      rewrite sort_by_id_perm in Hi.
      apply list_elem_of_omap in Hi as (k0 & Hk0 & Heq).
      destruct k0; [done|]. by injection Heq as ->.
    + apply list_elem_of_In, filter_In in H as [H _]. by apply list_elem_of_In.
  - intros H. destruct k as [name|i].
    + right. apply list_elem_of_In, filter_In. split; [by apply list_elem_of_In | done].
    + left. apply list_elem_of_fmap. exists i. split; [done|].
      rewrite sort_by_id_perm. apply list_elem_of_omap. by exists (KIndex i).
Qed.

Lemma own_keys_NoDup x : NoDup (fst <$> props x) -> NoDup (own_keys x).
Proof.
  intros Hnd. unfold own_keys.
  set (ks := fst <$> List.filter (fun kp => prop_enumerable (snd kp)) (props x)).
  assert (Hks : NoDup ks).
  { unfold ks. clear -Hnd. induction (props x) as [|[k p] ps IH]; simpl; [constructor|].
    simpl in Hnd. apply NoDup_cons in Hnd as [Hnot Hnd].
    destruct (prop_enumerable p); simpl; [|by apply IH].
    apply NoDup_cons. split; [|by apply IH].
    intros Hin. apply Hnot. apply list_elem_of_fmap in Hin as ([k' p'] & Hk & Hin).
    simpl in Hk. subst k'. apply list_elem_of_In, filter_In in Hin as [Hin _].
    apply list_elem_of_fmap. exists (k, p'). split; [done | by apply list_elem_of_In]. }
  apply NoDup_app. split; [|split].
  - apply NoDup_fmap_2_strong; [by intros i j _ _ [= ->]|].
    rewrite sort_by_id_perm.
    clear -Hks. induction ks as [|k ks IH]; simpl; [constructor|].
    apply NoDup_cons in Hks as [Hnot Hks].
    destruct k as [name|i]; simpl; [by apply IH|].
    apply NoDup_cons. split; [|by apply IH].
    intros Hin. apply Hnot. apply list_elem_of_omap in Hin as (k0 & Hk0 & Heq).
    destruct k0; [done|]. by injection Heq as ->.
  - intros k H1 H2. apply list_elem_of_fmap in H1 as (i & -> & _).
    by apply list_elem_of_In, filter_In in H2 as [_ H2].
  - apply NoDup_ListNoDup, List.NoDup_filter, NoDup_ListNoDup, Hks.
Qed.

Section ObserveReactive.
Variable n : nat.
Variable rec_observe : jsval -> bool -> M (option nat).
Hypothesis rec_observe_mono : forall v b, preserves obs_mono (rec_observe v b).
Hypothesis rec_observe_kept :
  forall v b, preserves (kept_except None) (rec_observe v b).

(** [defineReactive(obj, key)] on an observed object touches no other key
    of the object. *)
Lemma defineReactive_body_frame obj key val cs sh y s :
  objs s !! obj = Some y -> is_Some (ob y) ->
  exists y',
    objs (store_of (defineReactive_body n rec_observe obj key val cs sh s)) !! obj
      = Some y'
    /\ ob y' = ob y
    /\ forall k', k' ≠ key -> lookup_prop k' (props y') = lookup_prop k' (props y).
Proof.
  set (R := fun s s' : store =>
              forall y, objs s !! obj = Some y -> is_Some (ob y) ->
                exists y', objs s' !! obj = Some y' /\ ob y' = ob y
                  /\ forall k', k' ≠ key ->
                       lookup_prop k' (props y') = lookup_prop k' (props y)).
  assert (Rrefl : forall s0, R s0 s0) by (intros s0 y0 ? ?; by exists y0).
  assert (Rtrans : forall s1 s2 s3, R s1 s2 -> R s2 s3 -> R s1 s3).
  { intros s1 s2 s3 H1 H2 y1 Hy1 Hob1.
    destruct (H1 y1 Hy1 Hob1) as (y2 & Hy2 & Hob2 & Hk2).
    destruct (H2 y2 Hy2) as (y3 & Hy3 & Hob3 & Hk3); [by rewrite Hob2|].
    exists y3. split; [done|]. split; [congruence|].
    intros k' Hne. by rewrite Hk3, Hk2. }
  assert (Robjs : forall s0 s1, objs s1 = objs s0 -> R s0 s1).
  { intros s0 s1 Heq y0 Hy0 _. exists y0. by rewrite Heq. }
  assert (Rkept : forall s0 s1, kept_except None s0 s1 -> R s0 s1).
  { intros s0 s1 Hk y0 Hy0 Hob0. exists y0. split; [by apply Hk | done]. }
  enough (HR : preserves R (defineReactive_body n rec_observe obj key val cs sh)).
  { intros Hy Hob. by apply (HR s). }
  pose proof (@preserves_bind R Rtrans) as Pb.
  unfold defineReactive_body.
  apply Pb; [intros s0; by apply Robjs|]. intros dep.
  apply Pb; [apply preserves_the_obj, Rrefl|]. intros x.
  match goal with |- context [if ?c then _ else _] => destruct c end;
    [intros s0; apply Rrefl|].
  intros s0.
  generalize (descriptor_get (own_property x key) s0)
             (descriptor_set (own_property x key) s0).
  intros g st. revert s0. cbv zeta. apply Pb.
  { destruct (_ && _); [|intros s0; apply Rrefl].
    intros s0. apply Robjs, prop_get_objs. }
  intros val'. apply Pb.
  { destruct sh; [intros s0; apply Rrefl|].
    intros s0. apply Rkept, rec_observe_kept. }
  intros childOb s'. unfold bind, set_closure, modify.
  unfold define_accessor, bind, the_obj. simpl.
  assert (Hput : forall x' c,
             objs s' !! obj = Some x' ->
             R s' (with_objs
                     (<[obj := with_props (put_prop key (PAccessor c true true) (props x')) x']>
                        (objs s'))
                     (with_closures
                        (<[c := CReactive val' dep childOb cs sh g st]> (closures s')) s'))).
  { intros x' c Hx' y0 Hy0 Hob0. rewrite Hx' in Hy0. injection Hy0 as <-.
    eexists. split; [simpl; apply lookup_insert_eq|]. split; [done|].
    intros k' Hne. simpl. by apply lookup_put_prop_ne. }
  destruct (objs s' !! obj) as [x'|] eqn:Hx'; simpl; [|by apply Robjs].
  destruct (lookup_prop key (props x')); simpl; [by apply Hput|].
  destruct (extensible x'); simpl; [by apply Hput | by apply Robjs].
Qed.

(** [defineReactive(obj, key)] on a configurable data property of an
    observed object, when it returns: the key is an interceptor over the
    value the property had. *)
Lemma defineReactive_body_data obj key y v w e s s' :
  objs s !! obj = Some y -> is_Some (ob y) ->
  lookup_prop key (props y) = Some (PData v w e true) ->
  defineReactive_body n rec_observe obj key None false false s = Ok tt s' ->
  exists c d oc,
    objs s' !! obj
      = Some (with_props (put_prop key (PAccessor c true true) (props y)) y)
    /\ closures s' !! c = Some (CReactive v d oc false false None None).
Proof.
  intros Hy Hob Hk Hdef. unfold defineReactive_body in Hdef.
  set (sa := with_dep_uid (S (dep_uid s))
               (with_subs (<[dep_uid s := []]> (subs s)) s)) in *.
  rewrite (bind_Ok _ _ s (dep_uid s) sa) in Hdef by reflexivity.
  rewrite (bind_Ok _ _ sa y sa) in Hdef by (unfold the_obj; simpl; by rewrite Hy).
  assert (Hown : own_property y key = Some (PData v w e true))
    by (unfold own_property; by rewrite Hk).
  rewrite Hown in Hdef. simpl in Hdef.
  rewrite (bind_Ok _ _ sa v sa) in Hdef.
  2:{ unfold prop_get, prop_get_with.
      rewrite (bind_Ok _ _ sa y sa) by (unfold the_obj; simpl; by rewrite Hy).
      by rewrite Hk. }
  unfold bind at 1 in Hdef.
  pose proof (rec_observe_kept v false sa) as Hkept.
  destruct (rec_observe v false sa) as [oc sb|e0 sb]; [|done]. simpl in Hkept.
  assert (Hyb : objs sb !! obj = Some y) by (by apply Hkept).
  set (c := fresh (dom (closures sb))) in *.
  rewrite (bind_Ok _ _ sb tt
             (with_closures
                (<[c := CReactive v (dep_uid s) oc false false None None]> (closures sb)) sb))
    in Hdef by reflexivity.
  unfold define_accessor, bind, the_obj in Hdef. simpl in Hdef.
  rewrite Hyb, Hk in Hdef. simpl in Hdef. injection Hdef as <-.
  exists c, (dep_uid s), oc. simpl.
  split; apply lookup_insert_eq.
Qed.

(** [defineReactive(obj, key)] on a property that is not configurable
    leaves the object as it is. *)
Lemma defineReactive_body_fixed obj key y p s :
  objs s !! obj = Some y ->
  lookup_prop key (props y) = Some p -> prop_configurable p = false ->
  objs (store_of (defineReactive_body n rec_observe obj key None false false s))
  = objs s.
Proof.
  intros Hy Hk Hconf. unfold defineReactive_body.
  set (sa := with_dep_uid (S (dep_uid s))
               (with_subs (<[dep_uid s := []]> (subs s)) s)) in *.
  rewrite (bind_Ok _ _ s (dep_uid s) sa) by reflexivity.
  rewrite (bind_Ok _ _ sa y sa) by (unfold the_obj; simpl; by rewrite Hy).
  assert (Hown : own_property y key = Some p)
    by (unfold own_property; by rewrite Hk).
  by rewrite Hown, Hconf.
Qed.

Lemma walk_keys obj : forall (L : list pkey) y s s',
  NoDup L ->
  objs s !! obj = Some y -> is_Some (ob y) ->
  for_each (fun k => defineReactive_body n rec_observe obj k None false false) L s
    = Ok tt s' ->
  exists y',
    objs s' !! obj = Some y' /\ ob y' = ob y
    /\ (forall k, k ∉ L -> lookup_prop k (props y') = lookup_prop k (props y))
    /\ (forall k p, lookup_prop k (props y) = Some p -> prop_configurable p = false ->
          lookup_prop k (props y') = Some p)
    /\ (forall k v w e, k ∈ L -> lookup_prop k (props y) = Some (PData v w e true) ->
          exists c d oc,
            lookup_prop k (props y') = Some (PAccessor c true true)
            /\ closures s' !! c = Some (CReactive v d oc false false None None)).
Proof.
  induction L as [|k0 L IH]; intros y s s' Hnd Hy Hob Hrun.
  - simpl in Hrun. injection Hrun as <-. exists y. repeat split; try done.
    intros k v w e Hin. by apply elem_of_nil in Hin.
  - apply NoDup_cons in Hnd as [Hnot Hnd]. simpl in Hrun. unfold bind in Hrun.
    destruct (defineReactive_body_frame obj k0 None false false y s Hy Hob)
      as (y1 & Hy1 & Hob1 & Hk1).
    pose proof (defineReactive_body_data obj k0 y) as Hdata.
    pose proof (defineReactive_body_fixed obj k0 y) as Hfixed.
    destruct (defineReactive_body n rec_observe obj k0 None false false s)
      as [[] s1|e1 s1] eqn:Hstep; [|done].
    simpl in Hy1.
    destruct (IH y1 s1 s' Hnd Hy1) as (y' & Hy' & Hob' & Hout & Hfix & Hin);
      [by rewrite Hob1 | done |].
    assert (Hmono : obs_mono s1 s').
    { pose proof (preserves_for_each obs_mono obs_mono_refl obs_mono_trans
                    (fun k => defineReactive_body n rec_observe obj k None false false)
                    L (fun k => defineReactive_body_mono n rec_observe
                                  rec_observe_mono obj k None false false) s1) as Hm.
      by rewrite Hrun in Hm. }
    exists y'. split; [done|]. split; [congruence|]. split; [|split].
    + intros k Hk. apply not_elem_of_cons in Hk as [Hne Hk].
      rewrite Hout by done. by apply Hk1.
    + intros k p Hkp Hconf. apply Hfix; [|done].
      destruct (decide (k = k0)) as [->|Hne].
      * specialize (Hfixed p s Hy Hkp Hconf). rewrite Hstep in Hfixed.
        simpl in Hfixed. rewrite Hfixed, Hy in Hy1. by injection Hy1 as <-.
      * by rewrite Hk1.
    + intros k v w e Hk Hkv. apply elem_of_cons in Hk as [->|Hk].
      * destruct (Hdata v w e s s1 Hy Hob Hkv Hstep) as (c & d & oc & Hy1' & Hc).
        rewrite Hy1 in Hy1'. injection Hy1' as ->.
        exists c, d, oc. split.
        -- rewrite Hout by done. simpl. apply lookup_put_prop.
        -- by apply (om_closures _ _ Hmono).
      * apply (Hin k v w e); [done|]. rewrite Hk1; [done|]. intros ->. done.
Qed.
End ObserveReactive.

Lemma rec_observe_mono n :
  forall v b, preserves obs_mono
                (match n with
                 | 0 => fun _ _ => throw RangeError
                 | S n' => observe n'
                 end v b).
Proof.
  destruct n; [intros ? ? ?; apply obs_mono_refl | apply observe_mono].
Qed.

Lemma rec_observe_kept n :
  forall v b, preserves (kept_except None)
                (match n with
                 | 0 => fun _ _ => throw RangeError
                 | S n' => observe n'
                 end v b).
Proof.
  destruct n; [intros ? ? ?; apply kept_except_refl | apply observe_kept].
Qed.

(** X13: when [observe] wraps a plain object that carried no observer, every
    enumerable and configurable data property of the object has become an
    interceptor (enumerable, configurable) over the value it had, so that
    a read outside every evaluation still returns that value; every
    property that is not configurable, and every property that is not
    enumerable, is what it was; and the object carries the observer that
    was returned. *)
Theorem observe_makes_reactive (n : nat) (l : nat) (x : Obj) (asRootData : bool)
    (o : nat) (s s' : store) :
  objs s !! l = Some x ->
  ob x = None ->
  cls x = CPlain ->
  NoDup (fst <$> props x) ->
  observe n (VObj l) asRootData s = Ok (Some o) s' ->
  exists x',
    objs s' !! l = Some x'
    /\ ob x' = Some o
    /\ (forall k v w,
          lookup_prop k (props x) = Some (PData v w true true) ->
          exists c d oc,
            lookup_prop k (props x') = Some (PAccessor c true true)
            /\ closures s' !! c = Some (CReactive v d oc false false None None)
            /\ (target s' = None -> forall m, prop_get m l k s' = Ok v s'))
    /\ (forall k p,
          lookup_prop k (props x) = Some p ->
          prop_configurable p = false \/ prop_enumerable p = false ->
          lookup_prop k (props x') = Some p).
Proof.
  intros Hx Hob Hcls Hnd Hobs.
  rewrite observe_unfold in Hobs. unfold observe_body in Hobs.
  rewrite (bind_Ok _ _ s x s) in Hobs by (unfold the_obj; by rewrite Hx).
  rewrite bool_decide_eq_false_2 in Hobs by (by rewrite Hcls).
  rewrite Hob in Hobs. unfold bind at 1 in Hobs.
  match type of Hobs with context [if ?c then _ else _] => destruct c end;
    [|by destruct asRootData].
  unfold bind at 1 in Hobs.
  destruct (new_Observer_body n _ l s) as [o1 s1|e1 s1] eqn:Hnew; [|done].
  simpl in Hobs.
  (* the walk *)
  unfold new_Observer_body in Hnew.
  set (sa := with_dep_uid (S (dep_uid s))
               (with_subs (<[dep_uid s := []]> (subs s)) s)) in *.
  rewrite (bind_Ok _ _ s (dep_uid s) sa) in Hnew by reflexivity.
  set (o' := fresh (dom (observers sa))) in *.
  set (sb := with_observers (<[o' := mkObserver l (dep_uid s) 0]> (observers sa)) sa) in *.
  rewrite (bind_Ok _ _ sa tt sb) in Hnew by reflexivity.
  rewrite (bind_Ok _ _ sb x sb) in Hnew by (unfold the_obj; simpl; by rewrite Hx).
  set (x3 := with_ob (Some o') x) in *.
  set (s3 := with_objs (<[l := x3]> (objs sb)) sb) in *.
  rewrite (bind_Ok _ _ sb tt s3) in Hnew by reflexivity.
  rewrite bool_decide_eq_false_2 in Hnew by (by rewrite Hcls).
  assert (Hx3 : objs s3 !! l = Some x3) by (simpl; apply lookup_insert_eq).
  unfold bind at 1 in Hnew.
  destruct (walk_body n _ l s3) as [[] s4|e4 s4] eqn:Hwalk; [|done].
  injection Hnew as <- <-.
  unfold walk_body in Hwalk.
  rewrite (bind_Ok _ _ s3 x3 s3) in Hwalk by (unfold the_obj; by rewrite Hx3).
  destruct (walk_keys n _ (rec_observe_mono n) (rec_observe_kept n) l
              (own_keys x3) x3 s3 s4) as (x4 & Hx4 & Hob4 & Hout & Hfix & Hin);
    [by apply own_keys_NoDup | done | by eexists | done |].
  (* the count of roots *)
  assert (Hfinal : objs s' = objs s4 /\ closures s' = closures s4
                   /\ target s' = target s4 /\ o = o').
  { destruct asRootData; simpl in Hobs.
    - unfold bind, the_observer in Hobs.
      destruct (observers s4 !! o'); simpl in Hobs; [|done].
      by injection Hobs as <- <-.
    - by injection Hobs as <- <-. }
  destruct Hfinal as (Hobjs & Hclos & Htarget & ->).
  exists x4. rewrite Hobjs. split; [done|]. split; [done|]. split.
  - intros k v w Hk.
    destruct (Hin k v w true) as (c & d & oc & Hk4 & Hc); [|done|].
    { apply elem_of_own_keys. apply list_elem_of_fmap.
      exists (k, PData v w true true). split; [done|].
      apply list_elem_of_In, filter_In. split; [|done].
      apply list_elem_of_In. by apply lookup_prop_elem. }
    exists c, d, oc. split; [done|]. rewrite Hclos. split; [done|].
    intros Ht m. unfold prop_get, prop_get_with.
    rewrite (bind_Ok _ _ s' x4 s') by (unfold the_obj; by rewrite Hobjs, Hx4).
    rewrite Hk4, call_getter_unfold. unfold call_getter_body.
    rewrite (bind_Ok _ _ s' (CReactive v d oc false false None None) s')
      by (unfold the_closure; by rewrite Hclos, Hc).
    unfold reactiveGetter, bind. simpl. by rewrite Ht.
  - intros k p Hk [Hconf|Henum]; [by apply Hfix|].
    rewrite Hout; [done|].
    intros Hin'. apply elem_of_own_keys in Hin'.
    apply list_elem_of_fmap in Hin' as ([k' p'] & Hk' & Hin'). simpl in Hk'. subst k'.
    apply list_elem_of_In, filter_In in Hin' as [Hin' Hen]. simpl in Hen.
    apply list_elem_of_In in Hin'.
    rewrite (lookup_prop_NoDup k p' (props x) Hnd Hin') in Hk.
    injection Hk as ->. congruence.
Qed.

(** ** [del] *)

Lemma lookup_remove_prop k ps : lookup_prop k (remove_prop k ps) = None.
Proof.
  unfold lookup_prop, remove_prop. induction ps as [|[k0 p0] ps IH]; simpl; [done|].
  destruct (bool_decide (k0 = k)) eqn:Hk; simpl; [done|]. by rewrite Hk.
Qed.

Lemma lookup_remove_prop_ne k k' ps :
  k' ≠ k -> lookup_prop k' (remove_prop k ps) = lookup_prop k' ps.
Proof.
  intros Hne. unfold lookup_prop, remove_prop.
  induction ps as [|[k0 p0] ps IH]; simpl; [done|].
  destruct (bool_decide (k0 = k)) eqn:Hk; simpl.
  - apply bool_decide_eq_true in Hk. subst k0.
    by rewrite bool_decide_eq_false_2 by done.
  - destruct (bool_decide (k0 = k')); [done | exact IH].
Qed.

Lemma remove_put_prop k p ps :
  lookup_prop k ps = None -> remove_prop k (put_prop k p ps) = ps.
Proof.
  unfold lookup_prop, remove_prop. induction ps as [|[k0 p0] ps IH]; simpl.
  - by rewrite bool_decide_eq_true_2.
  - destruct (bool_decide (k0 = k)) eqn:Hk; simpl; [done|].
    rewrite Hk. simpl. intros H. f_equal. by apply IH.
Qed.

(** The start of [del] on a heap object that is not an array, or with a
    key that is not an index. *)
Lemma del_unfold n t key x s :
  objs s !! t = Some x ->
  (cls x = CArray -> isValidArrayIndex key = None) ->
  del n (VObj t) key s
  = (let vmc := match ob x with
                | Some o => match observers s !! o with
                            | Some r => negb (bool_decide (vmCount r = 0))
                            | None => false
                            end
                | None => false
                end in
     if isVue x || vmc
     then (if negb (production (cfg s)) then warn del_on_root_warning else ret tt) s
     else if negb (hasOwn x key) then Ok tt s
          else (delete_prop t key ;;;
                match ob x with
                | None => ret tt
                | Some o => r <- the_observer o ;; Dep_notify n (ob_dep r)
                end) s).
Proof.
  intros Hx Hidx. unfold del.
  rewrite (bind_Ok _ _ s tt s) by (simpl; by rewrite andb_false_r).
  rewrite (bind_Ok _ _ s x s) by (unfold the_obj; by rewrite Hx).
  destruct (bool_decide (cls x = CArray)) eqn:Ha; [|done].
  apply bool_decide_eq_true in Ha. by rewrite (Hidx Ha).
Qed.

(** X14: what [del] refuses to do.  On [undefined] and [null] it throws the
    [TypeError] of [target.__ob__]; on a number or a boolean it returns;
    in both cases after a warning in a build that is not a production
    build, and only there.  On a heap object (for an array: with a key
    that is not a valid index): on a Vue instance or the root data of a
    component it deletes nothing and notifies nobody (and warns, again
    outside production only); on another object that is not an array, a
    key the object does not own, [__ob__] and [_isVue] apart, is ignored
    and the store is unchanged; on another object or array, a property
    that is not configurable is not deleted: [del] throws the [TypeError]
    of [delete] and notifies nobody. *)
Theorem del_refuses (n : nat) (target : jsval) (key : pkey) (s : store) :
  let warned := if production (cfg s) then s
                else log (EvWarn del_on_primitive_warning) s in
  (target = VUndef \/ target = VNull -> del n target key s = Thrown TypeError warned)
  /\ ((exists b, target = VBool b) \/ (exists z, target = VNum z) \/ target = VNaN ->
      del n target key s = Ok tt warned)
  /\ (forall t x,
        target = VObj t -> objs s !! t = Some x ->
        (cls x = CArray -> isValidArrayIndex key = None) ->
        (isVue x = true
         \/ (exists o r, ob x = Some o /\ observers s !! o = Some r /\ vmCount r ≠ 0) ->
         del n target key s
         = Ok tt (if production (cfg s) then s
                  else log (EvWarn del_on_root_warning) s))
        /\ (isVue x = false ->
            (forall o r, ob x = Some o -> observers s !! o = Some r -> vmCount r = 0) ->
            (cls x ≠ CArray -> field_key key = false -> own_property x key = None ->
             del n target key s = Ok tt s)
            /\ (forall p, own_property x key = Some p -> prop_configurable p = false ->
                  del n target key s = Thrown TypeError s))).
Proof.
  intros warned.
  assert (Hwarn : forall k : unit -> M unit,
             isUndef target || isPrimitive target = true ->
             ((fun s0 => if negb (production (cfg s0))
                            && (isUndef target || isPrimitive target)
                         then warn del_on_primitive_warning s0
                         else Ok tt s0) ;;; k tt) s = k tt warned).
  { intros k Hp. unfold bind, warned. rewrite Hp, andb_true_r.
    by destruct (production (cfg s)). }
  split; [|split].
  - intros [-> | ->]; unfold del; by rewrite (Hwarn (fun _ => _)).
  - intros [[b ->] | [[z ->] | ->]]; unfold del; by rewrite (Hwarn (fun _ => _)).
  - intros t x -> Hx Hidx. rewrite (del_unfold n t key x s Hx Hidx). cbv zeta.
    split.
    + intros [Hvue | (o & r & Hob & Hr & Hcount)].
      * rewrite Hvue. simpl. by destruct (production (cfg s)).
      * rewrite Hob, Hr, (bool_decide_eq_false_2 _ Hcount), orb_true_r. simpl.
        by destruct (production (cfg s)).
    + intros Hvue Hroot.
      assert (Hvmc : match ob x with
                     | Some o => match observers s !! o with
                                 | Some r => negb (bool_decide (vmCount r = 0))
                                 | None => false
                                 end
                     | None => false
                     end = false).
      { destruct (ob x) as [o|]; [|done].
        destruct (observers s !! o) as [r|] eqn:Hr; [|done].
        by rewrite (bool_decide_eq_true_2 _ (Hroot o r eq_refl Hr)). }
      rewrite Hvue, Hvmc. simpl. split.
      * intros _ _ Hown. unfold hasOwn. rewrite Hown.
        by rewrite bool_decide_eq_false_2 by (by intros [? ?]).
      * intros p Hown Hconf. unfold hasOwn. rewrite Hown.
        rewrite bool_decide_eq_true_2 by eauto. simpl.
        unfold delete_prop.
        rewrite (bind_Thrown _ _ s TypeError s); [done|].
        rewrite (bind_Ok _ _ s x s) by (unfold the_obj; by rewrite Hx).
        by rewrite Hown, Hconf.
Qed.

(** X15: [del] of a configurable own property (not [__ob__] or [_isVue];
    for an array: one whose key is not a valid index) of an object that
    is neither a Vue instance nor root data takes the property out and
    leaves every other property alone.  On an object without an observer that is all.  On an observed
    object [notify()] is then called on the observer's own dependency;
    when none of that dependency's subscribers is run synchronously,
    [del] returns after that one [notify()], which has called [update()]
    on each subscriber, and no object has changed besides. *)
Theorem del_removes_and_notifies (n : nat) (t : nat) (key : pkey) (x : Obj)
    (p : prop) (s : store) :
  objs s !! t = Some x ->
  (cls x = CArray -> isValidArrayIndex key = None) ->
  field_key key = false ->
  isVue x = false ->
  (forall o r, ob x = Some o -> observers s !! o = Some r ->
     vmCount r = 0 /\ no_sync_subscriber (ob_dep r) s) ->
  lookup_prop key (props x) = Some p ->
  prop_configurable p = true ->
  let x' := with_props (remove_prop key (props x)) x in
  let s1 := with_objs (<[t := x']> (objs s)) s in
  let r := del n (VObj t) key s in
  lookup_prop key (props x') = None
  /\ (forall k, k ≠ key -> lookup_prop k (props x') = lookup_prop k (props x))
  /\ (ob x = None -> r = Ok tt s1)
  /\ (forall o ro, ob x = Some o -> observers s !! o = Some ro ->
        r = Dep_notify n (ob_dep ro) s1
        /\ exists s2,
            r = Ok tt s2
            /\ objs s2 = objs s1
            /\ trace s2 = trace s ++ EvNotify (ob_dep ro)
                            :: (EvUpdate <$> notify_snapshot s (ob_dep ro))).
Proof.
  intros Hx Hidx _ Hvue Hroot Hk Hconf x' s1 r.
  split; [apply lookup_remove_prop|].
  split; [intros k Hne; by apply lookup_remove_prop_ne|].
  assert (Hown : own_property x key = Some p) by (unfold own_property; by rewrite Hk).
  assert (Hr : r = match ob x with
                   | None => Ok tt s1
                   | Some o => (ro <- the_observer o ;; Dep_notify n (ob_dep ro)) s1
                   end).
  { unfold r. rewrite (del_unfold n t key x s Hx Hidx). cbv zeta.
    assert (Hvmc : match ob x with
                   | Some o => match observers s !! o with
                               | Some r => negb (bool_decide (vmCount r = 0))
                               | None => false
                               end
                   | None => false
                   end = false).
    { destruct (ob x) as [o|]; [|done].
      destruct (observers s !! o) as [ro|] eqn:Hro; [|done].
      by rewrite (bool_decide_eq_true_2 _ (proj1 (Hroot o ro eq_refl Hro))). }
    rewrite Hvue, Hvmc. simpl. unfold hasOwn. rewrite Hown.
    rewrite bool_decide_eq_true_2 by eauto. simpl.
    rewrite (bind_Ok _ _ s tt s1).
    - by destruct (ob x).
    - unfold delete_prop.
      rewrite (bind_Ok _ _ s x s) by (unfold the_obj; by rewrite Hx).
      by rewrite Hown, Hconf. }
  split.
  - intros Hob. by rewrite Hr, Hob.
  - intros o ro Hob Hro.
    assert (Hnot : r = Dep_notify n (ob_dep ro) s1).
    { rewrite Hr, Hob.
      by rewrite (bind_Ok _ _ s1 ro s1) by (unfold the_observer; simpl; by rewrite Hro). }
    split; [done|]. rewrite Hnot. unfold Dep_notify.
    rewrite (bind_Ok _ _ s1 tt (log (EvNotify (ob_dep ro)) s1)) by reflexivity.
    change (notify_snapshot (log (EvNotify (ob_dep ro)) s1) (ob_dep ro))
      with (notify_snapshot s (ob_dep ro)).
    destruct (updates_quiet n (notify_snapshot s (ob_dep ro))
                (log (EvNotify (ob_dep ro)) s1))
      as (s2 & Hs2 & _ & _ & _ & _ & Ho2 & _ & _ & _ & Htr2).
    { intros w Hin. apply (proj2 (Hroot o ro Hob Hro)).
      by rewrite <- (notify_snapshot_perm s (ob_dep ro)). }
    exists s2. split; [done|]. split; [done|].
    rewrite Htr2. simpl. by rewrite <- app_assoc.
Qed.

(** ** [set] followed by [del] *)

Lemma observers_kept_refl s : observers_kept s s.
Proof. by intros o r. Qed.

Lemma observers_kept_trans s1 s2 s3 :
  observers_kept s1 s2 -> observers_kept s2 s3 -> observers_kept s1 s3.
Proof. intros H1 H2 o r Hr. by apply H2, H1. Qed.

Lemma observers_kept_same s s' : observers s' = observers s -> observers_kept s s'.
Proof. intros H o r. by rewrite H. Qed.

Lemma prop_get_observers n o k s :
  observers (store_of (prop_get n o k s)) = observers s.
Proof.
  destruct (dep_steps_frame _ _ (prop_get_steps n o k s)) as [evs Hf]. apply Hf.
Qed.

Section ObserversKept.
Variable n : nat.
Variable rec_observe : jsval -> bool -> M (option nat).
Hypothesis rec_observers_kept :
  forall v, preserves observers_kept (rec_observe v false).

Let Pb {A B} := @preserves_bind observers_kept observers_kept_trans A B.
Lemma defineReactive_body_observers obj key val cs sh :
  preserves observers_kept (defineReactive_body n rec_observe obj key val cs sh).
Proof.
  unfold defineReactive_body.
  apply Pb; [intros s; by apply observers_kept_same|]. intros dep.
  apply Pb; [apply preserves_the_obj, observers_kept_refl|]. intros x.
  match goal with |- context [if ?c then _ else _] => destruct c end;
    [intros s; apply observers_kept_refl|].
  intros s.
  generalize (descriptor_get (own_property x key) s)
             (descriptor_set (own_property x key) s).
  intros g st. revert s. cbv zeta. apply Pb.
  { destruct (_ && _); [|intros s; apply observers_kept_refl].
    intros s. apply observers_kept_same, prop_get_observers. }
  intros val'. apply Pb.
  { destruct sh; [intros s; apply observers_kept_refl | apply rec_observers_kept]. }
  intros childOb s'. apply observers_kept_same.
  unfold bind, set_closure, modify, define_accessor, bind, the_obj. simpl.
  destruct (objs s' !! obj) as [x'|]; simpl; [|done].
  destruct (lookup_prop key (props x')); simpl; [done|].
  by destruct (extensible x').
Qed.

Lemma walk_body_observers obj :
  preserves observers_kept (walk_body n rec_observe obj).
Proof.
  unfold walk_body.
  apply Pb; [apply preserves_the_obj, observers_kept_refl|]. intros x.
  apply preserves_for_each; [apply observers_kept_refl | apply observers_kept_trans|].
  intros k. apply defineReactive_body_observers.
Qed.

Lemma observeArray_body_observers items :
  preserves observers_kept (observeArray_body n rec_observe items).
Proof.
  unfold observeArray_body.
  apply Pb; [apply preserves_the_obj, observers_kept_refl|]. intros x.
  apply preserves_for_each; [apply observers_kept_refl | apply observers_kept_trans|].
  intros i. apply Pb; [intros s; apply observers_kept_same, prop_get_observers|].
  intros e. apply Pb; [apply rec_observers_kept|].
  intros _ s. apply observers_kept_refl.
Qed.

Lemma new_Observer_body_observers value :
  preserves observers_kept (new_Observer_body n rec_observe value).
Proof.
  unfold new_Observer_body.
  apply Pb; [intros s; by apply observers_kept_same|]. intros dep s.
  cbv beta zeta. set (o := fresh (dom (observers s))).
  set (s2 := with_observers (<[o := mkObserver value dep 0]> (observers s)) s).
  rewrite (bind_Ok _ _ s tt s2) by reflexivity.
  apply (observers_kept_trans _ s2).
  { intros o' r Hr. simpl. rewrite lookup_insert_ne; [done|].
    intros <-. apply (is_fresh (dom (observers s))). apply elem_of_dom. by eexists. }
  clearbody s2 o. revert s2.
  apply Pb; [apply preserves_the_obj, observers_kept_refl|]. intros x.
  apply Pb; [intros s0; by apply observers_kept_same|]. intros _.
  apply Pb; [|intros _ s0; apply observers_kept_refl].
  destruct (bool_decide _); [|apply walk_body_observers].
  apply Pb; [apply preserves_the_obj, observers_kept_refl|]. intros x'.
  apply Pb; [intros s0; by apply observers_kept_same|]. intros _.
  apply observeArray_body_observers.
Qed.

Lemma observe_body_observers value :
  preserves observers_kept (observe_body n rec_observe value false).
Proof.
  unfold observe_body.
  destruct value as [| | | | | |l]; try (intros ?; apply observers_kept_refl).
  apply Pb; [apply preserves_the_obj, observers_kept_refl|]. intros x.
  destruct (bool_decide _); [intros s; apply observers_kept_refl|].
  apply Pb; [|intros [o|] s; apply observers_kept_refl].
  destruct (ob x); [intros s; apply observers_kept_refl|].
  intros s. match goal with |- context [if ?c then _ else _] => destruct c end;
    [|apply observers_kept_refl].
  apply (Pb (new_Observer_body n rec_observe l));
    [apply new_Observer_body_observers|].
  intros o s0. apply observers_kept_refl.
Qed.
End ObserversKept.

Lemma observe_observers n : forall v, preserves observers_kept (observe n v false).
Proof.
  induction n as [|n IH]; intros v s; simpl.
  - apply observe_body_observers. intros ? ?. apply observers_kept_refl.
  - by apply observe_body_observers.
Qed.

(** A key that a plain object does not own is not a property of it,
    unless [Object.prototype] has it. *)
Lemma new_key_of_plain x key :
  cls x = CPlain -> own_property x key = None ->
  has_property x key && negb (in_Object_prototype key) = false.
Proof.
  clear traverse parsePath.
  intros Hcls Hown. unfold has_property. rewrite Hown, Hcls.
  rewrite (bool_decide_eq_false_2 (is_Some None)) by (by intros [? ?]).
  rewrite (bool_decide_eq_false_2 (CPlain = CArray)) by done.
  simpl. rewrite orb_false_r. apply andb_negb_r.
Qed.

(** [defineReactive(obj, key, val)] on a key an observed object does not
    have, when it returns. *)
Lemma defineReactive_new n obj key val x s s1 :
  objs s !! obj = Some x -> is_Some (ob x) ->
  own_property x key = None ->
  defineReactive n obj key (Some val) false false s = Ok tt s1 ->
  exists c d oc,
    objs s1 !! obj
      = Some (with_props (put_prop key (PAccessor c true true) (props x)) x)
    /\ closures s1 !! c = Some (CReactive val d oc false false None None)
    /\ observers_kept s s1.
Proof.
  intros Hx Hob Hp Hdef. unfold defineReactive, defineReactive_body in Hdef.
  set (sa := with_dep_uid (S (dep_uid s))
               (with_subs (<[dep_uid s := []]> (subs s)) s)) in *.
  rewrite (bind_Ok _ _ s (dep_uid s) sa) in Hdef by reflexivity.
  rewrite (bind_Ok _ _ sa x sa) in Hdef by (unfold the_obj; simpl; by rewrite Hx).
  rewrite Hp in Hdef. simpl in Hdef.
  rewrite (bind_Ok _ _ sa val sa) in Hdef by reflexivity.
  unfold bind at 1 in Hdef.
  pose proof (observe_kept n val false sa) as Hkept.
  pose proof (observe_observers n val sa) as Hobs.
  destruct (observe n val false sa) as [oc sb|e sb]; [|done]. simpl in *.
  assert (Hxb : objs sb !! obj = Some x) by (by apply Hkept).
  set (c := fresh (dom (closures sb))) in *.
  rewrite (bind_Ok _ _ sb tt
             (with_closures
                (<[c := CReactive val (dep_uid s) oc false false None None]> (closures sb)) sb))
    in Hdef by reflexivity.
  unfold define_accessor, bind, the_obj in Hdef. simpl in Hdef.
  rewrite Hxb in Hdef.
  assert (Hk : lookup_prop key (props x) = None).
  { unfold own_property in Hp. by destruct (lookup_prop key (props x)). }
  rewrite Hk in Hdef. destruct (extensible x); simpl in Hdef; [|done].
  injection Hdef as <-. exists c, (dep_uid s), oc. simpl.
  split; [apply lookup_insert_eq|]. split; [apply lookup_insert_eq|].
  intros o r Hr. simpl. by apply Hobs.
Qed.

(** X16: adding a key to an observed object with [set] and deleting it again
    with [del], outside any evaluation and when no subscriber of the
    observer's dependency is run synchronously.  The object is a plain
    object that is neither a Vue instance nor root data; the key is new
    and is neither [__ob__] nor [_isVue].  [set] returns the value and
    the object owns the key
    as an interceptor; [del] then gives back the object exactly as it was
    before [set], and each of the two has called [notify()] on the
    dependency of the object's observer. *)
Theorem set_then_del (n m : nat) (t : nat) (key : pkey) (val : jsval) (x : Obj)
    (o : nat) (ro : Observer) (s : store) :
  objs s !! t = Some x ->
  cls x = CPlain ->
  field_key key = false ->
  isVue x = false ->
  ob x = Some o -> observers s !! o = Some ro ->
  vmCount ro = 0 -> ob_value ro = t ->
  own_property x key = None ->
  target s = None ->
  no_sync_subscriber (ob_dep ro) s ->
  forall v s1, set n (VObj t) key val s = Ok v s1 ->
    v = val
    /\ (exists x1 c d oc,
          objs s1 !! t = Some x1
          /\ lookup_prop key (props x1) = Some (PAccessor c true true)
          /\ closures s1 !! c = Some (CReactive val d oc false false None None))
    /\ (exists evs, trace s1 = trace s ++ evs /\ EvNotify (ob_dep ro) ∈ evs)
    /\ let r := del m (VObj t) key s1 in
       objs (store_of r) !! t = Some x
       /\ (forall l, l ≠ t -> objs (store_of r) !! l = objs s1 !! l)
       /\ exists evs, trace (store_of r) = trace s1 ++ EvNotify (ob_dep ro) :: evs.
Proof.
  intros Hx Hcls _ Hvue Hob Hro Hcount Hval Hown _ _ v s1 Hset.
  pose proof (new_key_of_plain x key Hcls Hown) as Hnew.
  assert (Hidx : cls x = CArray -> isValidArrayIndex key = None)
    by (intros Ha; congruence).
  assert (Hnoidx : (if bool_decide (cls x = CArray)
                    then isValidArrayIndex key else None) = None).
  { destruct (bool_decide (cls x = CArray)) eqn:Ha; [|done].
    apply bool_decide_eq_true in Ha. auto. }
  unfold set in Hset.
  rewrite (bind_Ok _ _ s tt s) in Hset by (simpl; by rewrite andb_false_r).
  rewrite (bind_Ok _ _ s x s) in Hset by (unfold the_obj; by rewrite Hx).
  rewrite Hnoidx, Hnew, Hob, Hro, Hcount, Hvue in Hset. simpl in Hset.
  rewrite (bind_Ok _ _ s ro s) in Hset by (unfold the_observer; by rewrite Hro).
  rewrite Hval in Hset. unfold bind at 1 in Hset.
  pose proof (defineReactive_body_mono n (observe n) (observe_mono n)
                t key (Some val) false false s) as Hmono.
  fold (defineReactive n) in Hmono.
  destruct (defineReactive n t key (Some val) false false s) as [[] sd|e sd] eqn:Hdef;
    [|done].
  simpl in Hmono.
  destruct (defineReactive_new n t key val x s sd Hx) as (c & d & oc & Hxd & Hcd & Hkept);
    [by rewrite Hob | done | done |].
  set (xd := with_props (put_prop key (PAccessor c true true) (props x)) x) in *.
  destruct (Dep_notify_frame n (ob_dep ro) sd) as (evs1 & j1 & Hq1 & _).
  unfold bind at 1 in Hset.
  destruct (Dep_notify n (ob_dep ro) sd) as [[] s1'|e s1']; [|done].
  simpl in Hq1, Hset. injection Hset as <- <-.
  split; [done|].
  assert (Hx1 : objs s1' !! t = Some xd) by (by rewrite (qf_objs _ _ _ Hq1)).
  assert (Hk1 : lookup_prop key (props xd) = Some (PAccessor c true true))
    by apply lookup_put_prop.
  split.
  { exists xd, c, d, oc. split; [done|]. split; [done|].
    by rewrite (qf_closures _ _ _ Hq1). }
  split.
  { destruct (om_trace _ _ Hmono) as (evs0 & Ht0 & _).
    exists (evs0 ++ EvNotify (ob_dep ro) :: evs1).
    split; [rewrite (qf_trace _ _ _ Hq1), Ht0; by rewrite <- app_assoc|].
    apply elem_of_app. right. left. }
  cbv zeta.
  assert (Hro1 : observers s1' !! o = Some ro)
    by (rewrite (qf_observers _ _ _ Hq1); by apply Hkept).
  rewrite (del_unfold m t key xd s1' Hx1) by exact Hidx.
  cbv zeta.
  assert (Hobd : ob xd = Some o) by exact Hob.
  assert (Hvued : isVue xd = false) by exact Hvue.
  rewrite Hobd, Hro1, Hcount, Hvued. simpl.
  assert (Hownd : own_property xd key = Some (PAccessor c true true))
    by (unfold own_property; by rewrite Hk1).
  unfold hasOwn. rewrite Hownd. rewrite bool_decide_eq_true_2 by eauto. simpl.
  assert (Hback : with_props (remove_prop key (props xd)) xd = x).
  { unfold xd. simpl. rewrite remove_put_prop.
    - by destruct x.
    - unfold own_property in Hown. by destruct (lookup_prop key (props x)). }
  set (s2 := with_objs (<[t := x]> (objs s1')) s1').
  rewrite (bind_Ok _ _ s1' tt s2).
  2:{ unfold delete_prop.
      rewrite (bind_Ok _ _ s1' xd s1') by (unfold the_obj; by rewrite Hx1).
      rewrite Hownd. change (prop_configurable (PAccessor c true true)) with true.
      cbv iota. unfold set_obj, modify. by rewrite Hback. }
  rewrite (bind_Ok _ _ s2 ro s2) by (unfold the_observer; simpl; by rewrite Hro1).
  destruct (Dep_notify_frame m (ob_dep ro) s2) as (evs2 & j2 & Hq2 & _).
  rewrite (qf_objs _ _ _ Hq2). split; [simpl; apply lookup_insert_eq|].
  split; [intros l Hne; simpl; by rewrite lookup_insert_ne|].
  exists evs2. apply Hq2.
Qed.

(** ** [Vue.observable] and arrays *)

(** [observe] returns nothing only where it changes nothing, and that
    does not depend on the call depth. *)
Lemma observe_none n v b s s' :
  observe n v b s = Ok None s' ->
  s' = s /\ forall m, observe m v b s = Ok None s.
Proof.
  intros Hobs.
  assert (Hbody : forall m,
             observe_body m (match m with
                             | 0 => fun _ _ => throw RangeError
                             | S m' => observe m'
                             end) v b s = Ok None s' ->
             s' = s
             /\ forall m', observe_body m' (match m' with
                                            | 0 => fun _ _ => throw RangeError
                                            | S m'' => observe m''
                                            end) v b s = Ok None s).
  { intros m H. unfold observe_body in *.
    destruct v as [| | | | | |l]; try (injection H as <-; by split).
    unfold bind at 1 in H. unfold the_obj in H.
    destruct (objs s !! l) as [x|] eqn:Hx; [|done].
    assert (Hstart : forall (k : Obj -> M (option nat)),
               (x0 <- the_obj l ;; k x0) s = k x s).
    { intros k. by rewrite (bind_Ok _ _ s x s) by (unfold the_obj; by rewrite Hx). }
    destruct (bool_decide (cls x = CVNode)) eqn:Hv.
    { injection H as <-. split; [done|]. intros m'.
      rewrite (Hstart (fun _ => _)). by rewrite Hv. }
    unfold bind at 1 in H.
    destruct (ob x) as [o0|] eqn:Hob.
    - simpl in H. destruct b; simpl in H; [|done].
      unfold bind, the_observer in H. by destruct (observers s !! o0).
    - match type of H with context [if ?c then _ else _] => destruct c eqn:Hc end.
      + unfold bind at 1 in H.
        destruct (new_Observer_body m _ l s) as [o1 s1|e s1]; [|done].
        simpl in H. destruct b; simpl in H; [|done].
        unfold bind, the_observer in H. by destruct (observers s1 !! o1).
      + simpl in H. injection H as <-. split; [done|]. intros m'.
        rewrite (Hstart (fun _ => _)). rewrite Hv, Hob.
        unfold bind at 1. by rewrite Hc. }
  rewrite observe_unfold in Hobs. destruct (Hbody n Hobs) as [-> H].
  split; [done|]. intros m. rewrite observe_unfold. apply H.
Qed.

(** X17: [Vue.observable(obj)], when it returns, returns [obj] itself, neither
    a copy nor the observer; and calling it again on the result, with any
    call depth left, returns [obj] once more and changes nothing. *)
Theorem Vue_observable_idempotent (n : nat) (obj v : jsval) (s s' : store) :
  Vue_observable n obj s = Ok v s' ->
  v = obj
  /\ (forall o, observe n obj false s = Ok (Some o) s' -> ob_of obj s' = Some o)
  /\ forall m, Vue_observable m obj s' = Ok obj s'.
Proof.
  unfold Vue_observable. intros H. unfold bind in H.
  destruct (observe n obj false s) as [[o|] s1|e s1] eqn:Hobs; [| |done];
    injection H as <- <-.
  - split; [done|].
    destruct (observe_marks _ _ _ _ _ _ Hobs) as (l & x' & -> & Hx' & Hob' & Hv').
    split.
    + intros o' [= <-]. simpl. by rewrite Hx'.
    + intros m. unfold bind.
      by rewrite (observe_observed m l x' o s1 Hx' Hv' Hob').
  - split; [done|]. split; [done|].
    destruct (observe_none _ _ _ _ _ Hobs) as [-> Hagain].
    intros m. unfold bind. by rewrite Hagain.
Qed.

(** X18: when [observe] wraps an array that carried no observer, the array
    gets the observer and the intercepting methods and is otherwise
    untouched: its length and its elements are what they were, and no
    index has become an interceptor. *)
Theorem observe_array_keeps_elements (n : nat) (a : nat) (x : Obj)
    (asRootData : bool) (o : nat) (s s' : store) :
  objs s !! a = Some x ->
  ob x = None ->
  cls x = CArray ->
  observe n (VObj a) asRootData s = Ok (Some o) s' ->
  objs s' !! a = Some (with_augmented true (with_ob (Some o) x))
  /\ exists r, observers s' !! o = Some r /\ ob_value r = a.
Proof.
  intros Hx Hob Hcls Hobs.
  rewrite observe_unfold in Hobs. unfold observe_body in Hobs.
  rewrite (bind_Ok _ _ s x s) in Hobs by (unfold the_obj; by rewrite Hx).
  rewrite bool_decide_eq_false_2 in Hobs by (by rewrite Hcls).
  rewrite Hob in Hobs. unfold bind at 1 in Hobs.
  match type of Hobs with context [if ?c then _ else _] => destruct c end;
    [|by destruct asRootData].
  unfold bind at 1 in Hobs.
  destruct (new_Observer_body n _ a s) as [o1 s1|e1 s1] eqn:Hnew; [|done].
  simpl in Hobs.
  unfold new_Observer_body in Hnew.
  set (sa := with_dep_uid (S (dep_uid s))
               (with_subs (<[dep_uid s := []]> (subs s)) s)) in *.
  rewrite (bind_Ok _ _ s (dep_uid s) sa) in Hnew by reflexivity.
  set (o' := fresh (dom (observers sa))) in *.
  set (sb := with_observers (<[o' := mkObserver a (dep_uid s) 0]> (observers sa)) sa) in *.
  rewrite (bind_Ok _ _ sa tt sb) in Hnew by reflexivity.
  rewrite (bind_Ok _ _ sb x sb) in Hnew by (unfold the_obj; simpl; by rewrite Hx).
  set (x3 := with_ob (Some o') x) in *.
  set (s3 := with_objs (<[a := x3]> (objs sb)) sb) in *.
  rewrite (bind_Ok _ _ sb tt s3) in Hnew by reflexivity.
  rewrite bool_decide_eq_true_2 in Hnew by done.
  assert (Hx3 : objs s3 !! a = Some x3) by (simpl; apply lookup_insert_eq).
  unfold bind at 1 in Hnew.
  rewrite (bind_Ok _ _ s3 x3 s3) in Hnew by (unfold the_obj; by rewrite Hx3).
  set (x4 := with_augmented true x3) in *.
  set (s4 := with_objs (<[a := x4]> (objs s3)) s3) in *.
  rewrite (bind_Ok _ _ s3 tt s4) in Hnew by reflexivity.
  pose proof (observeArray_body_kept n _ (rec_observe_kept n) a s4) as Hkept.
  pose proof (observeArray_body_mono n _ (rec_observe_mono n) a s4) as Hmono.
  destruct (observeArray_body n _ a s4) as [[] s5|e5 s5]; [|done].
  simpl in Hkept, Hmono. injection Hnew as <- <-.
  assert (Hx5 : objs s5 !! a = Some x4).
  { apply Hkept; [done | simpl; apply lookup_insert_eq | by eexists]. }
  destruct (om_observers _ _ Hmono o' (mkObserver a (dep_uid s) 0))
    as (r5 & Hr5 & Hval5 & _); [simpl; apply lookup_insert_eq|].
  destruct asRootData; simpl in Hobs.
  - unfold bind, the_observer in Hobs. rewrite Hr5 in Hobs. simpl in Hobs.
    injection Hobs as <- <-. simpl. split; [done|].
    eexists. split; [apply lookup_insert_eq | done].
  - injection Hobs as <- <-. split; [done|]. by exists r5.
Qed.

(** ** After [teardown] *)

Lemma teardown_spec w W V s :
  watchers s !! w = Some W ->
  active W = true ->
  vms s !! vm W = Some V ->
  exists s',
    Watcher_teardown w s = Ok tt s'
    /\ (forall d, subs_of s' d
                  = remove_n (occurrences d (reverse (deps W))) (subs_of s d) w)
    /\ watchers s' = <[w := with_active false W]> (watchers s)
    /\ vms s' = (if negb (_isBeingDestroyed V)
                 then <[vm W := mkComponent (_watcher V)
                                  (util_remove (_watchers V) w)
                                  (_isBeingDestroyed V)]> (vms s)
                 else vms s)
    /\ queue s' = queue s /\ trace s' = trace s.
Proof.
  intros Hw Hact Hvm. unfold Watcher_teardown.
  rewrite (bind_Ok _ _ s W s) by (by apply the_watcher_Ok).
  rewrite Hact.
  rewrite (bind_Ok _ _ s V s) by (unfold the_vm; by rewrite Hvm).
  set (s1 := if negb (_isBeingDestroyed V)
             then with_vms (<[vm W := mkComponent (_watcher V)
                                        (util_remove (_watchers V) w)
                                        (_isBeingDestroyed V)]> (vms s)) s
             else s).
  assert (Hs1w : watchers s1 = watchers s) by (unfold s1; by destruct (negb _)).
  assert (Hs1s : forall d, subs_of s1 d = subs_of s d)
    by (intros d; unfold s1; by destruct (negb _)).
  rewrite (bind_Ok _ _ s tt s1) by (unfold s1; destruct (negb _); reflexivity).
  destruct (removeSub_pass (fun _ => false) w (reverse (deps W)) s1)
    as (m & Hm & Hsubs).
  simpl in Hm. rewrite (bind_Ok _ _ s1 tt (with_subs m s1)) by exact Hm.
  rewrite (bind_Ok _ _ _ W (with_subs m s1))
    by (apply the_watcher_Ok; simpl; by rewrite Hs1w).
  eexists. split; [reflexivity|]. split; [|split; [|split; [|split]]].
  - intros d.
    change (subs_of (with_subs m s1) d
            = remove_n (occurrences d (reverse (deps W))) (subs_of s d) w).
    rewrite subs_of_with_subs, Hsubs, filter_all_true. by rewrite Hs1s.
  - simpl. by rewrite Hs1w.
  - simpl. unfold s1. by destruct (negb _).
  - simpl. unfold s1. by destruct (negb _).
  - simpl. unfold s1. by destruct (negb _).
Qed.

(** X19: a watcher whose subscriptions are in order is silent once torn down:
    [teardown()] returns, the watcher is in no subscriber list at all and
    (unless the component is being destroyed) no longer in
    [vm._watchers]; afterwards no [notify()] of any dependency calls its
    [update()], queues it or changes it, and [run()] on it does nothing. *)
Theorem torn_down_is_silent (n : nat) (w : nat) (W : Watcher) (V : Component)
    (s : store) :
  subscribed w s ->
  watchers s !! w = Some W ->
  active W = true ->
  vms s !! vm W = Some V ->
  exists s',
    Watcher_teardown w s = Ok tt s'
    /\ (forall d, w ∉ subs_of s' d)
    /\ (_isBeingDestroyed V = false ->
        (_watchers <$> vms s' !! vm W) = Some (util_remove (_watchers V) w))
    /\ (forall d,
          let r := Dep_notify n d s' in
          (forall evs, trace (store_of r) = trace s' ++ evs -> EvUpdate w ∉ evs)
          /\ (w ∈ queue (store_of r) -> w ∈ queue s)
          /\ watchers (store_of r) !! w = Some (with_active false W))
    /\ Watcher_run n w s' = Ok tt s'.
Proof.
  intros (W0 & Hw0 & _ & _ & _ & _ & Hsubs) Hw Hact Hvm.
  rewrite Hw in Hw0. injection Hw0 as <-.
  destruct (teardown_spec w W V s Hw Hact Hvm)
    as (s' & Htd & Hsub & Hws & Hvs & Hqs & Hts).
  exists s'. split; [done|].
  assert (Hgone : forall d, w ∉ subs_of s' d).
  { intros d. rewrite Hsub. destruct (Hsubs d) as [Hnd Hiff].
    destruct (decide (d ∈ deps W)) as [Hd|Hd].
    - rewrite remove_n_NoDup; [by apply util_remove_NoDup | done |].
      apply occurrences_pos. by apply elem_of_reverse.
    - intros Hin. apply remove_n_subseteq in Hin. by apply Hd, Hiff. }
  assert (Hw' : watchers s' !! w = Some (with_active false W))
    by (rewrite Hws; apply lookup_insert_eq).
  split; [done|]. split.
  { intros Hbd. rewrite Hvs, Hbd. simpl. by rewrite lookup_insert_eq. }
  split.
  - intros d r.
    destruct (Dep_notify_frame n d s') as (evs & k & Hq & Hu & _).
    destruct (Dep_notify_effect n d s') as (_ & Hkeep & Hqueue).
    fold r in Hq, Hkeep, Hqueue.
    split; [|split].
    + intros evs' Htr. rewrite (qf_trace _ _ _ Hq) in Htr.
      apply app_inv_head in Htr. subst evs'.
      intros Hin. apply elem_of_cons in Hin as [Hin|Hin]; [done|].
      apply elem_of_updates in Hin. rewrite Hu in Hin.
      apply (Hgone d). rewrite <- (notify_snapshot_perm s' d).
      by apply (subseteq_take k (notify_snapshot s' d)).
    + intros Hin. destruct (Hqueue w Hin) as [Hin'|Hin']; [congruence|].
      by apply Hgone in Hin'.
    + rewrite Hkeep by apply Hgone. done.
  - unfold Watcher_run.
    by rewrite (bind_Ok _ _ s' (with_active false W) s') by (by apply the_watcher_Ok).
Qed.

(** ** [dependArray] *)

Lemma dependArray_unfold n a s :
  dependArray n a s
  = dependArray_body
      (match n with 0 => fun _ => throw RangeError | S n' => call_getter n' end)
      (match n with 0 => fun _ => throw RangeError | S n' => dependArray n' end)
      a s.
Proof. by destruct n. Qed.

Lemma dependArray_elements rec_getter rec_dependArray a A w W s0 :
  objs s0 !! a = Some A ->
  target s0 = Some w ->
  forall (L : list nat) s evs,
    (forall i, i ∈ L ->
       exists e, element A i = Some e /\ is_array e s0 = false
                 /\ (truthy e = true -> forall o, ob_of e s0 = Some o ->
                     is_Some (observers s0 !! o))) ->
    collecting w W s0 s evs ->
    exists s' evs',
      for_each (fun i =>
          e <- prop_get_with rec_getter a (KIndex i) ;;
          (fun s =>
             match (if truthy e then ob_of e s else None) with
             | Some o => (obs <- the_observer o ;; Dep_depend (ob_dep obs)) s
             | None => Ok tt s
             end) ;;;
          fun s =>
            match e with
            | VObj l => if is_array e s then rec_dependArray l s else Ok tt s
            | _ => Ok tt s
            end) L s
      = Ok tt s'
      /\ collecting w W s0 s' (evs ++ evs')
      /\ forall i e o r, i ∈ L -> element A i = Some e -> truthy e = true ->
           ob_of e s0 = Some o -> observers s0 !! o = Some r ->
           ob_dep r ∈ touched evs'.
Proof.
  intros HA Ht. induction L as [|i L IH]; intros s evs Hel Hc.
  - exists s, []. rewrite app_nil_r. split; [done|]. split; [done|].
    intros i e o r Hin. by apply elem_of_nil in Hin.
  - destruct (Hel i) as (e & He & Harr & Hobs); [left|].
    assert (Hobjs : objs s = objs s0) by apply Hc.
    assert (Hobsv : observers s = observers s0) by apply Hc.
    assert (Hget : prop_get_with rec_getter a (KIndex i) s = Ok e s).
    { unfold prop_get_with.
      rewrite (bind_Ok _ _ s A s) by (unfold the_obj; by rewrite Hobjs, HA).
      unfold element in He.
      destruct (lookup_prop (KIndex i) (props A)) as [[v ? ? ?|? ? ?]|];
        [by injection He as -> | done | by injection He as <-]. }
    assert (Hob_eq : forall s1, objs s1 = objs s0 -> ob_of e s1 = ob_of e s0).
    { intros s1 H1. unfold ob_of. destruct e; try done. by rewrite H1. }
    assert (Harr_eq : forall s1, objs s1 = objs s0 -> is_array e s1 = false).
    { intros s1 H1. unfold is_array in *. destruct e; try done. by rewrite H1. }
    assert (Hstep : exists s1 evs1,
               (fun s =>
                  match (if truthy e then ob_of e s else None) with
                  | Some o => (obs <- the_observer o ;; Dep_depend (ob_dep obs)) s
                  | None => Ok tt s
                  end) s = Ok tt s1
               /\ collecting w W s0 s1 (evs ++ evs1)
               /\ forall o r, truthy e = true -> ob_of e s0 = Some o ->
                    observers s0 !! o = Some r -> ob_dep r ∈ touched evs1).
    { cbv beta. rewrite (Hob_eq s Hobjs).
      destruct (truthy e) eqn:Htr.
      - destruct (ob_of e s0) as [o|] eqn:Hoe.
        + destruct (Hobs eq_refl o eq_refl) as [r Hr].
          destruct (collecting_depend w W s0 s evs (ob_dep r) Ht Hc) as (s1 & Hs1 & Hc1).
          exists s1, [EvDepend (ob_dep r) (Some w)]. split; [|split; [done|]].
          * by rewrite (bind_Ok _ _ s r s)
              by (unfold the_observer; by rewrite Hobsv, Hr).
          * intros o' r' _ [= <-] Hr'. rewrite Hr in Hr'. injection Hr' as <-.
            simpl. left.
        + exists s, []. rewrite app_nil_r. split; [done|]. split; [done|].
          intros o r _ Ho. done.
      - exists s, []. rewrite app_nil_r. split; [done|]. split; [done|].
        intros o r Ho. done. }
    destruct Hstep as (s1 & evs1 & Hs1 & Hc1 & Hin1).
    destruct (IH s1 (evs ++ evs1)) as (s2 & evs2 & Hs2 & Hc2 & Hin2);
      [intros j Hj; apply Hel; by right | done |].
    exists s2, (evs1 ++ evs2). split; [|split].
    + simpl. rewrite (bind_Ok _ _ s tt s1); [exact Hs2|].
      rewrite (bind_Ok _ _ s e s Hget). rewrite (bind_Ok _ _ s tt s1 Hs1).
      assert (Ha1 : is_array e s1 = false) by (apply Harr_eq; apply Hc1).
      destruct e; try done. by rewrite Ha1.
    + by rewrite app_assoc.
    + intros j e' o r Hj He' Htr Ho Hr. rewrite touched_app, elem_of_app.
      apply elem_of_cons in Hj as [->|Hj].
      * left. rewrite He in He'. injection He' as <-. by eapply Hin1.
      * right. by eapply Hin2.
Qed.

(** X20: [dependArray(value)], while watcher [w] is being evaluated, on an
    array whose elements are plain data and not arrays themselves:
    the dependency of the observer of every element that carries one is
    registered with [w], and nothing else changes: no object, no observer,
    no other watcher. *)
Theorem dependArray_registers (n : nat) (a : nat) (A : Obj) (w : nat)
    (W : Watcher) (s : store) :
  objs s !! a = Some A ->
  target s = Some w ->
  watchers s !! w = Some W ->
  (forall i, i < len A ->
     exists e, element A i = Some e /\ is_array e s = false
               /\ (truthy e = true -> forall o, ob_of e s = Some o ->
                   is_Some (observers s !! o))) ->
  exists s' W',
    dependArray n a s = Ok tt s'
    /\ watchers s' = <[w := W']> (watchers s)
    /\ (forall i e o r, i < len A -> element A i = Some e -> truthy e = true ->
          ob_of e s = Some o -> observers s !! o = Some r ->
          ob_dep r ∈ newDepIds W')
    /\ deps W' = deps W /\ depIds W' = depIds W
    /\ objs s' = objs s /\ observers s' = observers s
    /\ closures s' = closures s /\ queue s' = queue s
    /\ target s' = Some w.
Proof.
  intros HA Ht Hw Hel.
  rewrite dependArray_unfold. unfold dependArray_body.
  rewrite (bind_Ok _ _ s A s) by (unfold the_obj; by rewrite HA).
  destruct (dependArray_elements
              (match n with 0 => fun _ => throw RangeError | S n' => call_getter n' end)
              (match n with 0 => fun _ => throw RangeError | S n' => dependArray n' end)
              a A w W s HA Ht (seq 0 (len A)) s [])
    as (s' & evs & Hrun & Hc & Hin).
  { intros i Hi. apply Hel. apply elem_of_seq in Hi. lia. }
  { by apply collecting_refl. }
  simpl in Hc. destruct Hc as [? ? ? ? ? ? ? ? ? ? ? ? ? Hcw Hcs].
  exists s', (collect_all (touched evs) W).
  split; [exact Hrun|]. split; [done|]. split.
  { intros i e o r Hi He Htr Ho Hr. rewrite collect_all_newDepIds.
    apply elem_of_union. right. apply elem_of_list_to_set.
    eapply Hin; try done. apply elem_of_seq. lia. }
  pose proof (collect_all_frame (touched evs) W) as HF.
  split; [by rewrite HF|]. split; [by rewrite HF|].
  repeat split; try done. congruence.
Qed.

(** ** Root data *)

(** [observe(value, true)], when it returns an observer, has counted one
    more component on it. *)
Lemma observe_root_counts n v o s s1 :
  observe n v true s = Ok (Some o) s1 ->
  exists r, observers s1 !! o = Some r /\ vmCount r ≠ 0.
Proof.
  rewrite observe_unfold. unfold observe_body.
  destruct v as [| | | | | |l]; try done.
  unfold bind at 1. unfold the_obj.
  destruct (objs s !! l) as [x|]; [|done].
  destruct (bool_decide (cls x = CVNode)); [done|].
  unfold bind at 1.
  match goal with |- context [match ?m s with Ok _ _ => _ | Thrown _ _ => _ end] =>
    destruct (m s) as [[o'|] s0|e s0]; try done
  end.
  unfold bind, the_observer.
  destruct (observers s0 !! o') as [r|]; [|done]. simpl.
  intros [= <- <-]. eexists. split; [simpl; apply lookup_insert_eq | done].
Qed.

(** X21: once an object has been observed as the root data of a component,
    [del] deletes no key of it (for an array: no key that is not a valid
    index) and, on a plain object, [set] adds no key to it (a key that is
    not yet a property and is neither [__ob__] nor [_isVue]): both return
    without touching any object or notifying anybody, after a warning in
    a build that is not a production build. *)
Theorem root_data_is_guarded (n m : nat) (l : nat) (o : nat) (key : pkey)
    (val : jsval) (s s1 : store) :
  observe n (VObj l) true s = Ok (Some o) s1 ->
  exists x1,
    objs s1 !! l = Some x1 /\ ob x1 = Some o
    /\ ((cls x1 = CArray -> isValidArrayIndex key = None) ->
        (cls x1 = CPlain -> field_key key = false ->
         has_property x1 key && negb (in_Object_prototype key) = false ->
         exists s2,
           set m (VObj l) key val s1 = Ok val s2
           /\ objs s2 = objs s1 /\ closures s2 = closures s1
           /\ subs s2 = subs s1 /\ queue s2 = queue s1
           /\ trace s2 = (if production (cfg s1) then trace s1
                          else trace s1 ++ [EvWarn "Avoid adding reactive properties to a Vue instance or its root $data at runtime - declare it upfront in the data option."]))
        /\ del m (VObj l) key s1
           = Ok tt (if production (cfg s1) then s1
                    else log (EvWarn del_on_root_warning) s1)).
Proof.
  intros Hobs.
  destruct (observe_marks _ _ _ _ _ _ Hobs) as (l' & x1 & [= <-] & Hx1 & Hob1 & _).
  destruct (observe_root_counts _ _ _ _ _ Hobs) as (r & Hr & Hcount).
  exists x1. split; [done|]. split; [done|]. intros Hidx.
  assert (Hnoidx : (if bool_decide (cls x1 = CArray)
                    then isValidArrayIndex key else None) = None).
  { destruct (bool_decide (cls x1 = CArray)) eqn:Ha; [|done].
    apply bool_decide_eq_true in Ha. auto. }
  split.
  - intros _ _ Hnew. unfold set.
    rewrite (bind_Ok _ _ s1 tt s1) by (simpl; by rewrite andb_false_r).
    rewrite (bind_Ok _ _ s1 x1 s1) by (unfold the_obj; by rewrite Hx1).
    rewrite Hnoidx, Hnew, Hob1, Hr, (bool_decide_eq_false_2 _ Hcount), orb_true_r.
    simpl. unfold bind, warn, modify, ret.
    destruct (production (cfg s1)); simpl; eexists; (split; [reflexivity|]); done.
  - rewrite (del_unfold m l key x1 s1 Hx1 Hidx). cbv zeta.
    rewrite Hob1, Hr, (bool_decide_eq_false_2 _ Hcount), orb_true_r. simpl.
    by destruct (production (cfg s1)).
Qed.

(** ** A synchronous watcher runs inside the write *)

(** [run()] of an active watcher whose evaluation function reads one
    reactive property and returns it: the evaluation, the store in which
    the callback is called, and the call. *)
Lemma run_reading n w W o k x c e cf v dep cs sh s :
  watchers s !! w = Some W ->
  active W = true ->
  getter W = Read o k Ret ->
  objs s !! o = Some x ->
  lookup_prop k (props x) = Some (PAccessor c e cf) ->
  closures s !! c = Some (CReactive v dep None cs sh None None) ->
  strict_neq v (value W) || isObject v || deep W = true ->
  exists evs s1 W1,
    evaluated w W s s1 evs
    /\ watchers s1 !! w = Some W1
    /\ Watcher_run n w s
       = call_back w W v (value W)
           (with_watchers (<[w := with_value v W1]> (watchers s1)) s1).
Proof.
  intros Hw Hact Hgetter Hx Hk Hc Hfire.
  destruct (Watcher_get_spec n w W s Hw) as (evs & s1 & Hev & Hres).
  assert (Hread : exists s0, run_prog n (getter W) (pushed w s) = Ok v s0).
  { rewrite Hgetter. simpl.
    destruct (reactive_read n o k x c e cf v dep None cs sh None w W (pushed w s))
      as (s0 & evs0 & Hget & _); try done.
    exists s0. by rewrite (bind_Ok _ _ _ _ _ Hget). }
  destruct Hread as [s0 Hread]. rewrite Hread in Hres. destruct Hres as [Hg _].
  exists evs, s1. eexists. split; [exact Hev|].
  split; [rewrite (evd_watchers _ _ _ _ _ Hev); apply lookup_insert_eq|].
  unfold Watcher_run.
  rewrite (bind_Ok _ _ s W s) by (by apply the_watcher_Ok).
  rewrite Hact. rewrite (bind_Ok _ _ _ _ _ Hg).
  unfold bind at 1, the_watcher at 1.
  rewrite (evd_watchers _ _ _ _ _ Hev), lookup_insert_eq.
  simpl. rewrite Hfire.
  unfold call_back, bind, set_watcher, modify. simpl.
  rewrite <- (evd_watchers _ _ _ _ _ Hev). by destruct (user W).
Qed.

(** X22: a write to a reactive property whose only subscriber is an active
    synchronous watcher that evaluates to that property: when the value
    differs (and needs no wrapping), the watcher is run inside the write.
    [notify()], [update()] and the evaluation are logged in this order;
    then, with the new value cached and nothing queued, the callback is
    called with the new value and the value the watcher had cached.  That
    call is the last step of the write: an error of the callback is
    reported for a user-facing watcher and is thrown by the write
    otherwise. *)
Theorem sync_watcher_fires_on_write (n : nat) (w : nat) (W : Watcher) (o : nat)
    (k : pkey) (x : Obj) (c : nat) (e cf : bool) (val : jsval) (dep : nat)
    (childOb : option nat) (cs sh : bool) (newVal : jsval) (s : store) :
  watchers s !! w = Some W ->
  active W = true -> lazy W = false -> sync W = true ->
  getter W = Read o k Ret ->
  value W = val ->
  objs s !! o = Some x ->
  lookup_prop k (props x) = Some (PAccessor c e cf) ->
  closures s !! c = Some (CReactive val dep childOb cs sh None None) ->
  subs_of s dep = [w] ->
  isObject newVal = false ->
  strict_eq newVal val || (strict_neq newVal newVal && strict_neq val val) = false ->
  exists pre evs W1 s6,
    trace s6 = trace s ++ pre ++ [EvNotify dep; EvUpdate w] ++ evs
    /\ Forall (eval_event w) evs
    /\ watchers s6 !! w = Some W1 /\ value W1 = newVal
    /\ queue s6 = queue s
    /\ objs s6 = objs s
    /\ prop_set n o k newVal s = call_back w W newVal val s6.
Proof.
  intros Hw Hact Hlazy Hsync Hgetter Hval Hx Hk Hc Hsubs Hprim Hsame.
  set (r := prop_set n o k newVal s).
  set (sc := if negb (production (cfg s)) && cs then log (EvCustomSetter c) s else s).
  set (s4 := with_closures
               (<[c := CReactive newVal dep None cs sh None None]> (closures s)) sc).
  assert (Hr : r = Dep_notify n dep s4).
  { unfold r. rewrite (prop_set_reactive n o k x c e cf val dep childOb cs sh
                         None None newVal s Hx Hk Hc).
    apply (plain_write n c val dep childOb cs sh newVal s Hc Hsame). by left. }
  assert (Hsc : watchers s4 = watchers s /\ subs s4 = subs s /\ objs s4 = objs s
                /\ queue s4 = queue s /\ cfg s4 = cfg s
                /\ exists pre, trace s4 = trace s ++ pre).
  { unfold s4, sc. destruct (negb (production (cfg s)) && cs); simpl.
    - repeat split; try done. by exists [EvCustomSetter c].
    - repeat split; try done. exists []. by rewrite app_nil_r. }
  destruct Hsc as (Hw4 & Hs4 & Ho4 & Hq4 & Hc4 & pre & Hpre).
  set (s5 := log (EvUpdate w) (log (EvNotify dep) s4)).
  assert (Hsnap : notify_snapshot (log (EvNotify dep) s4) dep = [w]).
  { assert (Hsubs4 : subs_of (log (EvNotify dep) s4) dep = subs_of s dep)
      by (unfold s4, sc; by destruct (negb (production (cfg s)) && cs)).
    unfold notify_snapshot. rewrite Hsubs4, Hsubs.
    by destruct (negb _ && negb _). }
  assert (Hrun : r = match Watcher_run n w s5 with
                     | Ok _ s' => Ok tt s'
                     | Thrown err s' => Thrown err s'
                     end).
  { rewrite Hr. unfold Dep_notify.
    rewrite (bind_Ok _ _ s4 tt (log (EvNotify dep) s4)) by reflexivity.
    rewrite Hsnap. simpl. unfold bind at 1. unfold Watcher_update.
    rewrite (bind_Ok _ _ _ tt s5) by reflexivity.
    rewrite (bind_Ok _ _ s5 W s5)
      by (apply the_watcher_Ok; change (watchers s5) with (watchers s4);
          by rewrite Hw4).
    rewrite Hlazy, Hsync. by destruct (Watcher_run n w s5) as [[] ?|? ?]. }
  destruct (run_reading n w W o k x c e cf newVal dep cs sh s5)
    as (evs & s1 & W1 & Hev & HW1 & Hcall); try done.
  { change (watchers s5) with (watchers s4). by rewrite Hw4. }
  { change (objs s5) with (objs s4). by rewrite Ho4. }
  { simpl. apply lookup_insert_eq. }
  { rewrite Hval. apply orb_false_elim in Hsame as [Hne _].
    unfold strict_neq. by rewrite Hne. }
  exists pre, evs, (with_value newVal W1).
  exists (with_watchers (<[w := with_value newVal W1]> (watchers s1)) s1).
  split.
  { simpl. rewrite (evd_trace _ _ _ _ _ Hev).
    change (trace s5) with ((trace s4 ++ [EvNotify dep]) ++ [EvUpdate w]).
    rewrite Hpre. by rewrite <- !app_assoc. }
  split; [apply Hev|]. split; [simpl; apply lookup_insert_eq|].
  split; [done|].
  split; [simpl; rewrite (evd_queue _ _ _ _ _ Hev); exact Hq4|].
  split; [simpl; rewrite (evd_objs _ _ _ _ _ Hev); exact Ho4|].
  fold r. rewrite Hrun, Hcall, Hval.
  by destruct (call_back w W newVal val _) as [[] ?|? ?].
Qed.

(** ** [set] on an object nobody observes *)

(** X23: [set] of a new key on a plain object that carries no observer
    (and is not a Vue instance) is the plain assignment.  For a key that
    the object does not own and that is none of [__proto__], [__ob__] and
    [_isVue]: the key becomes an ordinary writable, enumerable,
    configurable data property holding the value, no dependency is
    created, nothing is notified or logged, and [val] is returned; on an
    object that is not extensible the assignment throws a [TypeError] and
    nothing changes. *)
Theorem set_on_unobserved_is_plain (n : nat) (t : nat) (key : pkey) (val : jsval)
    (x : Obj) (s : store) :
  objs s !! t = Some x ->
  cls x = CPlain ->
  key ≠ KName "__proto__" ->
  field_key key = false ->
  own_property x key = None ->
  isVue x = false ->
  ob x = None ->
  let x' := with_props (put_prop key (PData val true true true) (props x)) x in
  (extensible x = true ->
   set n (VObj t) key val s = Ok val (with_objs (<[t := x']> (objs s)) s)
   /\ lookup_prop key (props x') = Some (PData val true true true)
   /\ forall m, prop_get m t key (with_objs (<[t := x']> (objs s)) s)
                = Ok val (with_objs (<[t := x']> (objs s)) s))
  /\ (extensible x = false -> set n (VObj t) key val s = Thrown TypeError s).
Proof.
  intros Hx Hcls _ _ Hown Hvue Hob x'.
  pose proof (new_key_of_plain x key Hcls Hown) as Hnew.
  assert (Hidx : cls x = CArray -> isValidArrayIndex key = None)
    by (intros Ha; congruence).
  assert (Hnoidx : (if bool_decide (cls x = CArray)
                    then isValidArrayIndex key else None) = None).
  { destruct (bool_decide (cls x = CArray)) eqn:Ha; [|done].
    apply bool_decide_eq_true in Ha. auto. }
  assert (Hk : lookup_prop key (props x) = None).
  { unfold own_property in Hown. by destruct (lookup_prop key (props x)). }
  assert (Hlen : bool_decide (key = KName "length") && bool_decide (cls x = CArray)
                 = false).
  { unfold own_property in Hown. rewrite Hk in Hown.
    by destruct (bool_decide (key = KName "length") && bool_decide (cls x = CArray)). }
  assert (Hset : set n (VObj t) key val s = (prop_set n t key val ;;; ret val) s).
  { unfold set.
    rewrite (bind_Ok _ _ s tt s) by (simpl; by rewrite andb_false_r).
    rewrite (bind_Ok _ _ s x s) by (unfold the_obj; by rewrite Hx).
    by rewrite Hnoidx, Hnew, Hob, Hvue. }
  assert (Hps : prop_set n t key val s
                = if extensible x
                  then Ok tt (with_objs (<[t := x']> (objs s)) s)
                  else Thrown TypeError s).
  { unfold prop_set.
    rewrite (bind_Ok _ _ s x s) by (unfold the_obj; by rewrite Hx).
    rewrite Hk, Hlen. destruct (extensible x); [|done].
    destruct key as [name|i]; [done|].
    destruct (bool_decide (cls x = CArray)) eqn:Ha; [|done].
    apply bool_decide_eq_true in Ha. by specialize (Hidx Ha). }
  assert (Hk' : lookup_prop key (props x') = Some (PData val true true true))
    by apply lookup_put_prop.
  split.
  - intros Hext. rewrite Hext in Hps. split; [|split].
    + rewrite Hset. by rewrite (bind_Ok _ _ _ _ _ Hps).
    + exact Hk'.
    + intros m. unfold prop_get, prop_get_with.
      rewrite (bind_Ok _ _ _ x' _) by (unfold the_obj; simpl; by rewrite lookup_insert_eq).
      by rewrite Hk'.
  - intros Hext. rewrite Hext in Hps. rewrite Hset.
    by rewrite (bind_Thrown _ _ _ _ _ Hps).
Qed.

End Engine.

(** * Concrete stores: witnesses and counterexamples *)

(** No deep traversal and no path expressions are needed below. *)
Definition no_traverse : jsval -> store -> list nat := fun _ _ => [].
Definition no_path : string -> option prog := fun _ => None.

Definition dev_async : Config := mkConfig false true false true true.
Definition prod_sync : Config := mkConfig true false false true true.

(** One component and the object [{ flag: true, a: 1, b: 2 }]. *)
Definition ex_obj : Obj :=
  mkObj CPlain true false None
    [(KName "flag", PData (VBool true) true true true);
     (KName "a", PData (VNum 1) true true true);
     (KName "b", PData (VNum 2) true true true)] 0 false.

Definition ex_start (c : Config) : store :=
  mkStore c ∅ 0 ∅ 0 None [] {[0 := mkComponent None [] false]}
    {[0 := ex_obj]} ∅ ∅ [] false [].

(** [() => obj.flag ? obj.a : obj.b] *)
Definition ex_getter : prog :=
  Read 0 (KName "flag")
    (fun v => if truthy v then Read 0 (KName "a") Ret else Read 0 (KName "b") Ret).

Definition ex_cb : callback := fun _ _ => None.

(** The object observed; then watched by watcher 1; then [flag] cleared. *)
Definition ex_observed : store :=
  store_of (observe 1 (VObj 0) false (ex_start dev_async)).

Definition ex_watched : store :=
  store_of (new_Watcher no_traverse no_path 1 0 (inl ex_getter) ex_cb None false
              ex_observed).

Definition ex_flipped : store :=
  store_of (prop_set no_traverse 1 0 (KName "flag") (VBool false) ex_watched).

Definition ex_W : Watcher :=
  mkWatcher 0 ex_cb false false false false false true [1; 2] [] {[1; 2]} ∅
    ex_getter (VNum 1) "function".

(** A computed property: a lazy watcher that is neither user-facing nor the
    render watcher of its component, whose getter throws. *)
Definition lazy_options : option WatcherOptions :=
  Some (mkOptions false false true false).

Definition ex_lazy : store :=
  store_of (new_Watcher no_traverse no_path 0 0 (inl (Throw (VStr "boom"))) ex_cb
              lazy_options false (ex_start dev_async)).

Definition ex_lazy_W : Watcher :=
  mkWatcher 0 ex_cb false false true false true true [] [] ∅ ∅
    (Throw (VStr "boom")) VUndef "function".

(** A production build with [config.async] off: two lazy watchers read
    [obj.a], the younger one first. *)
Definition read_a : prog := Read 0 (KName "a") Ret.

Definition ex_unsorted : store :=
  store_of
    ((observe 1 (VObj 0) false ;;;
      new_Watcher no_traverse no_path 1 0 (inl read_a) ex_cb lazy_options false ;;;
      new_Watcher no_traverse no_path 1 0 (inl read_a) ex_cb lazy_options false ;;;
      Watcher_evaluate no_traverse 1 2 ;;;
      Watcher_evaluate no_traverse 1 1) (ex_start prod_sync)).

(** The observed object after [toggleObserving(false)]. *)
Definition ex_off : store := store_of (toggleObserving false ex_observed).

(** [{ get a () { return st } }] with [st = 1], made reactive. *)
Definition ex_accessor_start : store :=
  mkStore dev_async ∅ 0 ∅ 0 None [] ∅
    {[0 := mkObj CPlain true false None [(KName "a", PAccessor 0 true true)] 0 false]}
    {[0 := CUser (VNum 1) (Some (fun st => st)) None]} ∅ [] false [].

Definition ex_getter_only : store :=
  store_of (defineReactive 1 0 (KName "a") None false false ex_accessor_start).



(** The observed object of [ex_observed] and its watcher. *)
Definition ex_reactive_obj : Obj :=
  mkObj CPlain true false (Some 0)
    [(KName "flag", PAccessor 0 true true);
     (KName "a", PAccessor 1 true true);
     (KName "b", PAccessor 2 true true)] 0 false.

Definition ex_observer : Observer := mkObserver 0 0 0.

(** The first of the two computed properties of [ex_unsorted]. *)
Definition ex_computed_W : Watcher :=
  mkWatcher 0 ex_cb false false true false false true [2] [] {[2]} ∅
    read_a (VNum 1) "".

(** The array [[1, 2]]. *)
Definition ex_array : Obj :=
  mkObj CArray true false None
    [(KIndex 0, PData (VNum 1) true true true);
     (KIndex 1, PData (VNum 2) true true true)] 2 false.

Definition ex_array_start : store :=
  mkStore dev_async ∅ 0 ∅ 0 None [] {[0 := mkComponent None [] false]}
    {[0 := ex_array]} ∅ ∅ [] false [].

(** The array [[item]] with [item = { x: 1 }], observed, while a lazy
    watcher that has not been evaluated is the active target. *)
Definition ex_item : Obj :=
  mkObj CPlain true false None [(KName "x", PData (VNum 1) true true true)] 0 false.

Definition ex_list : Obj :=
  mkObj CArray true false None [(KIndex 0, PData (VObj 1) true true true)] 1 false.

Definition ex_list_start : store :=
  mkStore dev_async ∅ 0 ∅ 0 None [] {[0 := mkComponent None [] false]}
    {[0 := ex_list; 1 := ex_item]} ∅ ∅ [] false [].

Definition ex_list_reading : store :=
  store_of ((observe 2 (VObj 0) false ;;;
             new_Watcher no_traverse no_path 0 0 (inl (Ret VUndef)) ex_cb
               lazy_options false ;;;
             pushTarget (Some 1)) ex_list_start).

Definition ex_idle_W : Watcher :=
  mkWatcher 0 ex_cb false false true false true true [] [] ∅ ∅
    (Ret VUndef) VUndef "function".

(** A synchronous watcher of [a] on the observed object. *)
Definition sync_options : option WatcherOptions :=
  Some (mkOptions false false false true).

Definition ex_sync : store :=
  store_of ((observe 1 (VObj 0) false ;;;
             new_Watcher no_traverse no_path 1 0 (inl read_a) ex_cb sync_options
               false) (ex_start dev_async)).

Definition ex_sync_W : Watcher :=
  mkWatcher 0 ex_cb false false false true false true [2] [] {[2]} ∅
    read_a (VNum 1) "function".

(** A computed property and an ordinary watcher of [a]: watcher 1 is lazy
    and has been evaluated, watcher 2 is neither lazy nor synchronous. *)
Definition ex_mixed : store :=
  store_of
    ((observe 1 (VObj 0) false ;;;
      new_Watcher no_traverse no_path 1 0 (inl read_a) ex_cb lazy_options false ;;;
      Watcher_evaluate no_traverse 1 1 ;;;
      new_Watcher no_traverse no_path 1 0 (inl read_a) ex_cb None false)
       (ex_start dev_async)).

Definition ex_mixed_lazy_W : Watcher :=
  mkWatcher 0 ex_cb false false true false false true [2] [] {[2]} ∅
    read_a (VNum 1) "function".

Definition ex_mixed_W : Watcher :=
  mkWatcher 0 ex_cb false false false false false true [2] [] {[2]} ∅
    read_a (VNum 1) "function".

(** The computed property of [a] has been evaluated; a second lazy
    watcher, not yet evaluated, is the active target. *)
Definition ex_nested : store :=
  store_of
    ((observe 1 (VObj 0) false ;;;
      new_Watcher no_traverse no_path 1 0 (inl read_a) ex_cb lazy_options false ;;;
      Watcher_evaluate no_traverse 1 1 ;;;
      new_Watcher no_traverse no_path 1 0 (inl (Ret VUndef)) ex_cb lazy_options
        false ;;;
      pushTarget (Some 2)) (ex_start dev_async)).

(** [parent = { child: obj }], observed, and a watcher of [parent.child]:
    the watcher subscribes to the dependency of the property and to the
    dependency of the observer of [obj]. *)
Definition ex_parent : Obj :=
  mkObj CPlain true false None [(KName "child", PData (VObj 0) true true true)] 0 false.

Definition ex_tree_start : store :=
  mkStore dev_async ∅ 0 ∅ 0 None [] {[0 := mkComponent None [] false]}
    {[0 := ex_obj; 1 := ex_parent]} ∅ ∅ [] false [].

Definition ex_tree : store :=
  store_of
    ((observe 2 (VObj 1) false ;;;
      new_Watcher no_traverse no_path 1 0 (inl (Read 1 (KName "child") Ret)) ex_cb
        None false) ex_tree_start).

Definition ex_child : Obj :=
  mkObj CPlain true false (Some 1)
    [(KName "flag", PAccessor 0 true true);
     (KName "a", PAccessor 1 true true);
     (KName "b", PAccessor 2 true true)] 0 false.

Definition ex_child_observer : Observer := mkObserver 0 2 0.



(** C1 at the store where [flag] has just been cleared: the next evaluation
    reads [flag] and [b] and no longer [a]. *)
Lemma deps_exactly_touched_witness :
  watchers ex_flipped !! 1 = Some ex_W
  /\ exists evs W',
      let s' := store_of (Watcher_get no_traverse 1 1 ex_flipped) in
      trace s' = trace ex_flipped ++ evs
      /\ watchers s' !! 1 = Some W'
      /\ (forall d, d ∈ deps W' <-> d ∈ touched evs)
      /\ NoDup (deps W')
      /\ depIds W' = list_to_set (deps W')
      /\ newDeps W' = [] /\ newDepIds W' = ∅
      /\ (forall d, d ∈ deps ex_W -> d ∉ deps W' -> NoDup (subs_of ex_flipped d) ->
                    1 ∉ subs_of s' d)
      /\ (forall d m, d ∈ deps ex_W -> d ∉ deps W' -> NoDup (subs_of ex_flipped d) ->
            let s'' := store_of (Dep_notify no_traverse m d s') in
            (forall evs', trace s'' = trace s' ++ evs' -> EvUpdate 1 ∉ evs')
            /\ (1 ∈ queue s'' -> 1 ∈ queue s')).
Proof.
  split; [reflexivity|].
  apply (deps_exactly_touched no_traverse 1 1 ex_W ex_flipped); reflexivity.
Defined.

(** The same run, computed: the watcher now depends on [flag] and [b] and
    has left the subscriber list of [a], so that a later write of [a]
    calls no [update()]. *)
Example pruning_computed :
  let s' := store_of (Watcher_get no_traverse 1 1 ex_flipped) in
  (deps <$> watchers s' !! 1) = Some [1; 3]
  /\ subs_of s' 2 = [] /\ subs_of s' 3 = [1]
  /\ updates (drop (length (trace s'))
                (trace (store_of (prop_set no_traverse 1 0 (KName "a") (VNum 7) s'))))
     = [].
Proof. vm_compute. repeat split. Qed.

(** C4 on the computed property: the stack is restored and the error
    rethrown. *)
Lemma get_restores_target_witness :
  watchers ex_lazy !! 1 = Some ex_lazy_W
  /\ exists evs s',
      store_of (Watcher_get no_traverse 0 1 ex_lazy) = s'
      /\ trace s' = trace ex_lazy ++ evs
      /\ targetStack s' = targetStack ex_lazy
      /\ target s' = default None (head (targetStack ex_lazy))
      /\ Watcher_get no_traverse 0 1 ex_lazy = Thrown (ExnValue (VStr "boom")) s'.
Proof.
  split; [reflexivity|].
  destruct (get_restores_target no_traverse 0 1 ex_lazy_W ex_lazy eq_refl)
    as (evs & s' & _ & _ & H1 & H2 & _ & H3 & H4 & _ & H5).
  exists evs, s'. split; [exact H1|]. split; [exact H2|]. split; [exact H3|].
  split; [exact H4|]. exact (proj1 H5).
Defined.

(** C4 as stated fails: this watcher is not the render watcher of its
    component and not user-facing, and its error is rethrown all the same. *)
Lemma get_rethrows_for_computed :
  (_watcher <$> vms ex_lazy !! 0) = Some None
  /\ (user <$> watchers ex_lazy !! 1) = Some false
  /\ exists s',
      Watcher_get no_traverse 0 1 ex_lazy = Thrown (ExnValue (VStr "boom")) s'.
Proof.
  split; [reflexivity|]. split; [reflexivity|]. eexists. vm_compute. reflexivity.
Qed.

(** C7 at the store where [flag] has just been cleared. *)
Lemma run_calls_back_witness :
  watchers ex_flipped !! 1 = Some ex_W
  /\ active ex_W = true
  /\ exists v s1 evs,
      Watcher_get no_traverse 1 1 ex_flipped = Ok v s1
      /\ trace (store_of (Watcher_run no_traverse 1 1 ex_flipped)) = trace s1 ++ evs
      /\ (forall a b, EvCallback 1 a b ∈ evs <->
                      strict_neq v (VNum 1) || isObject v || false = true
                      /\ a = v /\ b = VNum 1).
Proof.
  split; [reflexivity|]. split; [reflexivity|].
  destruct (run_calls_back no_traverse 1 1 ex_W ex_flipped eq_refl) as (_ & _ & H).
  destruct (Watcher_get no_traverse 1 1 ex_flipped) as [v s1|e s1] eqn:Hg;
    [|vm_compute in Hg; discriminate Hg].
  destruct (H eq_refl v s1 eq_refl) as (evs & H1 & H2 & _).
  exists v, s1, evs. split; [reflexivity|]. split; [exact H1 | exact H2].
Defined.

(** C8 on the watcher of [ex_watched]. *)
Lemma teardown_idempotent_witness :
  watchers ex_watched !! 1 = Some ex_W
  /\ active ex_W = true
  /\ vms ex_watched !! vm ex_W = Some (mkComponent None [1] false)
  /\ Forall (fun d => NoDup (subs_of ex_watched d)) (deps ex_W)
  /\ exists s',
      Watcher_teardown 1 ex_watched = Ok tt s'
      /\ (forall d, d ∈ deps ex_W -> 1 ∉ subs_of s' d)
      /\ (forall d x, x ≠ 1 -> x ∈ subs_of s' d <-> x ∈ subs_of ex_watched d)
      /\ (forall d, d ∉ deps ex_W -> subs_of s' d = subs_of ex_watched d)
      /\ watchers s' !! 1 = Some (with_active false ex_W)
      /\ Watcher_teardown 1 s' = Ok tt s'.
Proof.
  assert (Hnd : Forall (fun d => NoDup (subs_of ex_watched d)) (deps ex_W))
    by (constructor; [vm_compute; apply NoDup_singleton|];
        constructor; [vm_compute; apply NoDup_singleton | constructor]).
  split; [reflexivity|]. split; [reflexivity|]. split; [reflexivity|].
  split; [exact Hnd|].
  exact (teardown_idempotent 1 ex_W (mkComponent None [1] false) ex_watched
           eq_refl eq_refl eq_refl Hnd).
Defined.

(** C3 as stated fails: in a production build with [config.async] off the
    snapshot is not sorted, and [update()] reaches watcher 2 before
    watcher 1. *)
Lemma notify_unsorted_in_production :
  production (cfg ex_unsorted) = true
  /\ async (cfg ex_unsorted) = false
  /\ subs_of ex_unsorted 2 = [2; 1]
  /\ updates (drop (length (trace ex_unsorted))
                (trace (store_of (Dep_notify no_traverse 1 2 ex_unsorted))))
     = [2; 1]
  /\ ~ StronglySorted le [2; 1].
Proof.
  split; [reflexivity|]. split; [reflexivity|]. split; [reflexivity|].
  split; [vm_compute; reflexivity|].
  intros H. inversion H as [|? ? _ Hle]; subst.
  inversion Hle as [|? ? Hlt _]; subst. lia.
Qed.

(** C5: wrapping the object once, and asking again any number of times. *)
Lemma observe_idempotent_witness :
  observe 1 (VObj 0) false (ex_start dev_async) = Ok (Some 0) ex_observed
  /\ forall m, observe m (VObj 0) false ex_observed = Ok (Some 0) ex_observed.
Proof.
  assert (H0 : observe 1 (VObj 0) false (ex_start dev_async) = Ok (Some 0) ex_observed)
    by (vm_compute; reflexivity).
  split; [exact H0|].
  destruct (observe_idempotent 1 (VObj 0) false (ex_start dev_async)) as (_ & _ & H).
  exact (H 0 ex_observed H0).
Defined.

(** C5 as stated fails: with observing switched off, [observe] still
    returns the observer of an object that carries one. *)
Lemma observe_disabled_returns_existing :
  shouldObserve (cfg ex_off) = false
  /\ observe 1 (VObj 0) false ex_off = Ok (Some 0) ex_off.
Proof. split; [reflexivity|]. vm_compute. reflexivity. Qed.



(** C2 on the property [a] of the watched object: writing 7 over 1. *)
Lemma reactive_write_witness :
  closures ex_watched !! 1 = Some (CReactive (VNum 1) 2 None false false None None)
  /\ let stored := CReactive (VNum 7) 2 None false false None None in
     let s1 := if negb (production (cfg ex_watched)) && false
               then log (EvCustomSetter 1) ex_watched else ex_watched in
     let s2 := with_closures (<[1 := stored]> (closures s1)) s1 in
     call_setter no_traverse 1 1 (VNum 7) ex_watched
     = Dep_notify no_traverse 1 2
         (with_closures (<[1 := with_childOb None stored]> (closures s2)) s2).
Proof.
  split; [reflexivity|].
  destruct (reactive_write no_traverse 1 1 (VNum 1) 2 None false false None None
              (VNum 7) (VNum 1) ex_watched ex_watched eq_refl eq_refl)
    as (_ & H).
  destruct (H eq_refl) as (_ & H2 & _).
  destruct (H2 eq_refl eq_refl) as (_ & H3).
  exact (H3 eq_refl).
Defined.

(** The same write, computed: 7 is stored and watcher 1 is queued. *)
Example write_computed :
  let s' := store_of (prop_set no_traverse 1 0 (KName "a") (VNum 7) ex_watched) in
  prop_get 1 0 (KName "a") s' = Ok (VNum 7) s'
  /\ queue s' = [1]
  /\ trace s' = trace ex_watched ++ [EvNotify 2; EvUpdate 1].
Proof. vm_compute. repeat split. Qed.

(** C2 as stated fails: the property had a getter and no setter; writing
    2 over 1 stores nothing and notifies nobody. *)
Lemma write_to_getter_only_is_dropped :
  prop_get 1 0 (KName "a") ex_getter_only = Ok (VNum 1) ex_getter_only
  /\ strict_eq (VNum 2) (VNum 1) = false
  /\ prop_set no_traverse 1 0 (KName "a") (VNum 2) ex_getter_only
     = Ok tt ex_getter_only
  /\ notifies (trace ex_getter_only) = [].
Proof. repeat split. Qed.



(** C10 on the getter-only property. *)
Lemma getter_only_write_ignored_witness :
  closures ex_getter_only !! 1
    = Some (CReactive VUndef 0 None false false (Some 0) None)
  /\ closures ex_getter_only !! 0 = Some (CUser (VNum 1) (Some (fun st => st)) None)
  /\ call_setter no_traverse 1 1 (VNum 2) ex_getter_only = Ok tt ex_getter_only.
Proof.
  split; [reflexivity|]. split; [reflexivity|].
  exact (proj1 (getter_only_write_ignored no_traverse 1 1 0 VUndef 0 None false false
                  (VNum 1) (fun st => st) (VNum 2) ex_getter_only eq_refl eq_refl)).
Defined.

(** ** Witnesses of the further properties *)

(** The watchers of the examples have their subscriptions in order. *)
Lemma subscribed_ex_watched : subscribed 1 ex_watched.
Proof.
  apply (subscribed_check 1 ex_W); try reflexivity;
    apply (bool_decide_unpack _); vm_compute; exact I.
Defined.


Lemma subscribed_ex_unsorted : subscribed 1 ex_unsorted.
Proof.
  apply (subscribed_check 1 ex_computed_W); try reflexivity;
    apply (bool_decide_unpack _); vm_compute; exact I.
Defined.

(** The target discipline across an evaluation, at the store where [flag]
    has just been cleared. *)
Lemma engine_keeps_target_witness :
  stack_top_is_target ex_flipped
  /\ (forall w, target_kept ex_flipped (store_of (Watcher_get no_traverse 1 w ex_flipped)))
  /\ (forall d, target_kept ex_flipped (store_of (Dep_notify no_traverse 1 d ex_flipped))).
Proof.
  split; [reflexivity|].
  destruct (engine_keeps_target no_traverse 1 ex_flipped eq_refl)
    as (H1 & _ & _ & _ & H2 & _).
  split; [exact H1 | exact H2].
Defined.

(** The watcher of [ex_watched] meets the dependency of [b], which it
    does not hold. *)
Lemma addDep_idempotent_witness :
  watchers ex_watched !! 1 = Some ex_W
  /\ exists s1 W1,
      Watcher_addDep 1 3 ex_watched = Ok tt s1
      /\ watchers s1 !! 1 = Some W1
      /\ 3 ∈ newDepIds W1
      /\ Watcher_addDep 1 3 s1 = Ok tt s1.
Proof.
  split; [reflexivity|].
  destruct (addDep_idempotent 1 3 ex_W ex_watched eq_refl)
    as (s1 & W1 & H1 & H2 & H3 & _ & _ & _ & H4).
  exists s1, W1. split; [exact H1|]. split; [exact H2|]. split; [exact H3 | exact H4].
Defined.


(** [notify()] of the dependency of [a] in [ex_mixed]: the computed
    property is marked dirty, the other watcher is queued and otherwise
    unchanged, and no object changes. *)
Lemma notify_marks_and_queues_witness :
  subs_of ex_mixed 2 = [1; 2]
  /\ watchers ex_mixed !! 1 = Some ex_mixed_lazy_W
  /\ watchers ex_mixed !! 2 = Some ex_mixed_W
  /\ exists s',
      Dep_notify no_traverse 1 2 ex_mixed = Ok tt s'
      /\ watchers s' !! 1 = Some (with_dirty true ex_mixed_lazy_W)
      /\ watchers s' !! 2 = Some ex_mixed_W
      /\ 2 ∈ queue s'
      /\ objs s' = objs ex_mixed.
Proof.
  split; [reflexivity|]. split; [reflexivity|]. split; [reflexivity|].
  destruct (notify_marks_and_queues no_traverse 1 2 ex_mixed
              (no_sync_subscriber_check 2 ex_mixed eq_refl))
    as (s' & H1 & H2 & _ & _ & _ & _ & H3 & _).
  assert (Hin1 : 1 ∈ subs_of ex_mixed 2)
    by (apply (bool_decide_unpack _); vm_compute; exact I).
  assert (Hin2 : 2 ∈ subs_of ex_mixed 2)
    by (apply (bool_decide_unpack _); vm_compute; exact I).
  exists s'. split; [exact H1|].
  split; [exact (H2 1 ex_mixed_lazy_W Hin1 eq_refl)|].
  split; [exact (proj1 (H2 2 ex_mixed_W Hin2 eq_refl))|].
  split; [exact (proj2 (H2 2 ex_mixed_W Hin2 eq_refl)) | exact H3].
Defined.


(** A computed property of [ex_unsorted] is evaluated, then invalidated
    by [notify()] on the dependency of [a]. *)
Lemma evaluate_caches_until_notified_witness :
  subscribed 1 ex_unsorted
  /\ watchers ex_unsorted !! 1 = Some ex_computed_W
  /\ lazy ex_computed_W = true
  /\ exists s1 W1,
      Watcher_evaluate no_traverse 1 1 ex_unsorted = Ok tt s1
      /\ watchers s1 !! 1 = Some W1
      /\ value W1 = VNum 1 /\ dirty W1 = false
      /\ (2 ∈ deps W1 ->
          is_ok (Dep_notify no_traverse 1 2 s1) = true ->
          watchers (store_of (Dep_notify no_traverse 1 2 s1)) !! 1
          = Some (with_dirty true W1)).
Proof.
  split; [exact subscribed_ex_unsorted|]. split; [reflexivity|].
  split; [reflexivity|].
  destruct (evaluate_caches_until_notified no_traverse 1 1 1 ex_computed_W ex_unsorted
              subscribed_ex_unsorted eq_refl eq_refl) as [_ H].
  destruct (Watcher_get no_traverse 1 1 ex_unsorted) as [v s0|e s0] eqn:Hg;
    [|vm_compute in Hg; discriminate Hg].
  assert (Hv : v = VNum 1) by (vm_compute in Hg; injection Hg as <- _; reflexivity).
  destruct (H v s0 eq_refl) as (s1 & W1 & H1 & H2 & H3 & H4 & _ & H5).
  exists s1, W1. split; [exact H1|]. split; [exact H2|].
  split; [rewrite H3; exact Hv|]. split; [exact H4|].
  intros Hd Hok. exact (proj1 (H5 2 Hd Hok)).
Defined.

(** [depend()] of the computed property of [ex_nested] while watcher 2 is
    being evaluated: watcher 2 collects the dependency of [a] and
    subscribes to it.  With no active target, in [ex_watched], nothing
    changes. *)
Lemma depend_propagates_witness :
  (watchers ex_nested !! 1 = Some ex_mixed_lazy_W
   /\ target ex_nested = Some 2
   /\ watchers ex_nested !! 2 = Some ex_idle_W
   /\ subs_of ex_nested 2 = [1]
   /\ exists s' T',
       Watcher_depend 1 ex_nested = Ok tt s'
       /\ watchers s' = <[2 := T']> (watchers ex_nested)
       /\ newDepIds T' = newDepIds ex_idle_W ∪ list_to_set (deps ex_mixed_lazy_W)
       /\ subs_of s' 2 = [1; 2])
  /\ (watchers ex_watched !! 1 = Some ex_W
      /\ target ex_watched = None
      /\ exists s', Watcher_depend 1 ex_watched = Ok tt s'
                    /\ watchers s' = watchers ex_watched
                    /\ subs s' = subs ex_watched).
Proof.
  split.
  - split; [reflexivity|]. split; [reflexivity|]. split; [reflexivity|].
    split; [reflexivity|].
    destruct (proj2 (depend_propagates 1 ex_mixed_lazy_W ex_nested eq_refl)
                2 ex_idle_W eq_refl eq_refl)
      as (s' & T' & H1 & H2 & H3 & _ & _ & _ & H4 & _).
    exists s', T'. split; [exact H1|]. split; [exact H2|]. split; [exact H3|].
    rewrite (H4 2). vm_compute. reflexivity.
  - split; [reflexivity|]. split; [reflexivity|].
    exact (proj1 (depend_propagates 1 ex_W ex_watched eq_refl) eq_refl).
Defined.


(** Reading [b] while the watcher of [ex_flipped] is being evaluated. *)
Lemma read_registers_witness :
  objs (pushed 1 ex_flipped) !! 0 = Some ex_reactive_obj
  /\ lookup_prop (KName "b") (props ex_reactive_obj) = Some (PAccessor 2 true true)
  /\ closures (pushed 1 ex_flipped) !! 2
     = Some (CReactive (VNum 2) 3 None false false None None)
  /\ target (pushed 1 ex_flipped) = Some 1
  /\ watchers (pushed 1 ex_flipped) !! 1 = Some ex_W
  /\ exists s' W',
      prop_get 1 0 (KName "b") (pushed 1 ex_flipped) = Ok (VNum 2) s'
      /\ watchers s' !! 1 = Some W'
      /\ 3 ∈ newDepIds W'.
Proof.
  split; [reflexivity|]. split; [reflexivity|]. split; [reflexivity|].
  split; [reflexivity|]. split; [reflexivity|].
  destruct (read_registers 1 0 (KName "b") ex_reactive_obj 2 true true (VNum 2) 3
              None false false None 1 ex_W (pushed 1 ex_flipped)
              eq_refl eq_refl eq_refl eq_refl eq_refl)
    as (s' & W' & H1 & H2 & H3 & _).
  - intros ob H. discriminate H.
  - exists s', W'. split; [exact H1|]. split; [exact H2 | exact H3].
Defined.

(** The watcher of [ex_watched] starts by reading [flag]; clearing
    [flag] reaches it. *)
Lemma write_reaches_reader_witness :
  subscribed 1 ex_watched
  /\ watchers ex_watched !! 1 = Some ex_W
  /\ objs ex_watched !! 0 = Some ex_reactive_obj
  /\ closures ex_watched !! 0
     = Some (CReactive (VBool true) 1 None false false None None)
  /\ let s1 := store_of (Watcher_get no_traverse 1 1 ex_watched) in
     let r := prop_set no_traverse 1 0 (KName "flag") (VBool false) s1 in
     1 ∈ subs_of s1 1
     /\ exists evs, trace (store_of r) = trace s1 ++ evs /\ EvNotify 1 ∈ evs
                    /\ (is_ok r = true -> EvUpdate 1 ∈ evs).
Proof.
  split; [exact subscribed_ex_watched|]. split; [reflexivity|].
  split; [reflexivity|]. split; [reflexivity|].
  destruct (write_reaches_reader no_traverse 1 1 1 ex_W 0 (KName "flag")
              (fun v => if truthy v then Read 0 (KName "a") Ret
                        else Read 0 (KName "b") Ret)
              ex_reactive_obj 0 true true (VBool true) 1 None false false
              (VBool false) ex_watched subscribed_ex_watched
              eq_refl eq_refl eq_refl eq_refl eq_refl eq_refl eq_refl)
    as (H1 & _ & evs & H2 & H3 & H4).
  split; [exact H1|]. exists evs. split; [exact H2|]. split; [exact H3|].
  intros Hok. exact (proj1 (H4 Hok)).
Defined.

(** Writing 7 to [a] and reading it back. *)
Lemma write_then_read_witness :
  objs ex_watched !! 0 = Some ex_reactive_obj
  /\ closures ex_watched !! 1
     = Some (CReactive (VNum 1) 2 None false false None None)
  /\ target ex_watched = None /\ targetStack ex_watched = []
  /\ let s' := store_of (prop_set no_traverse 1 0 (KName "a") (VNum 7) ex_watched) in
     prop_get 1 0 (KName "a") s' = Ok (VNum 7) s'.
Proof.
  split; [reflexivity|]. split; [reflexivity|]. split; [reflexivity|].
  split; [reflexivity|].
  exact (proj2 (write_then_read no_traverse 1 1 0 (KName "a") ex_reactive_obj 1
                  true true (VNum 1) 2 None false false (VNum 7) ex_watched
                  eq_refl eq_refl eq_refl eq_refl eq_refl eq_refl)).
Defined.

(** Observing the object of [ex_start]: [a] is an interceptor over 1. *)
Lemma observe_makes_reactive_witness :
  objs (ex_start dev_async) !! 0 = Some ex_obj
  /\ ob ex_obj = None /\ cls ex_obj = CPlain
  /\ NoDup (fst <$> props ex_obj)
  /\ observe 1 (VObj 0) false (ex_start dev_async) = Ok (Some 0) ex_observed
  /\ exists x' c d oc,
      objs ex_observed !! 0 = Some x'
      /\ lookup_prop (KName "a") (props x') = Some (PAccessor c true true)
      /\ closures ex_observed !! c = Some (CReactive (VNum 1) d oc false false None None)
      /\ prop_get 1 0 (KName "a") ex_observed = Ok (VNum 1) ex_observed.
Proof.
  assert (Hnd : NoDup (fst <$> props ex_obj))
    by (apply (bool_decide_unpack _); vm_compute; exact I).
  assert (Hobs : observe 1 (VObj 0) false (ex_start dev_async) = Ok (Some 0) ex_observed)
    by (vm_compute; reflexivity).
  split; [reflexivity|]. split; [reflexivity|]. split; [reflexivity|].
  split; [exact Hnd|]. split; [exact Hobs|].
  destruct (observe_makes_reactive 1 0 ex_obj false 0 (ex_start dev_async) ex_observed
              eq_refl eq_refl eq_refl Hnd Hobs) as (x' & Hx' & _ & Hdata & _).
  destruct (Hdata (KName "a") (VNum 1) true eq_refl) as (c & d & oc & H1 & H2 & H3).
  exists x', c, d, oc. split; [exact Hx'|]. split; [exact H1|]. split; [exact H2|].
  exact (H3 eq_refl 1).
Defined.

(** Deleting [b] from the object of [ex_tree], whose observer's dependency
    has the watcher of [parent.child] as a subscriber. *)
Lemma del_removes_and_notifies_witness :
  objs ex_tree !! 0 = Some ex_child
  /\ isVue ex_child = false
  /\ lookup_prop (KName "b") (props ex_child) = Some (PAccessor 2 true true)
  /\ observers ex_tree !! 1 = Some ex_child_observer
  /\ subs_of ex_tree 2 = [1]
  /\ exists s2,
      del no_traverse 1 (VObj 0) (KName "b") ex_tree = Ok tt s2
      /\ objs s2 !! 0 = Some (with_props (remove_prop (KName "b") (props ex_child))
                                ex_child)
      /\ trace s2 = trace ex_tree ++ [EvNotify 2; EvUpdate 1].
Proof.
  split; [reflexivity|]. split; [reflexivity|]. split; [reflexivity|].
  split; [reflexivity|]. split; [reflexivity|].
  destruct (del_removes_and_notifies no_traverse 1 0 (KName "b") ex_child
              (PAccessor 2 true true) ex_tree eq_refl)
    as (_ & _ & _ & H); try reflexivity.
  - intros o r H1 H2. injection H1 as <-. vm_compute in H2. injection H2 as <-.
    split; [reflexivity|]. apply no_sync_subscriber_check. reflexivity.
  - destruct (H 1 ex_child_observer eq_refl eq_refl) as (_ & s2 & H1 & H2 & H3).
    exists s2. split; [exact H1|]. split; [rewrite H2; reflexivity | exact H3].
Defined.

(** Adding [c] to the object of [ex_tree] and deleting it again. *)
Lemma set_then_del_witness :
  objs ex_tree !! 0 = Some ex_child
  /\ observers ex_tree !! 1 = Some ex_child_observer
  /\ own_property ex_child (KName "c") = None
  /\ target ex_tree = None
  /\ subs_of ex_tree 2 = [1]
  /\ exists s1,
      set no_traverse 1 (VObj 0) (KName "c") (VNum 3) ex_tree = Ok (VNum 3) s1
      /\ objs (store_of (del no_traverse 1 (VObj 0) (KName "c") s1)) !! 0
         = Some ex_child.
Proof.
  split; [reflexivity|]. split; [reflexivity|]. split; [reflexivity|].
  split; [reflexivity|]. split; [reflexivity|].
  destruct (set no_traverse 1 (VObj 0) (KName "c") (VNum 3) ex_tree)
    as [v s1|e s1] eqn:Hset; [|vm_compute in Hset; discriminate Hset].
  assert (Hv : v = VNum 3) by (vm_compute in Hset; injection Hset as <- _; reflexivity).
  destruct (set_then_del no_traverse 1 1 0 (KName "c") (VNum 3) ex_child 1
              ex_child_observer ex_tree eq_refl eq_refl
              eq_refl eq_refl eq_refl eq_refl eq_refl eq_refl
              eq_refl eq_refl
              (no_sync_subscriber_check 2 ex_tree eq_refl) v s1 Hset)
    as (_ & _ & _ & H & _).
  exists s1. rewrite Hv. split; [reflexivity | exact H].
Defined.

(** [Vue.observable] on the object of [ex_start]. *)
Lemma Vue_observable_idempotent_witness :
  Vue_observable 1 (VObj 0) (ex_start dev_async) = Ok (VObj 0) ex_observed
  /\ forall m, Vue_observable m (VObj 0) ex_observed = Ok (VObj 0) ex_observed.
Proof.
  assert (H0 : Vue_observable 1 (VObj 0) (ex_start dev_async) = Ok (VObj 0) ex_observed)
    by (vm_compute; reflexivity).
  split; [exact H0|].
  exact (proj2 (proj2 (Vue_observable_idempotent 1 (VObj 0) (VObj 0)
                         (ex_start dev_async) ex_observed H0))).
Defined.

(** Observing the array [[1, 2]]. *)
Lemma observe_array_keeps_elements_witness :
  objs ex_array_start !! 0 = Some ex_array
  /\ ob ex_array = None /\ cls ex_array = CArray
  /\ exists s',
      observe 1 (VObj 0) false ex_array_start = Ok (Some 0) s'
      /\ objs s' !! 0 = Some (with_augmented true (with_ob (Some 0) ex_array)).
Proof.
  split; [reflexivity|]. split; [reflexivity|]. split; [reflexivity|].
  destruct (observe 1 (VObj 0) false ex_array_start) as [[o|] s'|e s'] eqn:Hobs;
    [|vm_compute in Hobs; discriminate Hobs | vm_compute in Hobs; discriminate Hobs].
  assert (Ho : o = 0) by (vm_compute in Hobs; injection Hobs as <- _; reflexivity).
  subst o. exists s'. split; [reflexivity|].
  exact (proj1 (observe_array_keeps_elements 1 0 ex_array false 0 ex_array_start s'
                  eq_refl eq_refl eq_refl Hobs)).
Defined.

(** Tearing down the watcher of [ex_watched]. *)
Lemma torn_down_is_silent_witness :
  subscribed 1 ex_watched
  /\ watchers ex_watched !! 1 = Some ex_W
  /\ active ex_W = true
  /\ vms ex_watched !! vm ex_W = Some (mkComponent None [1] false)
  /\ exists s',
      Watcher_teardown 1 ex_watched = Ok tt s'
      /\ (forall d, 1 ∉ subs_of s' d)
      /\ (_watchers <$> vms s' !! 0) = Some []
      /\ Watcher_run no_traverse 1 1 s' = Ok tt s'.
Proof.
  split; [exact subscribed_ex_watched|]. split; [reflexivity|].
  split; [reflexivity|]. split; [reflexivity|].
  destruct (torn_down_is_silent no_traverse 1 1 ex_W (mkComponent None [1] false)
              ex_watched subscribed_ex_watched eq_refl eq_refl eq_refl)
    as (s' & H1 & H2 & H3 & _ & H4).
  exists s'. split; [exact H1|]. split; [exact H2|]. split; [exact (H3 eq_refl)|].
  exact H4.
Defined.

(** [dependArray] on the array of [ex_list_reading]: the dependency of
    the observer of its element is registered. *)
Lemma dependArray_registers_witness :
  objs ex_list_reading !! 0 = Some (with_augmented true (with_ob (Some 0) ex_list))
  /\ target ex_list_reading = Some 1
  /\ watchers ex_list_reading !! 1 = Some ex_idle_W
  /\ exists s' W',
      dependArray 1 0 ex_list_reading = Ok tt s'
      /\ watchers s' = <[1 := W']> (watchers ex_list_reading)
      /\ 1 ∈ newDepIds W'.
Proof.
  split; [reflexivity|]. split; [reflexivity|]. split; [reflexivity|].
  destruct (dependArray_registers 1 0 (with_augmented true (with_ob (Some 0) ex_list))
              1 ex_idle_W ex_list_reading eq_refl eq_refl eq_refl)
    as (s' & W' & H1 & H2 & H3 & _).
  - intros i Hi. simpl in Hi. assert (i = 0) as -> by lia.
    exists (VObj 1). split; [reflexivity|]. split; [reflexivity|].
    intros _ o Ho. vm_compute in Ho. injection Ho as <-. vm_compute. eauto.
  - exists s', W'. split; [exact H1|]. split; [exact H2|].
    apply (H3 0 (VObj 1) 1 (mkObserver 1 1 0)); try reflexivity. simpl. lia.
Defined.

(** The object of [ex_start] observed as root data: [set] of the new key
    [c] and [del] of [a] leave it alone. *)
Lemma root_data_is_guarded_witness :
  let s1 := store_of (observe 1 (VObj 0) true (ex_start dev_async)) in
  observe 1 (VObj 0) true (ex_start dev_async) = Ok (Some 0) s1
  /\ (exists s2, set no_traverse 1 (VObj 0) (KName "c") (VNum 3) s1 = Ok (VNum 3) s2
                 /\ objs s2 = objs s1 /\ subs s2 = subs s1)
  /\ del no_traverse 1 (VObj 0) (KName "c") s1
     = Ok tt (log (EvWarn del_on_root_warning) s1).
Proof.
  intros s1.
  assert (Hobs : observe 1 (VObj 0) true (ex_start dev_async) = Ok (Some 0) s1)
    by (vm_compute; reflexivity).
  split; [exact Hobs|].
  destruct (root_data_is_guarded no_traverse 1 1 0 0 (KName "c") (VNum 3)
              (ex_start dev_async) s1 Hobs) as (x1 & Hx1 & _ & H).
  assert (Hx : x1 = ex_reactive_obj)
    by (vm_compute in Hx1; injection Hx1 as <-; reflexivity).
  subst x1.
  destruct H as [Hset Hdel]; [intros H; discriminate H|].
  split.
  - destruct (Hset eq_refl eq_refl eq_refl)
      as (s2 & H1 & H2 & _ & H3 & _).
    exists s2. split; [exact H1|]. split; [exact H2 | exact H3].
  - rewrite Hdel. reflexivity.
Defined.

(** Writing 5 to [a] runs the synchronous watcher of [ex_sync]: its
    callback is called with 5 and 1, as the last step of the write. *)
Lemma sync_watcher_fires_on_write_witness :
  watchers ex_sync !! 1 = Some ex_sync_W
  /\ objs ex_sync !! 0 = Some ex_reactive_obj
  /\ closures ex_sync !! 1 = Some (CReactive (VNum 1) 2 None false false None None)
  /\ subs_of ex_sync 2 = [1]
  /\ exists W1 s6,
      watchers s6 !! 1 = Some W1 /\ value W1 = VNum 5
      /\ queue s6 = queue ex_sync
      /\ prop_set no_traverse 1 0 (KName "a") (VNum 5) ex_sync
         = call_back 1 ex_sync_W (VNum 5) (VNum 1) s6.
Proof.
  split; [reflexivity|]. split; [reflexivity|]. split; [reflexivity|].
  split; [reflexivity|].
  destruct (sync_watcher_fires_on_write no_traverse 1 1 ex_sync_W 0 (KName "a")
              ex_reactive_obj 1 true true (VNum 1) 2 None false false (VNum 5) ex_sync
              eq_refl eq_refl eq_refl eq_refl eq_refl eq_refl eq_refl eq_refl eq_refl
              eq_refl eq_refl eq_refl)
    as (pre & evs & W1 & s6 & _ & _ & H1 & H2 & H3 & _ & H4).
  exists W1, s6. split; [exact H1|]. split; [exact H2|]. split; [exact H3 | exact H4].
Defined.

(** Adding [c] to the object of [ex_start], which nobody observes. *)
Lemma set_on_unobserved_is_plain_witness :
  objs (ex_start dev_async) !! 0 = Some ex_obj
  /\ own_property ex_obj (KName "c") = None
  /\ ob ex_obj = None /\ extensible ex_obj = true
  /\ exists s',
      set no_traverse 1 (VObj 0) (KName "c") (VNum 3) (ex_start dev_async)
      = Ok (VNum 3) s'
      /\ trace s' = []
      /\ prop_get 1 0 (KName "c") s' = Ok (VNum 3) s'.
Proof.
  split; [reflexivity|]. split; [reflexivity|]. split; [reflexivity|].
  split; [reflexivity|].
  destruct (set_on_unobserved_is_plain no_traverse 1 0 (KName "c") (VNum 3) ex_obj
              (ex_start dev_async) eq_refl eq_refl
              ltac:(discriminate) eq_refl eq_refl
              eq_refl eq_refl) as [H _].
  destruct (H eq_refl) as (H1 & _ & H2).
  eexists. split; [exact H1|]. split; [reflexivity | exact (H2 1)].
Defined.
